(** * Task-control model of the FreeRTOS demo in [src/main.c]

    Four tasks run under a preemptive scheduler: [led_task] cycles an RGB
    LED, [buzzer_task] pulses a PWM output, [button_task] polls two buttons
    and suspends or resumes the first two tasks, and [oled_task] reports
    their state on a display.  The development embeds each task body as a
    monadic program over an explicit [World] (task registry, scheduler
    table, GPIO bank, PWM levels, display), one segment per stretch of
    code between two [vTaskDelay] calls, and composes the segments under an
    arbitrary interleaving and under an ideal tick-driven scheduler.

    A segment is taken as one step.  [button_task], the only task that
    acts on other tasks, has the highest priority, so no task preempts
    its segments; the other three write disjoint parts of the world (the
    LED pins, the PWM level, the display). *)

From stdpp Require Import base decidable countable numbers list strings gmap.
From Stdlib Require Import ZArith Lia.

Local Open Scope Z_scope.

(** ** Macros of [main.c] *)

Definition LED_R_PIN : Z := 13.
Definition LED_G_PIN : Z := 11.
Definition LED_B_PIN : Z := 12.
Definition BUZZER_A_PIN : Z := 21.
Definition BUZZER_FREQUENCY : Z := 8000.
Definition BUTTON_A_PIN : Z := 5.
Definition BUTTON_B_PIN : Z := 6.

(** [uint] is a 32-bit unsigned integer on the RP2040. *)
Definition UINT_MODULUS : Z := 2 ^ 32.

(** ** Tasks, handles and scheduler states *)

(** The four tasks that [main] creates, named after the strings it passes
    to [xTaskCreate]. *)
Inductive task : Set := LED_Task | Buzzer_Task | Button_Task | OLED_Task.

Global Instance task_eq_dec : EqDecision task.
Proof. solve_decision. Defined.

Definition task_index (t : task) : nat :=
  match t with
  | LED_Task => 0 | Buzzer_Task => 1 | Button_Task => 2 | OLED_Task => 3
  end%nat.

Definition task_of_index (n : nat) : task :=
  match n with
  | 0 => LED_Task | 1 => Buzzer_Task | 2 => Button_Task | _ => OLED_Task
  end%nat.

Global Instance task_countable : Countable task.
Proof.
  refine (inj_countable' task_index task_of_index _).
  intros t. destruct t; reflexivity.
Defined.

(** [TaskHandle_t]: an opaque reference to a created task; [None] is the
    C [NULL]. *)
Definition TaskHandle_t : Set := option task.

(** Modelled from the spec: FreeRTOS's [eTaskState] (its header [task.h] is
    not among the sources).  The spec's [get_state] answers running,
    suspended or invalid; the enumeration below is the kernel's, of which
    the code names [eSuspended] and [eInvalid]. *)
Inductive eTaskState : Set :=
  eRunning | eReady | eBlocked | eSuspended | eDeleted | eInvalid.

Global Instance eTaskState_eq_dec : EqDecision eTaskState.
Proof. solve_decision. Defined.

(** The spec's data model: the run-state of a controllable task. *)
Inductive RunState : Set := Running | Suspended | Unknown.

Global Instance RunState_eq_dec : EqDecision RunState.
Proof. solve_decision. Defined.

Definition RunState_of (st : eTaskState) : RunState :=
  match st with
  | eSuspended => Suspended
  | eInvalid => Unknown
  | _ => Running
  end.

(** Modelled from the spec: the kernel's task control block, reduced to
    what [xTaskCreate] records and what suspend, resume and delay change. *)
Record TCB : Set := mkTCB {
  pcName : string;
  usStackDepth : Z;
  uxPriority : Z;
  eCurrentState : eTaskState;
  xWakeTime : Z
}.

Definition set_state (st : eTaskState) (b : TCB) : TCB :=
  mkTCB (pcName b) (usStackDepth b) (uxPriority b) st (xWakeTime b).

Definition set_wake (t : Z) (b : TCB) : TCB :=
  mkTCB (pcName b) (usStackDepth b) (uxPriority b) (eCurrentState b) t.

(** ** Calls to the collaborators *)

(** Every call a task makes to the SDK, the kernel or the display driver,
    with its arguments (and, for a read, the value read). *)
Inductive call : Set :=
| call_gpio_init (gpio : Z)
| call_gpio_set_dir (gpio : Z) (out : bool)
| call_gpio_pull_up (gpio : Z)
| call_gpio_put (gpio : Z) (value : bool)
| call_gpio_get (gpio : Z) (value : bool)
| call_pwm_set_gpio_level (gpio : Z) (level : Z)
| call_vTaskDelay (ticks : Z)
| call_vTaskSuspend (h : TaskHandle_t)
| call_vTaskResume (h : TaskHandle_t)
| call_eTaskGetState (h : TaskHandle_t) (st : eTaskState)
| call_ssd1306_clear
| call_ssd1306_draw_string (x y scale : Z) (s : string)
| call_ssd1306_show
| call_printf (s : string)
| call_xTaskCreate (t : task) (name : string) (stack priority : Z)
| call_vTaskStartScheduler
| call_config (fn : string) (args : list Z).

Global Instance call_eq_dec : EqDecision call.
Proof. solve_decision. Defined.

(** ** The world the tasks act on *)

Definition text_line : Set := (Z * Z * Z * string)%type.

Record World : Type := mkWorld {
  (* the global handles of main.c *)
  xLedTaskHandle : TaskHandle_t;
  xBuzzerTaskHandle : TaskHandle_t;
  xOledTaskHandle : TaskHandle_t;
  (* the kernel *)
  tcbs : gmap task TCB;
  xTickCount : Z;
  (* the peripherals *)
  gpio_in : gmap Z bool;
  gpio_out : gmap Z bool;
  pwm_level : gmap Z Z;
  (* the SSD1306: frame buffer and what the panel shows *)
  display_buffer : list text_line;
  display_panel : list text_line
}.

Definition with_tcbs (f : gmap task TCB -> gmap task TCB) (w : World) : World :=
  mkWorld (xLedTaskHandle w) (xBuzzerTaskHandle w) (xOledTaskHandle w)
          (f (tcbs w)) (xTickCount w)
          (gpio_in w) (gpio_out w) (pwm_level w)
          (display_buffer w) (display_panel w).

Definition with_tick (n : Z) (w : World) : World :=
  mkWorld (xLedTaskHandle w) (xBuzzerTaskHandle w) (xOledTaskHandle w)
          (tcbs w) n
          (gpio_in w) (gpio_out w) (pwm_level w)
          (display_buffer w) (display_panel w).

Definition with_gpio_in (f : gmap Z bool -> gmap Z bool) (w : World) : World :=
  mkWorld (xLedTaskHandle w) (xBuzzerTaskHandle w) (xOledTaskHandle w)
          (tcbs w) (xTickCount w)
          (f (gpio_in w)) (gpio_out w) (pwm_level w)
          (display_buffer w) (display_panel w).

Definition with_gpio_out (f : gmap Z bool -> gmap Z bool) (w : World) : World :=
  mkWorld (xLedTaskHandle w) (xBuzzerTaskHandle w) (xOledTaskHandle w)
          (tcbs w) (xTickCount w)
          (gpio_in w) (f (gpio_out w)) (pwm_level w)
          (display_buffer w) (display_panel w).

Definition with_pwm (f : gmap Z Z -> gmap Z Z) (w : World) : World :=
  mkWorld (xLedTaskHandle w) (xBuzzerTaskHandle w) (xOledTaskHandle w)
          (tcbs w) (xTickCount w)
          (gpio_in w) (gpio_out w) (f (pwm_level w))
          (display_buffer w) (display_panel w).

Definition with_display (buf panel : list text_line) (w : World) : World :=
  mkWorld (xLedTaskHandle w) (xBuzzerTaskHandle w) (xOledTaskHandle w)
          (tcbs w) (xTickCount w)
          (gpio_in w) (gpio_out w) (pwm_level w)
          buf panel.

Definition with_handles (led buz oled : TaskHandle_t) (w : World) : World :=
  mkWorld led buz oled
          (tcbs w) (xTickCount w)
          (gpio_in w) (gpio_out w) (pwm_level w)
          (display_buffer w) (display_panel w).

(** ** The monad of task code

    A computation runs on behalf of a caller ([None] is [main], before the
    scheduler starts), reads and updates the world and records its calls.
    It ends in one of three ways: it returns; the caller never gets past
    some point of the segment ([Stalled]: it suspended itself, and no other
    task of this program ever resumes it, or it spins in [while(1);]); or
    it leaves defined behaviour ([Fault]: an array index out of range, a
    text longer than its buffer, a handle to a task that was never
    created). *)
Inductive result (A : Type) : Type :=
| Done (a : A) (w : World) (cs : list call)
| Stalled (w : World) (cs : list call)
| Fault.
Arguments Done {A} a w cs.
Arguments Stalled {A} w cs.
Arguments Fault {A}.

Definition M (A : Type) : Type := option task -> World -> result A.

Definition ret {A} (a : A) : M A := fun _ w => Done a w [].

Definition bind {A B} (m : M A) (f : A -> M B) : M B :=
  fun self w =>
    match m self w with
    | Done a w1 cs1 =>
        match f a self w1 with
        | Done b w2 cs2 => Done b w2 (cs1 ++ cs2)
        | Stalled w2 cs2 => Stalled w2 (cs1 ++ cs2)
        | Fault => Fault
        end
    | Stalled w1 cs1 => Stalled w1 cs1
    | Fault => Fault
    end.

Declare Scope task_scope.
Delimit Scope task_scope with task.
Notation "'let*' x := m 'in' k" := (bind m (fun x => k))
  (at level 10, x name, m at level 100, k at level 200) : task_scope.
Notation "m >> k" := (bind m (fun _ => k))
  (at level 62, right associativity) : task_scope.
Local Open Scope task_scope.

Definition read {A} (f : World -> A) : M A := fun _ w => Done (f w) w [].
Definition emit (c : call) : M unit := fun _ w => Done tt w [c].
Definition update (f : World -> World) : M unit := fun _ w => Done tt (f w) [].
Definition fault {A} : M A := fun _ _ => Fault.
Definition myself : M (option task) := fun self w => Done self w [].
Definition stall {A} : M A := fun _ w => Stalled w [].

(** A counted [for] loop whose body does not assign the counter: the body
    runs once for each index, in order. *)
Fixpoint for_each (indices : list Z) (body : Z -> M unit) : M unit :=
  match indices with
  | [] => ret tt
  | i :: rest => body i >> for_each rest body
  end.

(** Reading element [i] of a C array; outside the array the behaviour is
    undefined. *)
Definition array_get (a : list Z) (i : Z) : M Z :=
  match a !! Z.to_nat i with
  | Some x => if 0 <=? i then ret x else fault
  | None => fault
  end.

(** ** Peripheral abstraction

    The Pico SDK is an external collaborator.  The spec asks of it a "set
    digital output level" call, a "set PWM duty" call and a "read digital
    input" call, and leaves pin configuration out of scope. *)

(** Modelled from the spec: the SDK's pin configuration calls (the SDK is
    not among the sources).  They are recorded and change no level. *)
Definition gpio_init (gpio : Z) : M unit := emit (call_gpio_init gpio).
Definition gpio_set_dir (gpio : Z) (out : bool) : M unit :=
  emit (call_gpio_set_dir gpio out).
Definition gpio_pull_up (gpio : Z) : M unit := emit (call_gpio_pull_up gpio).

(** Modelled from the spec: the SDK's [gpio_put], the spec's
    [set_output(channel, level)]. *)
Definition gpio_put (gpio : Z) (value : bool) : M unit :=
  emit (call_gpio_put gpio value) >>
  update (with_gpio_out (insert gpio value)).

(** A pin that nothing drives reads high: the buttons are wired with
    pull-ups and close to ground. *)
Definition input_level (gpio : Z) (w : World) : bool :=
  default true (gpio_in w !! gpio).

(** Modelled from the spec: the SDK's [gpio_get], the spec's
    [read_input(channel)]. *)
Definition gpio_get (gpio : Z) : M bool :=
  let* v := read (input_level gpio) in
  emit (call_gpio_get gpio v) >>
  ret v.

(** Modelled from the spec: the SDK's [pwm_set_gpio_level], the spec's
    [set_pwm_duty(channel, duty)]. *)
Definition pwm_set_gpio_level (gpio : Z) (level : Z) : M unit :=
  emit (call_pwm_set_gpio_level gpio level) >>
  update (with_pwm (insert gpio level)).

(** Console output: recorded, with no other effect. *)
Definition printf (s : string) : M unit := emit (call_printf s).

(** The line feed that ends the console messages. *)
Definition newline : string := String (Ascii.ascii_of_nat 10) EmptyString.

(** A bring-up call of [main] whose effect is outside the model: recorded
    by name. *)
Definition config (fn : string) (args : list Z) : M unit :=
  emit (call_config fn args).

(** ** Display collaborator

    The SSD1306 driver ([lib/ssd1306]) is not among the sources.  The spec
    has it expose [clear()], [draw_text(x, y, scale, text)] and
    [present()]: drawing goes to a buffer, and [present] copies the buffer
    to the panel. *)

(** Modelled from the spec: the driver's [ssd1306_clear], the spec's
    [clear()]. *)
Definition ssd1306_clear : M unit :=
  emit call_ssd1306_clear >>
  update (fun w => with_display [] (display_panel w) w).

(** Modelled from the spec: the driver's [ssd1306_draw_string], the spec's
    [draw_text(x, y, scale, text)]. *)
Definition ssd1306_draw_string (x y scale : Z) (s : string) : M unit :=
  emit (call_ssd1306_draw_string x y scale s) >>
  update (fun w => with_display (display_buffer w ++ [(x, y, scale, s)])
                                (display_panel w) w).

(** Modelled from the spec: the driver's [ssd1306_show], the spec's
    [present()]. *)
Definition ssd1306_show : M unit :=
  emit call_ssd1306_show >>
  update (fun w => with_display (display_buffer w) (display_buffer w) w).

(** [sprintf] into a [char] array of [size] bytes: the text and its
    terminating NUL must fit. *)
Definition sprintf (size : Z) (s : string) : M string :=
  if Z.of_nat (String.length s) + 1 <=? size then ret s else fault.

(** ** Scheduler primitives

    The FreeRTOS kernel is an external collaborator.  The spec has it
    offer [create_task], [suspend(handle)], [resume(handle)],
    [get_state(handle)] and [delay(duration)]: a task is created Running
    (ready); suspend makes it Suspended, resume makes a Suspended task
    ready again; a delay blocks the caller until its wake time. *)

(** Modelled from the spec: the tick rate ([FreeRTOSConfig.h] is not among
    the sources).  The spec gives every period in milliseconds; one tick
    per millisecond is taken. *)
Definition configTICK_RATE_HZ : Z := 1000.

(** Modelled from the spec: the kernel's macro [pdMS_TO_TICKS]. *)
Definition pdMS_TO_TICKS (xTimeInMs : Z) : Z :=
  xTimeInMs * configTICK_RATE_HZ / 1000.

(** Modelled from the spec: the two answers of [create_task], success and
    failure, with the kernel's names. *)
Definition pdPASS : Z := 1.
Definition errCOULD_NOT_ALLOCATE_REQUIRED_MEMORY : Z := -1.

Definition state_of (t : task) (w : World) : option eTaskState :=
  eCurrentState <$> tcbs w !! t.

(** Modelled from the spec: the kernel's [vTaskDelay], the spec's
    [delay(duration)].  The calling task is blocked until the tick count
    has advanced by [xTicksToDelay]. *)
Definition vTaskDelay (xTicksToDelay : Z) : M unit :=
  emit (call_vTaskDelay xTicksToDelay) >>
  let* self := myself in
  match self with
  | Some t =>
      if 0 <? xTicksToDelay then
        update (fun w =>
          with_tcbs (alter (fun b => set_wake (xTickCount w + xTicksToDelay)
                                              (set_state eBlocked b)) t) w)
      else ret tt
  | None => ret tt
  end.

(** Modelled from the spec: the kernel's [vTaskSuspend], the spec's
    [suspend(handle)].  For a [NULL] handle, on which the spec is silent,
    the kernel's documented behaviour is taken: the calling task is the
    one suspended.  A task that suspends itself goes no further. *)
Definition vTaskSuspend (xTaskToSuspend : TaskHandle_t) : M unit :=
  emit (call_vTaskSuspend xTaskToSuspend) >>
  let* self := myself in
  let target := match xTaskToSuspend with Some t => Some t | None => self end in
  match target with
  | Some t =>
      let* st := read (state_of t) in
      match st with
      | Some _ =>
          update (with_tcbs (alter (set_state eSuspended) t)) >>
          if decide (self = Some t) then stall else ret tt
      | None => fault
      end
  | None => ret tt
  end.

(** Modelled from the spec: the kernel's [vTaskResume], the spec's
    [resume(handle)].  Only a suspended task other than the caller is made
    ready; a [NULL] handle resumes nothing. *)
Definition vTaskResume (xTaskToResume : TaskHandle_t) : M unit :=
  emit (call_vTaskResume xTaskToResume) >>
  let* self := myself in
  match xTaskToResume with
  | Some t =>
      let* st := read (state_of t) in
      match st with
      | Some eSuspended =>
          if decide (self = Some t) then ret tt
          else update (with_tcbs (alter (set_state eReady) t))
      | Some _ => ret tt
      | None => fault
      end
  | None => ret tt
  end.

(** Modelled from the spec: the kernel's [eTaskGetState], the spec's
    [get_state(handle)].  It needs a valid handle; asked about itself, a
    task is told it is running. *)
Definition eTaskGetState (xTask : TaskHandle_t) : M eTaskState :=
  let* self := myself in
  match xTask with
  | Some t =>
      let* st := read (state_of t) in
      match st with
      | Some s =>
          let s := if decide (self = Some t) then eRunning else s in
          emit (call_eTaskGetState xTask s) >> ret s
      | None => fault
      end
  | None => fault
  end.

(** The three global handles, as targets of [xTaskCreate]'s out-parameter. *)
Inductive handle_var : Set :=
  var_xLedTaskHandle | var_xBuzzerTaskHandle | var_xOledTaskHandle.

Definition store_handle (v : handle_var) (h : TaskHandle_t) (w : World) : World :=
  match v with
  | var_xLedTaskHandle =>
      with_handles h (xBuzzerTaskHandle w) (xOledTaskHandle w) w
  | var_xBuzzerTaskHandle =>
      with_handles (xLedTaskHandle w) h (xOledTaskHandle w) w
  | var_xOledTaskHandle =>
      with_handles (xLedTaskHandle w) (xBuzzerTaskHandle w) h w
  end.

(** Modelled from the spec: the kernel's [xTaskCreate], the spec's
    [create_task(entry, name, stack_size, priority) -> handle | failure].
    Whether the kernel finds memory for the task is the environment's
    choice ([heap_ok]).  On success the task is ready and the handle, if
    asked for, is stored; on failure nothing is written. *)
Definition xTaskCreate (heap_ok : bool) (pxTaskCode : task) (name : string)
    (stack priority : Z) (pxCreatedTask : option handle_var) : M Z :=
  emit (call_xTaskCreate pxTaskCode name stack priority) >>
  if heap_ok then
    update (with_tcbs (insert pxTaskCode
                         (mkTCB name stack priority eReady 0))) >>
    match pxCreatedTask with
    | Some v => update (store_handle v (Some pxTaskCode))
    | None => ret tt
    end >>
    ret pdPASS
  else ret errCOULD_NOT_ALLOCATE_REQUIRED_MEMORY.

(** ** [led_task] *)

Definition LED_PINS : list Z := [LED_R_PIN; LED_G_PIN; LED_B_PIN].

(** [sizeof(LED_PINS) / sizeof(LED_PINS[0])] *)
Definition NUM_COLORS : Z := Z.of_nat (length LED_PINS).

(** What [led_task] keeps across its delays: whether the set-up before the
    loop has run, and the loop's variable. *)
Record led_locals : Set := mkLed {
  led_started : bool;
  current_color_index : Z
}.

Definition led_entry : led_locals := mkLed false 0.

(** The [for] loop before [while (true)]. *)
Definition led_task_init : M unit :=
  for_each (seqZ 0 NUM_COLORS) (fun i =>
    let* pin := array_get LED_PINS i in
    gpio_init pin >>
    gpio_set_dir pin true >>
    gpio_put pin false).

(** One pass through the body of [while (true)], up to and including its
    [vTaskDelay]. *)
Definition led_task_loop (current_color_index : Z) : M Z :=
  let* pin := array_get LED_PINS current_color_index in
  gpio_put pin false >>
  let current_color_index :=
    ((current_color_index + 1) mod UINT_MODULUS) mod NUM_COLORS in
  let* pin := array_get LED_PINS current_color_index in
  gpio_put pin true >>
  vTaskDelay (pdMS_TO_TICKS 500) >>
  ret current_color_index.

Definition led_task (l : led_locals) : M led_locals :=
  let* i :=
    if led_started l then led_task_loop (current_color_index l)
    else led_task_init >> led_task_loop 0 in
  ret (mkLed true i).

(** ** [buzzer_task] *)

(** The loop body has two delays; [buzzer_phase] says which half comes
    next. *)
Inductive buzzer_phase : Set := BuzzerOn | BuzzerOff.

Global Instance buzzer_phase_eq_dec : EqDecision buzzer_phase.
Proof. solve_decision. Defined.

Definition buzzer_entry : buzzer_phase := BuzzerOn.

Definition buzzer_task (p : buzzer_phase) : M buzzer_phase :=
  match p with
  | BuzzerOn =>
      pwm_set_gpio_level BUZZER_A_PIN 2048 >>
      vTaskDelay (pdMS_TO_TICKS 100) >>
      ret BuzzerOff
  | BuzzerOff =>
      pwm_set_gpio_level BUZZER_A_PIN 0 >>
      vTaskDelay (pdMS_TO_TICKS 900) >>
      ret BuzzerOn
  end.

(** ** [button_task] *)

Record button_locals : Set := mkButton {
  button_started : bool;
  button_a_pressed_previously : bool;
  button_b_pressed_previously : bool;
  led_task_suspended : bool;
  buzzer_task_suspended : bool
}.

Definition button_entry : button_locals := mkButton false false false false false.

Definition button_task_init : M unit :=
  gpio_init BUTTON_A_PIN >>
  gpio_set_dir BUTTON_A_PIN false >>
  gpio_pull_up BUTTON_A_PIN >>
  gpio_init BUTTON_B_PIN >>
  gpio_set_dir BUTTON_B_PIN false >>
  gpio_pull_up BUTTON_B_PIN.

(** One pass through the body of [while (true)]. *)
Definition button_task_loop (l : button_locals) : M button_locals :=
  (* button A *)
  let* level_a := gpio_get BUTTON_A_PIN in
  let button_a_currently_pressed := negb level_a in
  let* led_task_suspended :=
    if button_a_currently_pressed && negb (button_a_pressed_previously l) then
      if led_task_suspended l then
        let* h := read xLedTaskHandle in
        vTaskResume h >>
        printf ("Tarefa LED Retomada" +:+ newline) >>
        ret false
      else
        let* h := read xLedTaskHandle in
        vTaskSuspend h >>
        printf ("Tarefa LED Suspensa" +:+ newline) >>
        ret true
    else ret (led_task_suspended l) in
  let button_a_pressed_previously := button_a_currently_pressed in
  (* button B *)
  let* level_b := gpio_get BUTTON_B_PIN in
  let button_b_currently_pressed := negb level_b in
  let* buzzer_task_suspended :=
    if button_b_currently_pressed && negb (button_b_pressed_previously l) then
      if buzzer_task_suspended l then
        let* h := read xBuzzerTaskHandle in
        vTaskResume h >>
        printf ("Tarefa Buzzer Retomada" +:+ newline) >>
        ret false
      else
        let* h := read xBuzzerTaskHandle in
        vTaskSuspend h >>
        printf ("Tarefa Buzzer Suspensa" +:+ newline) >>
        ret true
    else ret (buzzer_task_suspended l) in
  let button_b_pressed_previously := button_b_currently_pressed in
  vTaskDelay (pdMS_TO_TICKS 100) >>
  ret (mkButton true button_a_pressed_previously button_b_pressed_previously
                led_task_suspended buzzer_task_suspended).

Definition button_task (l : button_locals) : M button_locals :=
  if button_started l then button_task_loop l
  else button_task_init >> button_task_loop l.

(** ** [oled_task] *)

(** Where [oled_task] stands between two delays: in the loop that waits
    for the handles, or in the reporting loop. *)
Inductive oled_phase : Set := OledWaiting | OledReporting.

Global Instance oled_phase_eq_dec : EqDecision oled_phase.
Proof. solve_decision. Defined.

Definition oled_entry : oled_phase := OledWaiting.

(** The text of one status line: [sprintf] of the task's name and state. *)
Definition status_text (task_name null_text : string) (st : eTaskState) : string :=
  if decide (st <> eInvalid) then
    task_name +:+ (if decide (st = eSuspended) then "Suspended" else "Run")
  else null_text.

Definition query_state (handle : World -> TaskHandle_t) : M eTaskState :=
  let* h := read handle in
  if decide (h <> None) then eTaskGetState h else ret eInvalid.

(** One pass through the body of the reporting loop. *)
Definition oled_task_loop : M unit :=
  let* led_state := query_state xLedTaskHandle in
  let* buzzer_state := query_state xBuzzerTaskHandle in
  ssd1306_clear >>
  let* led_status_str :=
    sprintf 25 (status_text "Task LED: " "LED: Handle Nulo" led_state) in
  ssd1306_draw_string 0 0 1 led_status_str >>
  let* buzzer_status_str :=
    sprintf 25 (status_text "Task Buzz: " "Buzzer: Handle Nulo" buzzer_state) in
  ssd1306_draw_string 0 10 1 buzzer_status_str >>
  ssd1306_show >>
  vTaskDelay (pdMS_TO_TICKS 250).

Definition oled_task (p : oled_phase) : M oled_phase :=
  match p with
  | OledWaiting =>
      let* led := read xLedTaskHandle in
      let* buz := read xBuzzerTaskHandle in
      if bool_decide (led = None) || bool_decide (buz = None) then
        vTaskDelay (pdMS_TO_TICKS 10) >>
        ret OledWaiting
      else
        printf ("Tarefa OLED Iniciada" +:+ newline) >>
        oled_task_loop >>
        ret OledReporting
  | OledReporting =>
      oled_task_loop >>
      ret OledReporting
  end.

(** ** [main] and the bring-up functions *)

Definition I2C_SDA_PIN : Z := 14.
Definition I2C_SCL_PIN : Z := 15.
Definition I2C_ADDRESS : Z := 60.
Definition I2C_FREQUENCY : Z := 400000.
Definition OLED_WIDTH : Z := 128.
Definition OLED_HEIGHT : Z := 64.

(** The slice and clock-divider set-up is recorded by name.  The divider
    passed to [pwm_config_set_clkdiv] is
    [clock_get_hz(clk_sys) / (BUZZER_FREQUENCY * 4096)]; the sources do not
    give the system clock, so the read of the clock is recorded as a call
    of its own and the divider by the number the clock is divided by.  The
    duty written at the end is the buzzer's initial level. *)
Definition buzzer_pwm_init : M unit :=
  config "gpio_set_function GPIO_FUNC_PWM" [BUZZER_A_PIN] >>
  config "pwm_gpio_to_slice_num" [BUZZER_A_PIN] >>
  config "pwm_get_default_config" [] >>
  config "clock_get_hz clk_sys" [] >>
  config "pwm_config_set_clkdiv clock_get_hz / divisor" [BUZZER_FREQUENCY * 4096] >>
  config "pwm_init" [] >>
  pwm_set_gpio_level BUZZER_A_PIN 0.

(** [display_ok] is what [ssd1306_init] answers; when it fails the
    function never returns. *)
Definition SSD1306_Init (display_ok : bool) : M unit :=
  config "i2c_init" [I2C_FREQUENCY] >>
  config "gpio_set_function GPIO_FUNC_I2C" [I2C_SDA_PIN] >>
  config "gpio_set_function GPIO_FUNC_I2C" [I2C_SCL_PIN] >>
  gpio_pull_up I2C_SDA_PIN >>
  gpio_pull_up I2C_SCL_PIN >>
  config "ssd1306_init" [OLED_WIDTH; OLED_HEIGHT; I2C_ADDRESS] >>
  (if negb display_ok then
     printf ("Falha ao inicializar SSD1306!" +:+ newline) >> stall
   else ret tt) >>
  printf ("OLED ok!" +:+ newline) >>
  ssd1306_clear >>
  ssd1306_draw_string 0 0 1 "Display Init..." >>
  ssd1306_show >>
  config "sleep_ms" [2000].

(** Modelled from the spec: the kernel's [vTaskStartScheduler]; from here
    on the tasks run. *)
Definition vTaskStartScheduler : M unit := emit call_vTaskStartScheduler.

(** [main] up to the point where the scheduler takes over.  It returns
    when [vTaskStartScheduler] has been called and stalls when it ends in
    one of its [while(1);] traps. *)
Definition main (display_ok : bool) (heap_ok : task -> bool) : M unit :=
  config "stdio_init_all" [] >>
  config "sleep_ms" [2000] >>
  printf ("Sistema iniciando..." +:+ newline) >>
  SSD1306_Init display_ok >>
  buzzer_pwm_init >>
  printf ("Hardware inicializado." +:+ newline) >>
  let* ledStatus :=
    xTaskCreate (heap_ok LED_Task) LED_Task "LED_Task" 256 1
                (Some var_xLedTaskHandle) in
  let* buzzerStatus :=
    xTaskCreate (heap_ok Buzzer_Task) Buzzer_Task "Buzzer_Task" 256 1
                (Some var_xBuzzerTaskHandle) in
  let* buttonStatus :=
    xTaskCreate (heap_ok Button_Task) Button_Task "Button_Task" 256 2 None in
  let* oledStatus :=
    xTaskCreate (heap_ok OLED_Task) OLED_Task "OLED_Task" 256 1
                (Some var_xOledTaskHandle) in
  (if bool_decide (ledStatus <> pdPASS) || bool_decide (buzzerStatus <> pdPASS)
      || bool_decide (buttonStatus <> pdPASS) || bool_decide (oledStatus <> pdPASS)
   then
     printf ("Erro ao criar uma ou mais tarefas!" +:+ newline) >>
     ssd1306_clear >>
     ssd1306_draw_string 0 0 1 "Erro Task!" >>
     ssd1306_show >>
     stall
   else
     printf ("Tarefas criadas com sucesso." +:+ newline)) >>
  printf ("Iniciando scheduler do FreeRTOS..." +:+ newline) >>
  vTaskStartScheduler.

(** The world at reset: the handles hold their initialisers ([NULL]). *)
Definition power_on : World :=
  mkWorld None None None ∅ 0 ∅ ∅ ∅ [] [].

(** ** The running system *)

(** A recorded call with the tick at which it was made and the task that
    made it. *)
Definition event : Set := (Z * task * call)%type.

Record System : Type := mkSystem {
  world : World;
  led_state : led_locals;
  buzzer_state : buzzer_phase;
  button_state : button_locals;
  oled_state : oled_phase;
  trace : list event
}.

(** The system as the scheduler finds it: every task at its entry. *)
Definition start (w : World) : System :=
  mkSystem w led_entry buzzer_entry button_entry oled_entry [].

Definition stamp (t : task) (w : World) (cs : list call) : list event :=
  map (fun c => (xTickCount w, t, c)) cs.

(** What can happen next: the tick interrupt, a change of level on an
    input pin, or a ready task running its next segment. *)
Inductive label : Set :=
| Tick
| Input (gpio : Z) (level : bool)
| Run (t : task).

Definition ready (t : task) (w : World) : bool :=
  bool_decide (state_of t w = Some eReady).

(** The tick interrupt: the count advances and every blocked task whose
    wake time has come is made ready. *)
Definition wake (now : Z) (b : TCB) : TCB :=
  if bool_decide (eCurrentState b = eBlocked) && (xWakeTime b <=? now)
  then set_state eReady b else b.

Definition tick (w : World) : World :=
  let now := xTickCount w + 1 in
  with_tick now (with_tcbs (fmap (wake now)) w).

(** Running the next segment of task [t].  A stalled task keeps the locals
    it had; a fault ends the run. *)
Definition run_segment {A} (t : task) (m : M A) (s : System)
    (keep : A -> World -> list event -> System) : option System :=
  match m (Some t) (world s) with
  | Done a w cs => Some (keep a w (trace s ++ stamp t (world s) cs))
  | Stalled w cs =>
      Some (mkSystem w (led_state s) (buzzer_state s) (button_state s)
                     (oled_state s) (trace s ++ stamp t (world s) cs))
  | Fault => None
  end.

Definition run_task (t : task) (s : System) : option System :=
  match t with
  | LED_Task =>
      run_segment LED_Task (led_task (led_state s)) s (fun l w tr =>
        mkSystem w l (buzzer_state s) (button_state s) (oled_state s) tr)
  | Buzzer_Task =>
      run_segment Buzzer_Task (buzzer_task (buzzer_state s)) s (fun p w tr =>
        mkSystem w (led_state s) p (button_state s) (oled_state s) tr)
  | Button_Task =>
      run_segment Button_Task (button_task (button_state s)) s (fun l w tr =>
        mkSystem w (led_state s) (buzzer_state s) l (oled_state s) tr)
  | OLED_Task =>
      run_segment OLED_Task (oled_task (oled_state s)) s (fun p w tr =>
        mkSystem w (led_state s) (buzzer_state s) (button_state s) p tr)
  end.

Definition with_world (w : World) (s : System) : System :=
  mkSystem w (led_state s) (buzzer_state s) (button_state s) (oled_state s)
           (trace s).

(** A task that is not ready does not run: its step leaves the system as
    it is.  A step of a ready task is a whole pass: this fits what does
    not depend on where in its pass a task is interrupted; for what does,
    the passes are run action by action further down ([mstep]). *)
Definition step (l : label) (s : System) : option System :=
  match l with
  | Tick => Some (with_world (tick (world s)) s)
  | Input gpio level =>
      Some (with_world (with_gpio_in (insert gpio level) (world s)) s)
  | Run t => if ready t (world s) then run_task t s else Some s
  end.

Fixpoint run (schedule : list label) (s : System) : option System :=
  match schedule with
  | [] => Some s
  | l :: rest =>
      match step l s with
      | Some s' => run rest s'
      | None => None
      end
  end.

(** The system after [main]: [None] when [main] never starts the
    scheduler. *)
Definition boot (display_ok : bool) (heap_ok : task -> bool) : option System :=
  match main display_ok heap_ok None power_on with
  | Done _ w _ => Some (start w)
  | _ => None
  end.

(** ** The ideal scheduler

    Within one tick every ready task runs its segment, the task of
    highest priority first and tasks of equal priority in the order of
    their creation; segments take no time.  Then the tick count
    advances. *)
Definition ideal_order : list task :=
  [Button_Task; LED_Task; Buzzer_Task; OLED_Task].

Definition ideal_round : list label := map Run ideal_order ++ [Tick].

Fixpoint ideal_schedule (ticks : nat) : list label :=
  match ticks with
  | O => []
  | S n => ideal_round ++ ideal_schedule n
  end.

(** ** Observations on worlds, calls and traces *)

(** The run-state behind a handle, as the spec derives it: [Unknown] when
    the handle is not valid. *)
Definition run_state (h : TaskHandle_t) (w : World) : RunState :=
  match h with
  | Some t =>
      match state_of t w with
      | Some st => RunState_of st
      | None => Unknown
      end
  | None => Unknown
  end.

(** The calls that suspend or resume the task behind handle [h]. *)
Definition is_toggle_of (h : TaskHandle_t) (c : call) : bool :=
  match c with
  | call_vTaskSuspend h' | call_vTaskResume h' => bool_decide (h' = h)
  | _ => false
  end.

Definition is_toggle (c : call) : bool :=
  match c with
  | call_vTaskSuspend _ | call_vTaskResume _ => true
  | _ => false
  end.

Fixpoint count_calls (p : call -> bool) (cs : list call) : nat :=
  match cs with
  | [] => 0
  | c :: rest => (if p c then 1 else 0) + count_calls p rest
  end%nat.

Definition toggles_of (h : TaskHandle_t) (cs : list call) : nat :=
  count_calls (is_toggle_of h) cs.

(** *** Polling the buttons *)

(** One poll of [button_task] with the two pins at the given levels
    (high is released, low is pressed). *)
Definition set_levels (levels : bool * bool) (w : World) : World :=
  with_gpio_in (fun g => <[BUTTON_B_PIN := levels.2]> (<[BUTTON_A_PIN := levels.1]> g)) w.

Definition button_poll (levels : bool * bool) (l : button_locals) (w : World)
    : result button_locals :=
  button_task l (Some Button_Task) (set_levels levels w).

(** What one poll did to the two monitored tasks: the suspend and resume
    calls it made on each handle, and whether each run-state changed. *)
Record poll_report : Set := mkReport {
  led_calls : nat;
  led_flipped : bool;
  buzzer_calls : nat;
  buzzer_flipped : bool
}.

Definition changed (h : TaskHandle_t) (w w' : World) : bool :=
  bool_decide (run_state h w <> run_state h w').

Definition report_of (w w' : World) (cs : list call) : poll_report :=
  mkReport (toggles_of (xLedTaskHandle w) cs)
           (changed (xLedTaskHandle w) w w')
           (toggles_of (xBuzzerTaskHandle w) cs)
           (changed (xBuzzerTaskHandle w) w w').

Fixpoint button_polls (samples : list (bool * bool)) (l : button_locals)
    (w : World) : option (list poll_report * button_locals * World) :=
  match samples with
  | [] => Some ([], l, w)
  | levels :: rest =>
      match button_poll levels l w with
      | Done l' w' cs =>
          match button_polls rest l' w' with
          | Some (rs, l'', w'') => Some (report_of w w' cs :: rs, l'', w'')
          | None => None
          end
      | _ => None
      end
  end.

(** For a sequence of pressed/not-pressed samples, which of them are rising
    edges: pressed now and not pressed at the previous sample. *)
Fixpoint rising_edges (previously : bool) (pressed : list bool) : list bool :=
  match pressed with
  | [] => []
  | p :: rest => (p && negb previously) :: rising_edges p rest
  end.

Definition once_if (b : bool) : nat := if b then 1%nat else 0%nat.

(** The run-state a flag of the Control Task stands for. *)
Definition flag_state (suspended : bool) : RunState :=
  if suspended then Suspended else Running.

(** The registry holds the handles of the two monitored tasks, and the
    Control Task's flags say what their run-states are. *)
Definition flags_agree (l : button_locals) (w : World) : Prop :=
  xLedTaskHandle w = Some LED_Task /\
  xBuzzerTaskHandle w = Some Buzzer_Task /\
  run_state (Some LED_Task) w = flag_state (led_task_suspended l) /\
  run_state (Some Buzzer_Task) w = flag_state (buzzer_task_suspended l).

(** The number of rising edges in a sequence of samples. *)
Definition count_edges (previously : bool) (pressed : list bool) : nat :=
  length (filter (fun e => e = true) (rising_edges previously pressed)).

(** Modelled from the spec: the Control Task's decision as the spec words
    it, "if the task's current run-state is Suspended, resume it;
    otherwise, suspend it", taken from the run-state behind the handle. *)
Definition spec_resumes (h : TaskHandle_t) (w : World) : bool :=
  bool_decide (run_state h w = Suspended).

(** *** Watching [oled_task] *)

(** [oled_task] run segment after segment, each segment in the world the
    rest of the system has left for it. *)
Fixpoint oled_observes (ws : list World) (p : oled_phase)
    : option (oled_phase * list call) :=
  match ws with
  | [] => Some (p, [])
  | w :: rest =>
      match oled_task p (Some OLED_Task) w with
      | Done p' _ cs =>
          match oled_observes rest p' with
          | Some (q, cs') => Some (q, cs ++ cs')
          | None => None
          end
      | _ => None
      end
  end.

Definition both_valid (w : World) : Prop :=
  xLedTaskHandle w <> None /\ xBuzzerTaskHandle w <> None.

Definition is_query (c : call) : bool :=
  match c with call_eTaskGetState _ _ => true | _ => false end.

Definition is_render (c : call) : bool :=
  match c with
  | call_ssd1306_clear | call_ssd1306_draw_string _ _ _ _ | call_ssd1306_show => true
  | _ => false
  end.

Fixpoint is_prefix (p s : string) : bool :=
  match p, s with
  | EmptyString, _ => true
  | String a p', String b s' => bool_decide (a = b) && is_prefix p' s'
  | String _ _, EmptyString => false
  end.

(** [contains p s]: the text [p] occurs in [s]. *)
Fixpoint contains (p s : string) : bool :=
  is_prefix p s ||
  match s with
  | EmptyString => false
  | String _ s' => contains p s'
  end.

(** The text of a status line, from the run-state it reports. *)
Definition status_line (name null_name : string) (r : RunState) : string :=
  match r with
  | Running => name +:+ "Run"
  | Suspended => name +:+ "Suspended"
  | Unknown => null_name +:+ "Handle Nulo"
  end.

(** What [main] can leave in a handle: [NULL], or the handle of the task
    it created for it. *)
Definition handle_for (t : task) (h : TaskHandle_t) (w : World) : Prop :=
  h = None \/ (h = Some t /\ is_Some (tcbs w !! t)).

Definition registry_ok (w : World) : Prop :=
  handle_for LED_Task (xLedTaskHandle w) w /\
  handle_for Buzzer_Task (xBuzzerTaskHandle w) w.

Definition draws_null_label (c : call) : bool :=
  match c with
  | call_ssd1306_draw_string _ _ _ s => contains "Handle Nulo" s
  | _ => false
  end.

(** *** Watching [led_task] *)

Fixpoint iterate {A} (n : nat) (f : A -> M A) (a : A) : M A :=
  match n with
  | O => ret a
  | S k => let* a' := f a in iterate k f a'
  end.

(** The output levels after a sequence of calls. *)
Definition gpio_after (cs : list call) (g : gmap Z bool) : gmap Z bool :=
  foldl (fun g c =>
           match c with
           | call_gpio_put pin v => <[pin := v]> g
           | _ => g
           end) g cs.

(** The output levels after each call of a sequence, one entry per call. *)
Fixpoint gpio_history (cs : list call) (g : gmap Z bool) : list (gmap Z bool) :=
  match cs with
  | [] => []
  | c :: rest => gpio_after [c] g :: gpio_history rest (gpio_after [c] g)
  end.

(** The LED channels that are on. *)
Definition active_channels (g : gmap Z bool) : list Z :=
  filter (fun pin => g !! pin = Some true) LED_PINS.

(** The channels a sequence of calls turns on, in order. *)
Definition lit_channels (cs : list call) : list Z :=
  omap (fun c => match c with
                 | call_gpio_put pin true => Some pin
                 | _ => None
                 end) cs.

(** The calls of the set-up loop and of one pass from index [i]. *)
Definition led_init_calls : list call :=
  flat_map (fun pin => [call_gpio_init pin; call_gpio_set_dir pin true;
                        call_gpio_put pin false]) LED_PINS.

Definition channel (i : Z) : Z := default 0 (LED_PINS !! Z.to_nat i).

Definition led_pass_calls (i : Z) : list call :=
  [call_gpio_put (channel i) false;
   call_gpio_put (channel ((i + 1) mod NUM_COLORS)) true;
   call_vTaskDelay 500].

(** The index with which pass [k] (counted from 0) of the loop starts,
    and the channel it turns on. *)
Definition index_before (k : nat) : Z := Z.of_nat k mod NUM_COLORS.
Definition channel_lit (k : nat) : Z := channel (Z.of_nat (S k) mod NUM_COLORS).

(** *** Timing under the ideal scheduler *)

Definition events_of (t : task) (tr : list event) : list event :=
  filter (fun e => e.1.2 = t) tr.

(** The delays of [ticks] ticks that task [t] has started, and those of
    them that have run out by [now]. *)
Definition delays_started (t : task) (ticks : Z) (tr : list event) : list event :=
  filter (fun e => e.2 = call_vTaskDelay ticks) (events_of t tr).

Definition delays_elapsed (t : task) (ticks now : Z) (tr : list event) : nat :=
  length (filter (fun e => e.1.1 + ticks <= now) (delays_started t ticks tr)).

(** An index step of the Indicator is one execution of
    [current_color_index = (current_color_index + 1) % NUM_COLORS]; every
    pass of the loop makes one, followed by the one call that turns a
    channel on. *)
Definition led_index_steps (s : System) : nat :=
  length (lit_channels (map snd (events_of LED_Task (trace s)))).

(** A full on/off cycle of the Pulse Task is complete when its off-delay
    has run out. *)
Definition buzzer_cycles (s : System) : nat :=
  delays_elapsed Buzzer_Task (pdMS_TO_TICKS 900) (xTickCount (world s)) (trace s).

(** The 500 ms periods of the Indicator that have fully elapsed. *)
Definition led_periods (s : System) : nat :=
  delays_elapsed LED_Task (pdMS_TO_TICKS 500) (xTickCount (world s)) (trace s).

(** Start-up with a working display and enough memory for every task, and
    the system [ms] milliseconds later with no button touched. *)
Definition all_created : task -> bool := fun _ => true.

Definition after_ms (ms : nat) : option System :=
  match boot true all_created with
  | Some s => run (ideal_schedule (Z.to_nat (pdMS_TO_TICKS (Z.of_nat ms)))) s
  | None => None
  end.

(** The world in which the scheduler starts after that start-up. *)
Definition started_world : World :=
  match main true all_created None power_on with
  | Done _ w _ => w
  | _ => power_on
  end.

(** That world with the LED task suspended, and the world in which only
    the LED task's handle has been written. *)
Definition led_suspended_world : World :=
  with_tcbs (alter (set_state eSuspended) LED_Task) started_world.

Definition led_handle_only_world : World :=
  with_handles (Some LED_Task) None None started_world.

(** The four tasks exist but the registry holds only [NULL]s. *)
Definition null_registry_world : World :=
  with_handles None None None started_world.

Definition priority_of (t : task) (s : System) : option Z :=
  uxPriority <$> tcbs (world s) !! t.

(** ** Reasoning about task code *)

(** [returns m self w Q]: run by [self] in [w], the computation [m]
    returns, and its value, final world and calls satisfy [Q]. *)
Definition returns {A} (m : M A) (self : option task) (w : World)
    (Q : A -> World -> list call -> Prop) : Prop :=
  match m self w with
  | Done a w' cs => Q a w' cs
  | _ => False
  end.

(** A task that delays itself for a positive number of ticks is blocked
    until the tick count has advanced by that number. *)
Definition blocked_for (t : task) (ticks : Z) (w : World) : World :=
  with_tcbs (alter (fun b => set_wake (xTickCount w + ticks)
                                      (set_state eBlocked b)) t) w.

(** Every LED channel other than that of index [i] is off. *)
Definition others_off (i : Z) (g : gmap Z bool) : Prop :=
  forall k, 0 <= k < NUM_COLORS -> k <> i -> g !! channel k = Some false.

(** [respects R P m]: whenever [m] ends without a fault, its final world
    is related to its initial world by [R] and each of its calls
    satisfies [P]. *)
Definition respects (R : World -> World -> Prop) (P : call -> Prop)
    {A} (m : M A) : Prop :=
  forall self w,
    match m self w with
    | Done _ w' cs | Stalled w' cs => R w w' /\ Forall P cs
    | Fault => True
    end.

(** The three handles are the same in both worlds. *)
Definition same_registry (w w' : World) : Prop :=
  xLedTaskHandle w' = xLedTaskHandle w /\
  xBuzzerTaskHandle w' = xBuzzerTaskHandle w /\
  xOledTaskHandle w' = xOledTaskHandle w.

(** Calls that neither query a run-state nor touch the display, and calls
    that neither suspend nor resume. *)
Definition not_reporting (c : call) : Prop :=
  is_query c = false /\ is_render c = false.

Definition not_toggling (c : call) : Prop := is_toggle c = false.

Definition is_clear (c : call) : bool :=
  match c with call_ssd1306_clear => true | _ => false end.

(** What holds of the system in every state it can reach from [main]. *)
Definition system_ok (s : System) : Prop :=
  flags_agree (button_state s) (world s) /\
  xOledTaskHandle (world s) = Some OLED_Task /\
  0 <= current_color_index (led_state s) < NUM_COLORS /\
  Forall (fun e : event => is_toggle e.2 = true -> e.1.2 = Button_Task) (trace s) /\
  Forall (fun e : event => draws_null_label e.2 = false) (trace s) /\
  count_calls is_query (map snd (trace s))
  = (2 * count_calls is_clear (map snd (trace s)))%nat.

(** Evaluating the channel of a known index, and looking pins up in
    updated levels. *)
Ltac channels :=
  repeat match goal with
         | |- context [channel ?e] =>
             let v := eval vm_compute in (channel e) in
             change (channel e) with v
         | H : context [channel ?e] |- _ =>
             let v := eval vm_compute in (channel e) in
             change (channel e) with v in H
         end.

Ltac pins :=
  repeat first [rewrite lookup_insert_eq
               | rewrite lookup_insert_ne by (intros ?; discriminate)].

(** ** Observations on [main], on the peripherals and on suspension *)

Definition is_create (c : call) : bool :=
  match c with call_xTaskCreate _ _ _ _ => true | _ => false end.

Definition is_start (c : call) : bool :=
  match c with call_vTaskStartScheduler => true | _ => false end.

(** What [main] leaves in the handle of task [t]. *)
Definition handle_after (heap_ok : task -> bool) (t : task) : TaskHandle_t :=
  if heap_ok t then Some t else None.

(** A heap with room for every task but the buzzer's. *)
Definition no_room_for_buzzer : task -> bool :=
  fun t => negb (bool_decide (t = Buzzer_Task)).

(** Two worlds agree on what [f] reads. *)
Definition agree_on {A} (f : World -> A) (w w' : World) : Prop := f w' = f w.

(** For each task, the parts of the world that belong to others. *)
Definition led_frame (w : World) :=
  (pwm_level w, display_buffer w, display_panel w, gpio_in w).
Definition buzzer_frame (w : World) :=
  (gpio_out w, display_buffer w, display_panel w, gpio_in w).
Definition button_frame (w : World) :=
  (gpio_out w, pwm_level w, display_buffer w, display_panel w, gpio_in w).
Definition oled_frame (w : World) :=
  (gpio_out w, pwm_level w, gpio_in w).

(** The calls each task makes. *)
Definition owns (t : task) (c : call) : Prop :=
  match t, c with
  | LED_Task, call_gpio_init pin => pin ∈ LED_PINS
  | LED_Task, call_gpio_set_dir pin out => pin ∈ LED_PINS /\ out = true
  | LED_Task, call_gpio_put pin _ => pin ∈ LED_PINS
  | LED_Task, call_vTaskDelay n => n = 500
  | Buzzer_Task, call_pwm_set_gpio_level pin level =>
      pin = BUZZER_A_PIN /\ (level = 0 \/ level = 2048)
  | Buzzer_Task, call_vTaskDelay n => n = 100 \/ n = 900
  | Button_Task, call_gpio_init pin => pin = BUTTON_A_PIN \/ pin = BUTTON_B_PIN
  | Button_Task, call_gpio_set_dir pin out =>
      (pin = BUTTON_A_PIN \/ pin = BUTTON_B_PIN) /\ out = false
  | Button_Task, call_gpio_pull_up pin => pin = BUTTON_A_PIN \/ pin = BUTTON_B_PIN
  | Button_Task, call_gpio_get pin _ => pin = BUTTON_A_PIN \/ pin = BUTTON_B_PIN
  | Button_Task, call_vTaskSuspend _ => True
  | Button_Task, call_vTaskResume _ => True
  | Button_Task, call_printf _ => True
  | Button_Task, call_vTaskDelay n => n = 100
  | OLED_Task, call_eTaskGetState _ _ => True
  | OLED_Task, call_ssd1306_clear => True
  | OLED_Task, call_ssd1306_draw_string x y scale _ =>
      x = 0 /\ (y = 0 \/ y = 10) /\ scale = 1
  | OLED_Task, call_ssd1306_show => True
  | OLED_Task, call_printf _ => True
  | OLED_Task, call_vTaskDelay n => n = 10 \/ n = 250
  | _, _ => False
  end.



(** A step that does not change the level of pin [gpio]. *)
Definition leaves_pin (gpio : Z) (l : label) : Prop :=
  match l with
  | Input g _ => g <> gpio
  | _ => True
  end.

Global Instance leaves_pin_dec gpio l : Decision (leaves_pin gpio l).
Proof. destruct l; cbn; apply _. Defined.

(** The duty that goes with each half of the buzzer's loop: the half that
    comes next is the off half exactly while the buzzer sounds. *)
Definition buzzer_level (p : buzzer_phase) : Z :=
  match p with
  | BuzzerOn => 0
  | BuzzerOff => 2048
  end.

(** The frames the panel can show. *)
Definition boot_frame : list text_line := [(0, 0, 1, "Display Init...")].

Definition status_frame (led buzzer : RunState) : list text_line :=
  [(0, 0, 1, status_line "Task LED: " "LED: " led);
   (0, 10, 1, status_line "Task Buzz: " "Buzzer: " buzzer)].

(** The panel holds the start-up message until [oled_task] has made its
    first report, and a complete status frame from then on. *)
Definition panel_ok (s : System) : Prop :=
  match oled_state s with
  | OledWaiting => display_panel (world s) = boot_frame
  | OledReporting =>
      exists led buzzer,
        (led = Running \/ led = Suspended) /\
        (buzzer = Running \/ buzzer = Suspended) /\
        display_panel (world s) = status_frame led buzzer
  end.

(** No tick has passed between [w] and [w'], and every task of [w] is
    still a task of [w']. *)
Definition keeps_tasks (w w' : World) : Prop :=
  xTickCount w' = xTickCount w /\
  forall t, is_Some (tcbs w !! t) -> is_Some (tcbs w' !! t).

(** A call that suspends or resumes does so on the handle of one of the
    two monitored tasks. *)
Definition toggles_monitored (c : call) : Prop :=
  match c with
  | call_vTaskSuspend h | call_vTaskResume h =>
      h = Some LED_Task \/ h = Some Buzzer_Task
  | _ => True
  end.

(** The registry holds the handles of the two monitored tasks and the
    Control Task is not suspended. *)
Definition control_ok (w : World) : Prop :=
  xLedTaskHandle w = Some LED_Task /\
  xBuzzerTaskHandle w = Some Buzzer_Task /\
  run_state (Some Button_Task) w = Running.

(** The calls of a segment, however it ends. *)
Definition calls_of {A} (r : result A) : option (list call) :=
  match r with
  | Done _ _ cs | Stalled _ cs => Some cs
  | Fault => None
  end.

(** [maintains I P m]: started in a world that satisfies [I], [m] ends in
    such a world, and each of its calls satisfies [P]. *)
Definition maintains (I : World -> Prop) (P : call -> Prop) {A} (m : M A) : Prop :=
  forall self w,
    I w ->
    match m self w with
    | Done _ w' cs | Stalled w' cs => I w' /\ Forall P cs
    | Fault => True
    end.

Global Instance label_eq_dec : EqDecision label.
Proof. solve_decision. Defined.

(** The system after the first round of the ideal scheduler, and after a
    stretch in which only [button_task] and [buzzer_task] run. *)
Definition after_first_round : System :=
  default (start started_world) (run ideal_round (start started_world)).

Definition buttons_and_buzzer : list label :=
  [Input BUTTON_A_PIN false; Run Button_Task; Run Buzzer_Task; Tick].

Definition after_buttons_and_buzzer : System :=
  default (start started_world) (run buttons_and_buzzer (start started_world)).

(** A press of button A that is still held has suspended the LED task;
    likewise button B and the buzzer task, caught while it sounds. *)
Definition press_A_and_hold : list label :=
  [Run LED_Task; Input BUTTON_A_PIN false; Run Button_Task].






(** ** Passes, action by action

    [step] runs the code between two delays as one step.  The scheduler
    of the program is preemptive: between any two actions of a task
    another task may run, and the Control Task, which has the higher
    priority, may suspend a task in the middle of its pass.  A [proc] is
    the rest of a pass as the sequence of its actions: an action that
    returns at once ([Act]: an SDK or driver call, a kernel query, a read
    of a global or of an array), or a kernel call that may take the caller
    off the processor ([Block]: [vTaskDelay], [vTaskSuspend]), after which
    the pass goes on when the task runs again. *)
Inductive proc (A : Type) : Type :=
| Finish (a : A)
| Act {B : Type} (m : M B) (k : B -> proc A)
| Block (m : M unit) (p : proc A).
Arguments Finish {A} a.
Arguments Act {A B} m k.
Arguments Block {A} m p.

Fixpoint pbind {A B} (p : proc A) (f : A -> proc B) : proc B :=
  match p with
  | Finish a => f a
  | Act m k => Act m (fun b => pbind (k b) f)
  | Block m p' => Block m (pbind p' f)
  end.

Definition act {B} (m : M B) : proc B := Act m Finish.
Definition blocking (m : M unit) : proc unit := Block m (Finish tt).

Declare Scope proc_scope.
Delimit Scope proc_scope with proc.
Notation "'let+' x := p 'in' q" := (pbind p (fun x => q))
  (at level 10, x name, p at level 100, q at level 200) : proc_scope.
Notation "p >+> q" := (pbind p (fun _ => q))
  (at level 62, right associativity) : proc_scope.
Local Open Scope proc_scope.

Fixpoint pfor_each (indices : list Z) (body : Z -> proc unit) : proc unit :=
  match indices with
  | [] => Finish tt
  | i :: rest => body i >+> pfor_each rest body
  end.

(** A pass run from its first action to its last without interruption. *)
Fixpoint to_M {A} (p : proc A) : M A :=
  match p with
  | Finish a => ret a
  | Act m k => bind m (fun b => to_M (k b))
  | Block m p' => bind m (fun _ => to_M p')
  end.

(** Two computations that do the same in every world. *)
Definition same_M {A} (m m' : M A) : Prop := forall self w, m self w = m' self w.

(** *** The four tasks, action by action *)

Definition led_task_init_steps : proc unit :=
  pfor_each (seqZ 0 NUM_COLORS) (fun i =>
    let+ pin := act (array_get LED_PINS i) in
    act (gpio_init pin) >+>
    act (gpio_set_dir pin true) >+>
    act (gpio_put pin false)).

Definition led_task_loop_steps (current_color_index : Z) : proc Z :=
  let+ pin := act (array_get LED_PINS current_color_index) in
  act (gpio_put pin false) >+>
  let current_color_index :=
    ((current_color_index + 1) mod UINT_MODULUS) mod NUM_COLORS in
  let+ pin := act (array_get LED_PINS current_color_index) in
  act (gpio_put pin true) >+>
  blocking (vTaskDelay (pdMS_TO_TICKS 500)) >+>
  Finish current_color_index.

Definition led_task_steps (l : led_locals) : proc led_locals :=
  let+ i :=
    if led_started l then led_task_loop_steps (current_color_index l)
    else led_task_init_steps >+> led_task_loop_steps 0 in
  Finish (mkLed true i).

Definition buzzer_task_steps (p : buzzer_phase) : proc buzzer_phase :=
  match p with
  | BuzzerOn =>
      act (pwm_set_gpio_level BUZZER_A_PIN 2048) >+>
      blocking (vTaskDelay (pdMS_TO_TICKS 100)) >+>
      Finish BuzzerOff
  | BuzzerOff =>
      act (pwm_set_gpio_level BUZZER_A_PIN 0) >+>
      blocking (vTaskDelay (pdMS_TO_TICKS 900)) >+>
      Finish BuzzerOn
  end.

Definition button_task_init_steps : proc unit :=
  act (gpio_init BUTTON_A_PIN) >+>
  act (gpio_set_dir BUTTON_A_PIN false) >+>
  act (gpio_pull_up BUTTON_A_PIN) >+>
  act (gpio_init BUTTON_B_PIN) >+>
  act (gpio_set_dir BUTTON_B_PIN false) >+>
  act (gpio_pull_up BUTTON_B_PIN).

Definition button_task_loop_steps (l : button_locals) : proc button_locals :=
  (* button A *)
  let+ level_a := act (gpio_get BUTTON_A_PIN) in
  let button_a_currently_pressed := negb level_a in
  let+ led_task_suspended :=
    if button_a_currently_pressed && negb (button_a_pressed_previously l) then
      if led_task_suspended l then
        let+ h := act (read xLedTaskHandle) in
        act (vTaskResume h) >+>
        act (printf ("Tarefa LED Retomada" +:+ newline)) >+>
        Finish false
      else
        let+ h := act (read xLedTaskHandle) in
        blocking (vTaskSuspend h) >+>
        act (printf ("Tarefa LED Suspensa" +:+ newline)) >+>
        Finish true
    else Finish (led_task_suspended l) in
  let button_a_pressed_previously := button_a_currently_pressed in
  (* button B *)
  let+ level_b := act (gpio_get BUTTON_B_PIN) in
  let button_b_currently_pressed := negb level_b in
  let+ buzzer_task_suspended :=
    if button_b_currently_pressed && negb (button_b_pressed_previously l) then
      if buzzer_task_suspended l then
        let+ h := act (read xBuzzerTaskHandle) in
        act (vTaskResume h) >+>
        act (printf ("Tarefa Buzzer Retomada" +:+ newline)) >+>
        Finish false
      else
        let+ h := act (read xBuzzerTaskHandle) in
        blocking (vTaskSuspend h) >+>
        act (printf ("Tarefa Buzzer Suspensa" +:+ newline)) >+>
        Finish true
    else Finish (buzzer_task_suspended l) in
  let button_b_pressed_previously := button_b_currently_pressed in
  blocking (vTaskDelay (pdMS_TO_TICKS 100)) >+>
  Finish (mkButton true button_a_pressed_previously button_b_pressed_previously
                   led_task_suspended buzzer_task_suspended).

Definition button_task_steps (l : button_locals) : proc button_locals :=
  if button_started l then button_task_loop_steps l
  else button_task_init_steps >+> button_task_loop_steps l.

Definition query_state_steps (handle : World -> TaskHandle_t) : proc eTaskState :=
  let+ h := act (read handle) in
  if decide (h <> None) then act (eTaskGetState h) else Finish eInvalid.

Definition oled_task_loop_steps : proc unit :=
  let+ led_state := query_state_steps xLedTaskHandle in
  let+ buzzer_state := query_state_steps xBuzzerTaskHandle in
  act ssd1306_clear >+>
  let+ led_status_str :=
    act (sprintf 25 (status_text "Task LED: " "LED: Handle Nulo" led_state)) in
  act (ssd1306_draw_string 0 0 1 led_status_str) >+>
  let+ buzzer_status_str :=
    act (sprintf 25 (status_text "Task Buzz: " "Buzzer: Handle Nulo"
                                 buzzer_state)) in
  act (ssd1306_draw_string 0 10 1 buzzer_status_str) >+>
  act ssd1306_show >+>
  blocking (vTaskDelay (pdMS_TO_TICKS 250)).

Definition oled_task_steps (p : oled_phase) : proc oled_phase :=
  match p with
  | OledWaiting =>
      let+ led := act (read xLedTaskHandle) in
      let+ buz := act (read xBuzzerTaskHandle) in
      if bool_decide (led = None) || bool_decide (buz = None) then
        blocking (vTaskDelay (pdMS_TO_TICKS 10)) >+>
        Finish OledWaiting
      else
        act (printf ("Tarefa OLED Iniciada" +:+ newline)) >+>
        oled_task_loop_steps >+>
        Finish OledReporting
  | OledReporting =>
      oled_task_loop_steps >+>
      Finish OledReporting
  end.

(** *** The machine

    Each task has a thread: the rest of its pass, or [Finish] with its
    locals when it stands between two passes. *)
Record Machine : Type := mkMachine {
  m_world : World;
  led_thread : proc led_locals;
  buzzer_thread : proc buzzer_phase;
  button_thread : proc button_locals;
  oled_thread : proc oled_phase;
  m_trace : list event
}.

Definition mstart (w : World) : Machine :=
  mkMachine w (Finish led_entry) (Finish buzzer_entry) (Finish button_entry)
            (Finish oled_entry) [].

(** The thread a task goes on with: a task between two passes starts the
    next one. *)
Definition resume {A} (again : A -> proc A) (p : proc A) : proc A :=
  match p with
  | Finish a => again a
  | _ => p
  end.

(** The next action of task [t].  A call that takes the caller off the
    processor leaves the thread after the call; an action that returns at
    once always returns; leaving defined behaviour ends the run. *)
Definition run_act {A} (t : task) (again : A -> proc A) (p : proc A) (w : World)
    : option (proc A * World * list call) :=
  match resume again p with
  | Finish a => Some (Finish a, w, [])
  | Act m k =>
      match m (Some t) w with
      | Done b w' cs => Some (k b, w', cs)
      | _ => None
      end
  | Block m p' =>
      match m (Some t) w with
      | Done _ w' cs | Stalled w' cs => Some (p', w', cs)
      | Fault => None
      end
  end.

Definition m_with_world (w : World) (s : Machine) : Machine :=
  mkMachine w (led_thread s) (buzzer_thread s) (button_thread s)
            (oled_thread s) (m_trace s).

Definition run_thread (t : task) (s : Machine) : option Machine :=
  let w := m_world s in
  let tr cs := m_trace s ++ stamp t w cs in
  match t with
  | LED_Task =>
      '(p, w', cs) ← run_act LED_Task led_task_steps (led_thread s) w;
      Some (mkMachine w' p (buzzer_thread s) (button_thread s) (oled_thread s)
                      (tr cs))
  | Buzzer_Task =>
      '(p, w', cs) ← run_act Buzzer_Task buzzer_task_steps (buzzer_thread s) w;
      Some (mkMachine w' (led_thread s) p (button_thread s) (oled_thread s)
                      (tr cs))
  | Button_Task =>
      '(p, w', cs) ← run_act Button_Task button_task_steps (button_thread s) w;
      Some (mkMachine w' (led_thread s) (buzzer_thread s) p (oled_thread s)
                      (tr cs))
  | OLED_Task =>
      '(p, w', cs) ← run_act OLED_Task oled_task_steps (oled_thread s) w;
      Some (mkMachine w' (led_thread s) (buzzer_thread s) (button_thread s) p
                      (tr cs))
  end.

(** One step of the machine: the tick interrupt, a change of level on an
    input pin, or one action of a ready task.  Any task that is ready may
    be the one that runs, so a schedule may interleave the passes in any
    way a preemptive scheduler can. *)
Definition mstep (l : label) (s : Machine) : option Machine :=
  match l with
  | Tick => Some (m_with_world (tick (m_world s)) s)
  | Input gpio level =>
      Some (m_with_world (with_gpio_in (insert gpio level) (m_world s)) s)
  | Run t => if ready t (m_world s) then run_thread t s else Some s
  end.

Fixpoint mrun (schedule : list label) (s : Machine) : option Machine :=
  match schedule with
  | [] => Some s
  | l :: rest =>
      match mstep l s with
      | Some s' => mrun rest s'
      | None => None
      end
  end.

(** The machine after [main], with the output pins at the levels [g0]
    they happen to have when the scheduler starts. *)
Definition mboot (display_ok : bool) (heap_ok : task -> bool)
    (g0 : gmap Z bool) : option Machine :=
  match main display_ok heap_ok None power_on with
  | Done _ w _ => Some (mstart (with_gpio_out (fun _ => g0) w))
  | _ => None
  end.

(** *** Observations on the machine *)

(** The levels of the three LED pins. *)
Definition led_levels (g : gmap Z bool) : list (option bool) :=
  map (fun pin => g !! pin) LED_PINS.

Definition set_level (pin : Z) (value : bool) (v : list (option bool))
    : list (option bool) :=
  zip_with (fun p x => if decide (p = pin) then Some value else x) LED_PINS v.

Definition lit (v : list (option bool)) : nat :=
  length (filter (fun x => x = Some true) v).

(** The levels with exactly channel [i] on. *)
Definition one_hot (i : Z) : list (option bool) :=
  map (fun pin => Some (bool_decide (pin = channel i))) LED_PINS.

(** The call that ends the set-up loop of [led_task]: the last pin driven
    low. *)
Definition ends_set_up (c : call) : bool :=
  bool_decide (c = call_gpio_put (channel (NUM_COLORS - 1)) false).

Definition led_set_up (tr : list event) : bool :=
  existsb (fun e : event => bool_decide (e.1.2 = LED_Task) && ends_set_up e.2) tr.

(** The longest pass of the program, in actions: the first pass of
    [led_task]. *)
Definition longest_pass : nat := 17.

(** *** Invariants of threads *)

(** What the actions of the tasks rely on: the registry holds the handles
    of the two monitored tasks, and both tasks exist. *)
Definition live (w : World) : Prop :=
  xLedTaskHandle w = Some LED_Task /\ xBuzzerTaskHandle w = Some Buzzer_Task /\
  is_Some (tcbs w !! LED_Task) /\ is_Some (tcbs w !! Buzzer_Task).

(** What an action of task [t] leaves as it is: the registry, the tick
    count, the existence of every task and, unless [t] is the LED task,
    the output pins. *)
Definition kept (t : task) (w w' : World) : Prop :=
  same_registry w w' /\ keeps_tasks w w' /\
  (t <> LED_Task -> gpio_out w' = gpio_out w).

Definition is_delay (cs : list call) : Prop :=
  exists d, 0 < d /\ cs = [call_vTaskDelay d].

(** A thread between two passes, with locals that satisfy [F]. *)
Definition rests {A} (F : A -> Prop) (p : proc A) : Prop :=
  match p with
  | Finish a => F a
  | _ => False
  end.

(** [sound t F n p]: thread [p] of task [t] is in the middle of a pass
    and, run in any live world, reaches the [vTaskDelay] that ends the
    pass within [n] actions.  None of these actions leaves defined
    behaviour, each keeps what [kept] says, none but that [vTaskDelay], of
    at least one tick, takes [t] off the processor, and after it the
    thread rests with locals that satisfy [F]. *)
Fixpoint sound {A} (t : task) (F : A -> Prop) (n : nat) (p : proc A)
    {struct p} : Prop :=
  match p with
  | Finish a => False
  | Act m k =>
      match n with
      | O => False
      | S n' =>
          forall w, live w -> ready t w = true ->
            match m (Some t) w with
            | Done b w' cs =>
                kept t w w' /\ ready t w' = true /\ sound t F n' (k b)
            | _ => False
            end
      end
  | Block m p' =>
      match n with
      | O => False
      | S n' =>
          forall w, live w -> ready t w = true ->
            match m (Some t) w with
            | Done _ w' cs | Stalled w' cs =>
                kept t w w' /\
                if ready t w' then sound t F n' p'
                else is_delay cs /\ rests F p'
            | Fault => False
            end
      end
  end.

(** A thread rests or is in the middle of a pass no longer than the
    longest. *)
Definition thread_ok {A} (t : task) (F : A -> Prop) (p : proc A) : Prop :=
  rests F p \/ exists n, (n <= longest_pass)%nat /\ sound t F n p.

Definition led_index_ok (l : led_locals) : Prop :=
  0 <= current_color_index l < NUM_COLORS.

(** [led_sound p v up]: with the LED pins at the levels [v], and [up]
    saying whether the set-up loop has ended, the rest [p] of the pass of
    [led_task] never has more than one LED on once the set-up has ended,
    and ends its pass with the set-up done and exactly the LED of its
    index on. *)
Fixpoint led_sound (p : proc led_locals) (v : list (option bool)) (up : bool)
    : Prop :=
  match p with
  | Finish l =>
      if led_started l
      then up = true /\ led_index_ok l /\ v = one_hot (current_color_index l)
      else up = false
  | Act m k =>
      (up = true -> (lit v <= 1)%nat) /\
      forall w, led_levels (gpio_out w) = v ->
        match m (Some LED_Task) w with
        | Done b w' cs =>
            led_sound (k b) (led_levels (gpio_out w')) (up || existsb ends_set_up cs)
        | _ => False
        end
  | Block m p' =>
      (up = true -> (lit v <= 1)%nat) /\
      forall w, led_levels (gpio_out w) = v ->
        match m (Some LED_Task) w with
        | Done _ w' cs | Stalled w' cs =>
            led_sound p' (led_levels (gpio_out w')) (up || existsb ends_set_up cs)
        | Fault => False
        end
  end.

(** The thread with which task [t] goes on reaches its delay within [n]
    actions. *)
Definition thread_sound (t : task) (n : nat) (s : Machine) : Prop :=
  match t with
  | LED_Task =>
      sound LED_Task led_index_ok n (resume led_task_steps (led_thread s))
  | Buzzer_Task =>
      sound Buzzer_Task (fun _ => True) n
            (resume buzzer_task_steps (buzzer_thread s))
  | Button_Task =>
      sound Button_Task (fun _ => True) n
            (resume button_task_steps (button_thread s))
  | OLED_Task =>
      sound OLED_Task (fun _ => True) n (resume oled_task_steps (oled_thread s))
  end.

(** Whether a thread stands between two passes. *)
Definition at_rest {A} (p : proc A) : bool :=
  match p with
  | Finish _ => true
  | _ => false
  end.

(** The invariant of the machine. *)
Definition machine_ok (s : Machine) : Prop :=
  live (m_world s) /\
  thread_ok LED_Task led_index_ok (led_thread s) /\
  thread_ok Buzzer_Task (fun _ => True) (buzzer_thread s) /\
  thread_ok Button_Task (fun _ => True) (button_thread s) /\
  thread_ok OLED_Task (fun _ => True) (oled_thread s) /\
  led_sound (led_thread s) (led_levels (gpio_out (m_world s)))
            (led_set_up (m_trace s)).

(** Output levels with two LEDs on, and a schedule in which the LED task
    is suspended in the middle of its second pass, between the write that
    turns one colour off and the write that turns the next one on. *)
Definition two_leds_on : gmap Z bool :=
  <[LED_R_PIN := true]> (<[LED_G_PIN := true]> ∅).

Definition suspended_between_writes : list label :=
  repeat (Run LED_Task) 17 ++ repeat Tick 500 ++
  [Run LED_Task; Run LED_Task; Input BUTTON_A_PIN false] ++
  repeat (Run Button_Task) 10 ++ [Run LED_Task; Run LED_Task].

(** * Properties *)

Section Returns.
Context {A B : Type}.

Lemma returns_ret (a : A) self w (Q : A -> World -> list call -> Prop) :
  Q a w [] -> returns (ret a) self w Q.
Proof. intros H. exact H. Qed.

Lemma returns_bind (m : M A) (f : A -> M B) self w
    (Q : B -> World -> list call -> Prop) :
  returns m self w (fun a w1 cs1 =>
    returns (f a) self w1 (fun b w2 cs2 => Q b w2 (cs1 ++ cs2))) ->
  returns (bind m f) self w Q.
Proof.
  unfold returns, bind. destruct (m self w) as [a w1 cs1| |]; try tauto.
  destruct (f a self w1); tauto.
Qed.

Lemma returns_weaken (m : M A) self w (P Q : A -> World -> list call -> Prop) :
  returns m self w P -> (forall a w' cs, P a w' cs -> Q a w' cs) ->
  returns m self w Q.
Proof.
  unfold returns. destruct (m self w); auto.
Qed.

Lemma returns_Done (m : M A) self w (Q : A -> World -> list call -> Prop) :
  returns m self w Q -> exists a w' cs, m self w = Done a w' cs /\ Q a w' cs.
Proof.
  unfold returns. destruct (m self w) as [a w' cs| |]; try tauto. eauto.
Qed.

Lemma Done_returns (m : M A) self w a w' cs (Q : A -> World -> list call -> Prop) :
  m self w = Done a w' cs -> Q a w' cs -> returns m self w Q.
Proof. unfold returns. intros ->. auto. Qed.
End Returns.

Lemma returns_read {A} (f : World -> A) self w (Q : A -> World -> list call -> Prop) :
  Q (f w) w [] -> returns (read f) self w Q.
Proof. intros H. exact H. Qed.

Lemma returns_emit c self w (Q : unit -> World -> list call -> Prop) :
  Q tt w [c] -> returns (emit c) self w Q.
Proof. intros H. exact H. Qed.

Lemma returns_printf s self w (Q : unit -> World -> list call -> Prop) :
  Q tt w [call_printf s] -> returns (printf s) self w Q.
Proof. intros H. exact H. Qed.

Lemma returns_gpio_get pin self w (Q : bool -> World -> list call -> Prop) :
  Q (input_level pin w) w [call_gpio_get pin (input_level pin w)] ->
  returns (gpio_get pin) self w Q.
Proof. intros H. exact H. Qed.

Lemma returns_gpio_put pin v self w (Q : unit -> World -> list call -> Prop) :
  Q tt (with_gpio_out (insert pin v) w) [call_gpio_put pin v] ->
  returns (gpio_put pin v) self w Q.
Proof. intros H. exact H. Qed.

Lemma returns_pwm pin v self w (Q : unit -> World -> list call -> Prop) :
  Q tt (with_pwm (insert pin v) w) [call_pwm_set_gpio_level pin v] ->
  returns (pwm_set_gpio_level pin v) self w Q.
Proof. intros H. exact H. Qed.

Lemma returns_vTaskDelay ticks t w (Q : unit -> World -> list call -> Prop) :
  0 < ticks ->
  Q tt (blocked_for t ticks w) [call_vTaskDelay ticks] ->
  returns (vTaskDelay ticks) (Some t) w Q.
Proof.
  intros Hpos H. unfold returns, vTaskDelay. cbn.
  destruct (Z.ltb_spec 0 ticks); [exact H | lia].
Qed.

Lemma returns_vTaskSuspend t self b w (Q : unit -> World -> list call -> Prop) :
  tcbs w !! t = Some b -> self <> Some t ->
  Q tt (with_tcbs (alter (set_state eSuspended) t) w) [call_vTaskSuspend (Some t)] ->
  returns (vTaskSuspend (Some t)) self w Q.
Proof.
  intros Hb Hne H. unfold returns, vTaskSuspend. cbn.
  unfold state_of. rewrite Hb. cbn.
  destruct (decide (self = Some t)); [contradiction | exact H].
Qed.

Lemma returns_vTaskResume t self b w (Q : unit -> World -> list call -> Prop) :
  tcbs w !! t = Some b -> self <> Some t ->
  Q tt (if bool_decide (eCurrentState b = eSuspended)
        then with_tcbs (alter (set_state eReady) t) w else w)
       [call_vTaskResume (Some t)] ->
  returns (vTaskResume (Some t)) self w Q.
Proof.
  intros Hb Hne H. unfold returns, vTaskResume. cbn.
  unfold state_of. rewrite Hb. cbn.
  destruct (eCurrentState b); cbn in *; try exact H.
  destruct (decide (self = Some t)); [contradiction | exact H].
Qed.

Lemma returns_eTaskGetState t self b w (Q : eTaskState -> World -> list call -> Prop) :
  tcbs w !! t = Some b -> self <> Some t ->
  Q (eCurrentState b) w [call_eTaskGetState (Some t) (eCurrentState b)] ->
  returns (eTaskGetState (Some t)) self w Q.
Proof.
  intros Hb Hne H. unfold returns, eTaskGetState. cbn.
  unfold state_of. rewrite Hb. cbn.
  destruct (decide (self = Some t)); [contradiction | exact H].
Qed.

(** ** Facts about worlds *)

Lemma state_of_alter_eq t f w :
  state_of t (with_tcbs (alter f t) w)
  = (fun b => eCurrentState (f b)) <$> tcbs w !! t.
Proof.
  unfold state_of. cbn. rewrite lookup_alter_eq.
  destruct (tcbs w !! t); reflexivity.
Qed.

Lemma state_of_alter_ne t t' f w :
  t <> t' -> state_of t (with_tcbs (alter f t') w) = state_of t w.
Proof.
  intros Hne. unfold state_of. cbn.
  rewrite lookup_alter_ne; [reflexivity | congruence].
Qed.

Lemma run_state_alter_ne t t' f w :
  t <> t' ->
  run_state (Some t) (with_tcbs (alter f t') w) = run_state (Some t) w.
Proof. intros H. unfold run_state. by rewrite state_of_alter_ne. Qed.

Lemma run_state_blocked_ne t t' n w :
  t <> t' -> run_state (Some t) (blocked_for t' n w) = run_state (Some t) w.
Proof. apply run_state_alter_ne. Qed.

Lemma run_state_known t w :
  run_state (Some t) w <> Unknown -> exists b, tcbs w !! t = Some b.
Proof.
  unfold run_state, state_of. destruct (tcbs w !! t) as [b|]; cbn; [eauto | done].
Qed.

Lemma run_state_tcb t b w :
  tcbs w !! t = Some b -> run_state (Some t) w = RunState_of (eCurrentState b).
Proof. intros H. unfold run_state, state_of. by rewrite H. Qed.

Lemma run_state_suspend t b w :
  tcbs w !! t = Some b ->
  run_state (Some t) (with_tcbs (alter (set_state eSuspended) t) w) = Suspended.
Proof.
  intros H. unfold run_state. by rewrite state_of_alter_eq, H.
Qed.

Lemma run_state_resume t b w :
  tcbs w !! t = Some b ->
  run_state (Some t) (with_tcbs (alter (set_state eReady) t) w) = Running.
Proof.
  intros H. unfold run_state. by rewrite state_of_alter_eq, H.
Qed.

Lemma RunState_of_suspended st : RunState_of st = Suspended -> st = eSuspended.
Proof. destruct st; cbn; congruence. Qed.

Lemma flag_state_known b : flag_state b <> Unknown.
Proof. destruct b; discriminate. Qed.

Lemma input_level_A levels w :
  input_level BUTTON_A_PIN (set_levels levels w) = levels.1.
Proof.
  unfold input_level, set_levels. cbn.
  rewrite lookup_insert_ne by done. by rewrite lookup_insert_eq.
Qed.

Lemma input_level_B levels w :
  input_level BUTTON_B_PIN (set_levels levels w) = levels.2.
Proof.
  unfold input_level, set_levels. cbn. by rewrite lookup_insert_eq.
Qed.

Lemma count_calls_app p cs1 cs2 :
  count_calls p (cs1 ++ cs2) = (count_calls p cs1 + count_calls p cs2)%nat.
Proof.
  induction cs1 as [|c cs1 IH]; cbn; [reflexivity |]. rewrite IH. lia.
Qed.

Lemma toggles_of_app h cs1 cs2 :
  toggles_of h (cs1 ++ cs2) = (toggles_of h cs1 + toggles_of h cs2)%nat.
Proof. apply count_calls_app. Qed.

(** ** [button_task] *)

(** One pass of the loop with the flags in agreement: each flag and each
    run-state is flipped exactly when its button shows a rising edge, by
    exactly one suspend or resume call. *)
Lemma button_task_loop_returns l w :
  flags_agree l w ->
  let edge_a := negb (input_level BUTTON_A_PIN w)
                && negb (button_a_pressed_previously l) in
  let edge_b := negb (input_level BUTTON_B_PIN w)
                && negb (button_b_pressed_previously l) in
  returns (button_task_loop l) (Some Button_Task) w (fun l' w' cs =>
    flags_agree l' w' /\
    l' = mkButton true (negb (input_level BUTTON_A_PIN w))
                  (negb (input_level BUTTON_B_PIN w))
                  (xorb (led_task_suspended l) edge_a)
                  (xorb (buzzer_task_suspended l) edge_b) /\
    toggles_of (Some LED_Task) cs = once_if edge_a /\
    toggles_of (Some Buzzer_Task) cs = once_if edge_b).
Proof.
  intros (HL & HB & Hfl & Hfb) edge_a edge_b.
  destruct (run_state_known LED_Task w) as [bl Hl];
    [rewrite Hfl; apply flag_state_known |].
  destruct (run_state_known Buzzer_Task w) as [bb Hb];
    [rewrite Hfb; apply flag_state_known |].
  unfold button_task_loop.
  apply returns_bind, returns_gpio_get.
  apply returns_bind.
  eapply returns_weaken with (P := fun fa w1 cs1 =>
     flags_agree (mkButton true false false fa (buzzer_task_suspended l)) w1 /\
     fa = xorb (led_task_suspended l) edge_a /\
     input_level BUTTON_B_PIN w1 = input_level BUTTON_B_PIN w /\
     toggles_of (Some LED_Task) cs1 = once_if edge_a /\
     toggles_of (Some Buzzer_Task) cs1 = 0%nat).
  { subst edge_a edge_b.
    destruct (negb (input_level BUTTON_A_PIN w)),
             (button_a_pressed_previously l); cbn [andb negb];
      try (apply returns_ret; rewrite xorb_false_r; repeat split; eauto; done).
    destruct (led_task_suspended l) eqn:Hflag.
    - apply returns_bind, returns_read. rewrite HL.
      apply returns_bind. eapply returns_vTaskResume; [exact Hl | done |].
      apply returns_bind, returns_printf, returns_ret.
      rewrite (run_state_tcb _ _ _ Hl) in Hfl.
      apply RunState_of_suspended in Hfl. rewrite Hfl, bool_decide_eq_true_2 by reflexivity.
      split; [split; [exact HL | split; [exact HB | split]] | done].
      + eapply run_state_resume; eauto.
      + rewrite run_state_alter_ne by done. exact Hfb.
    - apply returns_bind, returns_read. rewrite HL.
      apply returns_bind. eapply returns_vTaskSuspend; [exact Hl | done |].
      apply returns_bind, returns_printf, returns_ret.
      split; [split; [exact HL | split; [exact HB | split]] | done].
      + eapply run_state_suspend; eauto.
      + rewrite run_state_alter_ne by done. exact Hfb. }
  intros fa w1 cs1 ((HL1 & HB1 & Hfl1 & Hfb1) & Hfa & Hin & Hta & Htb).
  cbn [led_task_suspended buzzer_task_suspended] in Hfl1, Hfb1.
  destruct (run_state_known Buzzer_Task w1) as [bb1 Hb1];
    [rewrite Hfb1; apply flag_state_known |].
  apply returns_bind, returns_gpio_get. rewrite Hin.
  apply returns_bind.
  eapply returns_weaken with (P := fun fb w2 cs2 =>
     flags_agree (mkButton true false false fa fb) w2 /\
     fb = xorb (buzzer_task_suspended l) edge_b /\
     toggles_of (Some LED_Task) cs2 = 0%nat /\
     toggles_of (Some Buzzer_Task) cs2 = once_if edge_b).
  { subst edge_a edge_b.
    destruct (negb (input_level BUTTON_B_PIN w)),
             (button_b_pressed_previously l); cbn [andb negb];
      try (apply returns_ret; rewrite xorb_false_r; repeat split; eauto; done).
    destruct (buzzer_task_suspended l) eqn:Hflag.
    - apply returns_bind, returns_read. rewrite HB1.
      apply returns_bind. eapply returns_vTaskResume; [exact Hb1 | done |].
      apply returns_bind, returns_printf, returns_ret.
      rewrite (run_state_tcb _ _ _ Hb1) in Hfb1.
      apply RunState_of_suspended in Hfb1. rewrite Hfb1, bool_decide_eq_true_2 by reflexivity.
      split; [split; [exact HL1 | split; [exact HB1 | split]] | done].
      + rewrite run_state_alter_ne by done. exact Hfl1.
      + eapply run_state_resume; eauto.
    - apply returns_bind, returns_read. rewrite HB1.
      apply returns_bind. eapply returns_vTaskSuspend; [exact Hb1 | done |].
      apply returns_bind, returns_printf, returns_ret.
      split; [split; [exact HL1 | split; [exact HB1 | split]] | done].
      + rewrite run_state_alter_ne by done. exact Hfl1.
      + eapply run_state_suspend; eauto. }
  intros fb w2 cs2 ((HL2 & HB2 & Hfl2 & Hfb2) & Hfbv & Hta2 & Htb2).
  cbn [led_task_suspended buzzer_task_suspended] in Hfl2, Hfb2.
  apply returns_bind, returns_vTaskDelay; [done |].
  apply returns_ret.
  split; [| split; [| split]].
  - split; [exact HL2 | split; [exact HB2 | split]];
      cbn [led_task_suspended buzzer_task_suspended].
    + rewrite run_state_blocked_ne by done. exact Hfl2.
    + rewrite run_state_blocked_ne by done. exact Hfb2.
  - congruence.
  - rewrite !toggles_of_app, Hta, Hta2. cbn. lia.
  - rewrite !toggles_of_app, Htb, Htb2. cbn. lia.
Qed.

Lemma button_task_returns l w :
  flags_agree l w ->
  let edge_a := negb (input_level BUTTON_A_PIN w)
                && negb (button_a_pressed_previously l) in
  let edge_b := negb (input_level BUTTON_B_PIN w)
                && negb (button_b_pressed_previously l) in
  returns (button_task l) (Some Button_Task) w (fun l' w' cs =>
    flags_agree l' w' /\
    l' = mkButton true (negb (input_level BUTTON_A_PIN w))
                  (negb (input_level BUTTON_B_PIN w))
                  (xorb (led_task_suspended l) edge_a)
                  (xorb (buzzer_task_suspended l) edge_b) /\
    toggles_of (Some LED_Task) cs = once_if edge_a /\
    toggles_of (Some Buzzer_Task) cs = once_if edge_b).
Proof.
  intros Hagree edge_a edge_b. unfold button_task.
  destruct (button_started l).
  - by apply button_task_loop_returns.
  - apply returns_bind.
    apply (Done_returns _ _ _ tt w
             [call_gpio_init BUTTON_A_PIN; call_gpio_set_dir BUTTON_A_PIN false;
              call_gpio_pull_up BUTTON_A_PIN; call_gpio_init BUTTON_B_PIN;
              call_gpio_set_dir BUTTON_B_PIN false; call_gpio_pull_up BUTTON_B_PIN]);
      [reflexivity |].
    eapply returns_weaken; [by apply button_task_loop_returns |].
    intros l' w' cs (H1 & H2 & H3 & H4). rewrite !toggles_of_app, H3, H4.
    split; [exact H1 | split; [exact H2 | split; reflexivity]].
Qed.

Lemma changed_flag h w w' f e :
  run_state h w = flag_state f ->
  run_state h w' = flag_state (xorb f e) ->
  changed h w w' = e.
Proof.
  intros H1 H2. unfold changed. rewrite H1, H2. destruct f, e; reflexivity.
Qed.

(** One poll at given pin levels. *)
Lemma button_poll_returns levels l w :
  flags_agree l w ->
  let edge_a := negb levels.1 && negb (button_a_pressed_previously l) in
  let edge_b := negb levels.2 && negb (button_b_pressed_previously l) in
  exists l' w' cs,
    button_poll levels l w = Done l' w' cs /\
    flags_agree l' w' /\
    l' = mkButton true (negb levels.1) (negb levels.2)
                  (xorb (led_task_suspended l) edge_a)
                  (xorb (buzzer_task_suspended l) edge_b) /\
    report_of w w' cs = mkReport (once_if edge_a) edge_a (once_if edge_b) edge_b.
Proof.
  intros Hagree edge_a edge_b.
  assert (Hagree' : flags_agree l (set_levels levels w)) by exact Hagree.
  destruct (returns_Done _ _ _ _ (button_task_returns _ _ Hagree'))
    as (l' & w' & cs & Hrun & Hag & Hl' & Hta & Htb).
  rewrite !input_level_A, !input_level_B in Hl'.
  rewrite input_level_A in Hta. rewrite input_level_B in Htb.
  exists l', w', cs. split; [exact Hrun |]. split; [exact Hag |].
  split; [exact Hl' |].
  destruct Hagree as (HL & HB & Hfl & Hfb).
  destruct Hag as (_ & _ & Hfl' & Hfb').
  unfold report_of. rewrite HL, HB, Hta, Htb.
  rewrite Hl' in Hfl', Hfb'. cbn [led_task_suspended buzzer_task_suspended] in Hfl', Hfb'.
  rewrite (changed_flag _ _ _ _ _ Hfl Hfl'), (changed_flag _ _ _ _ _ Hfb Hfb').
  reflexivity.
Qed.

Lemma count_edges_cons previously p rest :
  count_edges previously (p :: rest)
  = (once_if (p && negb previously) + count_edges p rest)%nat.
Proof.
  unfold count_edges. cbn [rising_edges].
  destruct (p && negb previously).
  - rewrite filter_cons_True by reflexivity. reflexivity.
  - rewrite filter_cons_False by discriminate. reflexivity.
Qed.

Lemma xorb_odd_step f e n :
  xorb (xorb f e) (Nat.odd n) = xorb f (Nat.odd (once_if e + n)).
Proof.
  destruct e; cbn [once_if].
  - change (1 + n)%nat with (S n). rewrite Nat.odd_succ, <- Nat.negb_odd.
    destruct f, (Nat.odd n); reflexivity.
  - rewrite xorb_false_r. reflexivity.
Qed.

(** Any sequence of polls, started with the flags in agreement. *)
Lemma button_polls_returns samples : forall l w,
  flags_agree l w ->
  let edges_a := rising_edges (button_a_pressed_previously l)
                              (map (fun levels => negb levels.1) samples) in
  let edges_b := rising_edges (button_b_pressed_previously l)
                              (map (fun levels => negb levels.2) samples) in
  exists reports l' w',
    button_polls samples l w = Some (reports, l', w') /\
    flags_agree l' w' /\
    map led_flipped reports = edges_a /\
    map led_calls reports = map once_if edges_a /\
    map buzzer_flipped reports = edges_b /\
    map buzzer_calls reports = map once_if edges_b /\
    led_task_suspended l'
    = xorb (led_task_suspended l)
           (Nat.odd (count_edges (button_a_pressed_previously l)
                                 (map (fun levels => negb levels.1) samples))) /\
    buzzer_task_suspended l'
    = xorb (buzzer_task_suspended l)
           (Nat.odd (count_edges (button_b_pressed_previously l)
                                 (map (fun levels => negb levels.2) samples))).
Proof.
  induction samples as [|levels rest IH]; intros l w Hagree.
  - exists [], l, w. cbn. rewrite !xorb_false_r.
    repeat split; solve [reflexivity | apply Hagree].
  - destruct (button_poll_returns levels l w Hagree)
      as (l1 & w1 & cs & Hrun & Hag1 & Hl1 & Hrep).
    destruct (IH l1 w1 Hag1)
      as (reports & l' & w' & Hrest & Hag & Ha & Hca & Hb & Hcb & Hfa & Hfb).
    exists (report_of w w1 cs :: reports), l', w'.
    cbn [button_polls]. rewrite Hrun, Hrest.
    rewrite Hl1 in Ha, Hca, Hb, Hcb, Hfa, Hfb.
    cbn [button_a_pressed_previously button_b_pressed_previously
         led_task_suspended buzzer_task_suspended] in Ha, Hca, Hb, Hcb, Hfa, Hfb.
    split; [reflexivity |]. split; [exact Hag |].
    cbn [map rising_edges]. rewrite Hrep. cbn [led_flipped led_calls buzzer_flipped buzzer_calls].
    rewrite Ha, Hca, Hb, Hcb, Hfa, Hfb, !count_edges_cons, !xorb_odd_step.
    repeat split; reflexivity.
Qed.

(** C1. For every sequence of sampled button levels, [button_task] toggles
    the run-state of the task behind each button exactly once per rising
    edge (pressed now, not pressed at the previous sample) and not at all
    on a falling edge or a sustained level, for the two buttons
    independently: poll by poll, the run-state of the LED task changes, by
    exactly one suspend or resume call, precisely at the rising edges of
    button A, and that of the buzzer task precisely at those of button B. *)
Theorem button_task_toggles_once_per_rising_edge :
  forall (samples : list (bool * bool)) (l : button_locals) (w : World),
    flags_agree l w ->
    let edges_a := rising_edges (button_a_pressed_previously l)
                                (map (fun levels => negb levels.1) samples) in
    let edges_b := rising_edges (button_b_pressed_previously l)
                                (map (fun levels => negb levels.2) samples) in
    exists reports l' w',
      button_polls samples l w = Some (reports, l', w') /\
      map led_flipped reports = edges_a /\
      map led_calls reports = map once_if edges_a /\
      map buzzer_flipped reports = edges_b /\
      map buzzer_calls reports = map once_if edges_b.
Proof.
  intros samples l w Hagree edges_a edges_b.
  destruct (button_polls_returns samples l w Hagree)
    as (reports & l' & w' & Hrun & _ & Ha & Hca & Hb & Hcb & _).
  exists reports, l', w'. repeat split; assumption.
Qed.

Lemma flags_agree_started : flags_agree button_entry started_world.
Proof. repeat split; vm_compute; reflexivity. Defined.

(** A press of A held for two polls, a release, then A and B pressed
    together, starting from the system as [main] leaves it. *)
Lemma button_task_toggles_once_per_rising_edge_witness :
  flags_agree button_entry started_world /\
  exists reports l' w',
    button_polls [(false, true); (false, true); (true, true); (false, false)]
                 button_entry started_world = Some (reports, l', w') /\
    map led_flipped reports = [true; false; false; true] /\
    map led_calls reports = [1; 0; 0; 1]%nat /\
    map buzzer_flipped reports = [false; false; false; true] /\
    map buzzer_calls reports = [0; 0; 0; 1]%nat.
Proof.
  split; [exact flags_agree_started |].
  apply (button_task_toggles_once_per_rising_edge
           [(false, true); (false, true); (true, true); (false, false)]
           button_entry started_world).
  exact flags_agree_started.
Defined.

(** C7. Toggling is a round trip: from any run-state of the LED task that
    the Control Task's flag agrees with, a sequence of polls with exactly
    two rising edges on button A brings the run-state of the LED task and
    the flag [led_task_suspended] back to their original values. *)
Theorem two_presses_of_A_round_trip :
  forall (samples : list (bool * bool)) (l : button_locals) (w : World),
    flags_agree l w ->
    count_edges (button_a_pressed_previously l)
                (map (fun levels => negb levels.1) samples) = 2%nat ->
    exists reports l' w',
      button_polls samples l w = Some (reports, l', w') /\
      run_state (xLedTaskHandle w') w' = run_state (xLedTaskHandle w) w /\
      led_task_suspended l' = led_task_suspended l.
Proof.
  intros samples l w Hagree Htwo.
  destruct (button_polls_returns samples l w Hagree)
    as (reports & l' & w' & Hrun & Hagree' & _ & _ & _ & _ & Hflag & _).
  rewrite Htwo, xorb_false_r in Hflag.
  exists reports, l', w'. split; [exact Hrun |]. split; [| exact Hflag].
  destruct Hagree as (HL & _ & Hrs & _), Hagree' as (HL' & _ & Hrs' & _).
  rewrite HL, HL', Hrs, Hrs', Hflag. reflexivity.
Qed.

(** Press, release, press again, release: the LED task is suspended and
    then resumed. *)
Lemma two_presses_of_A_round_trip_witness :
  flags_agree button_entry started_world /\
  count_edges false (map (fun levels : bool * bool => negb levels.1)
                         [(false, true); (true, true); (false, true); (true, true)])
  = 2%nat /\
  exists reports l' w',
    button_polls [(false, true); (true, true); (false, true); (true, true)]
                 button_entry started_world = Some (reports, l', w') /\
    run_state (xLedTaskHandle w') w'
    = run_state (xLedTaskHandle started_world) started_world /\
    led_task_suspended l' = false.
Proof.
  split; [exact flags_agree_started |].
  split; [reflexivity |].
  apply (two_presses_of_A_round_trip
           [(false, true); (true, true); (false, true); (true, true)]
           button_entry started_world).
  - exact flags_agree_started.
  - reflexivity.
Defined.

(** ** [led_task] *)

Lemma led_task_loop_returns i w :
  0 <= i < NUM_COLORS ->
  led_task_loop i (Some LED_Task) w
  = Done ((i + 1) mod NUM_COLORS)
         (blocked_for LED_Task 500
            (with_gpio_out (insert (channel ((i + 1) mod NUM_COLORS)) true)
               (with_gpio_out (insert (channel i) false) w)))
         (led_pass_calls i).
Proof.
  intros Hi. change NUM_COLORS with 3 in *.
  assert (i = 0 \/ i = 1 \/ i = 2) as [-> | [-> | ->]] by lia; reflexivity.
Qed.

Lemma led_task_init_returns self w :
  led_task_init self w
  = Done tt (with_gpio_out (fun g => <[LED_B_PIN := false]>
                                       (<[LED_G_PIN := false]>
                                          (<[LED_R_PIN := false]> g))) w)
         led_init_calls.
Proof. reflexivity. Qed.

Lemma gpio_after_app cs1 cs2 g :
  gpio_after (cs1 ++ cs2) g = gpio_after cs2 (gpio_after cs1 g).
Proof. unfold gpio_after. apply foldl_app. Qed.

Lemma gpio_history_app cs1 cs2 g :
  gpio_history (cs1 ++ cs2) g
  = gpio_history cs1 g ++ gpio_history cs2 (gpio_after cs1 g).
Proof.
  revert g. induction cs1 as [|c cs1 IH]; intros g; [reflexivity |].
  cbn [app gpio_history]. rewrite IH.
  change (gpio_after (c :: cs1) g) with (gpio_after cs1 (gpio_after [c] g)).
  reflexivity.
Qed.

Lemma lit_channels_app cs1 cs2 :
  lit_channels (cs1 ++ cs2) = lit_channels cs1 ++ lit_channels cs2.
Proof. unfold lit_channels. apply omap_app. Qed.

Lemma index_cases k : 0 <= k < NUM_COLORS -> k = 0 \/ k = 1 \/ k = 2.
Proof. change NUM_COLORS with 3. lia. Qed.

Lemma active_channels_lookup (g : gmap Z bool) (b13 b11 b12 : bool) :
  g !! 13 = Some b13 -> g !! 11 = Some b11 -> g !! 12 = Some b12 ->
  active_channels g
  = (if b13 then [13] else []) ++ (if b11 then [11] else [])
    ++ (if b12 then [12] else [] : list Z).
Proof.
  intros H13 H11 H12. unfold active_channels, LED_PINS, LED_R_PIN, LED_G_PIN, LED_B_PIN.
  destruct b13, b11, b12;
    repeat (first [rewrite filter_cons_True by (by rewrite ?H13, ?H11, ?H12)
                  | rewrite filter_cons_False by (by rewrite ?H13, ?H11, ?H12)]);
    reflexivity.
Qed.

(** One pass started with only the current channel possibly on: no more
    than one channel is on after any of its calls, and exactly the new
    channel is on at its end. *)
Lemma led_pass_one_active i g :
  0 <= i < NUM_COLORS -> others_off i g ->
  Forall (fun g' => (length (active_channels g') <= 1)%nat)
         (gpio_history (led_pass_calls i) g) /\
  others_off ((i + 1) mod NUM_COLORS) (gpio_after (led_pass_calls i) g) /\
  active_channels (gpio_after (led_pass_calls i) g)
  = [channel ((i + 1) mod NUM_COLORS)].
Proof.
  intros Hi Hoff.
  assert (H0 := Hoff 0). assert (H1 := Hoff 1). assert (H2 := Hoff 2).
  change NUM_COLORS with 3 in *.
  cbn [led_pass_calls gpio_history gpio_after foldl].
  destruct (index_cases i Hi) as [-> | [-> | ->]]; channels.
  - specialize (H1 ltac:(lia) ltac:(lia)). specialize (H2 ltac:(lia) ltac:(lia)).
    split; [| split].
    + repeat apply Forall_cons_2; try apply Forall_nil_2;
        (erewrite active_channels_lookup; [| pins; first [reflexivity | eassumption] ..]);
        cbn; lia.
    + intros k Hk Hne. destruct (index_cases k Hk) as [-> | [-> | ->]];
        channels; pins;
        first [reflexivity | assumption | exfalso; apply Hne; reflexivity].
    + erewrite active_channels_lookup; [| pins; first [reflexivity | eassumption] ..].
      reflexivity.
  - specialize (H0 ltac:(lia) ltac:(lia)). specialize (H2 ltac:(lia) ltac:(lia)).
    split; [| split].
    + repeat apply Forall_cons_2; try apply Forall_nil_2;
        (erewrite active_channels_lookup; [| pins; first [reflexivity | eassumption] ..]);
        cbn; lia.
    + intros k Hk Hne. destruct (index_cases k Hk) as [-> | [-> | ->]];
        channels; pins;
        first [reflexivity | assumption | exfalso; apply Hne; reflexivity].
    + erewrite active_channels_lookup; [| pins; first [reflexivity | eassumption] ..].
      reflexivity.
  - specialize (H0 ltac:(lia) ltac:(lia)). specialize (H1 ltac:(lia) ltac:(lia)).
    split; [| split].
    + repeat apply Forall_cons_2; try apply Forall_nil_2;
        (erewrite active_channels_lookup; [| pins; first [reflexivity | eassumption] ..]);
        cbn; lia.
    + intros k Hk Hne. destruct (index_cases k Hk) as [-> | [-> | ->]];
        channels; pins;
        first [reflexivity | assumption | exfalso; apply Hne; reflexivity].
    + erewrite active_channels_lookup; [| pins; first [reflexivity | eassumption] ..].
      reflexivity.
Qed.

Lemma index_before_range k : 0 <= index_before k < NUM_COLORS.
Proof. unfold index_before. apply Z.mod_pos_bound. reflexivity. Qed.

Lemma index_before_S k :
  (index_before k + 1) mod NUM_COLORS = index_before (S k).
Proof.
  unfold index_before. rewrite Nat2Z.inj_succ, Z.add_mod_idemp_l by discriminate.
  reflexivity.
Qed.

Lemma led_task_started_returns i w :
  0 <= i < NUM_COLORS ->
  led_task (mkLed true i) (Some LED_Task) w
  = Done (mkLed true ((i + 1) mod NUM_COLORS))
         (blocked_for LED_Task 500
            (with_gpio_out (insert (channel ((i + 1) mod NUM_COLORS)) true)
               (with_gpio_out (insert (channel i) false) w)))
         (led_pass_calls i).
Proof.
  intros Hi. unfold led_task, bind. cbn [led_started current_color_index].
  rewrite (led_task_loop_returns i w Hi). reflexivity.
Qed.

Lemma led_task_entry_returns i w :
  led_task (mkLed false i) (Some LED_Task) w
  = Done (mkLed true 1)
         (blocked_for LED_Task 500
            (with_gpio_out (insert LED_G_PIN true)
               (with_gpio_out (insert LED_R_PIN false)
                  (with_gpio_out (fun g => <[LED_B_PIN := false]>
                                             (<[LED_G_PIN := false]>
                                                (<[LED_R_PIN := false]> g))) w))))
         (led_init_calls ++ led_pass_calls 0).
Proof. reflexivity. Qed.

(** [K] passes of the loop, the first of them pass number [j]. *)
Lemma led_passes_return K : forall (j : nat) w,
  exists w',
    iterate K led_task (mkLed true (index_before j)) (Some LED_Task) w
    = Done (mkLed true (index_before (j + K))) w'
           (flat_map (fun k => led_pass_calls (index_before k)) (seq j K)) /\
    gpio_out w'
    = gpio_after (flat_map (fun k => led_pass_calls (index_before k)) (seq j K))
                 (gpio_out w) /\
    xLedTaskHandle w' = xLedTaskHandle w /\
    xBuzzerTaskHandle w' = xBuzzerTaskHandle w.
Proof.
  induction K as [|K IH]; intros j w.
  - exists w. rewrite Nat.add_0_r. repeat split; reflexivity.
  - cbn [iterate seq flat_map]. unfold bind at 1.
    rewrite (led_task_started_returns _ w (index_before_range j)).
    rewrite index_before_S.
    destruct (IH (S j) (blocked_for LED_Task 500
            (with_gpio_out (insert (channel (index_before (S j))) true)
               (with_gpio_out (insert (channel (index_before j)) false) w))))
      as (w' & Hrun & Hout & HL & HB).
    exists w'. rewrite Hrun. rewrite Nat.add_succ_r.
    split; [reflexivity |]. split; [| split; assumption].
    rewrite Hout, gpio_after_app. cbn [gpio_out blocked_for with_tcbs with_gpio_out].
    unfold led_pass_calls at 3. rewrite index_before_S. reflexivity.
Qed.

Lemma led_passes_one_active K : forall (j : nat) g,
  others_off (index_before j) g ->
  let passes := flat_map (fun k => led_pass_calls (index_before k)) (seq j K) in
  Forall (fun g' => (length (active_channels g') <= 1)%nat) (gpio_history passes g) /\
  others_off (index_before (j + K)) (gpio_after passes g) /\
  (forall K', K = S K' ->
     active_channels (gpio_after passes g) = [channel (index_before (j + K))]).
Proof.
  induction K as [|K IH]; intros j g Hoff passes; subst passes.
  - rewrite Nat.add_0_r. split; [apply Forall_nil_2 |]. split; [exact Hoff |].
    intros K' HK'. discriminate.
  - cbn [seq flat_map].
    destruct (led_pass_one_active _ g (index_before_range j) Hoff)
      as (Hhist & Hoff' & Hact).
    rewrite index_before_S in Hoff', Hact.
    destruct (IH (S j) _ Hoff') as (Hhist' & Hoff'' & Hact').
    rewrite gpio_history_app, gpio_after_app, Nat.add_succ_r.
    split; [apply Forall_app; split; assumption |].
    split; [exact Hoff'' |].
    intros K' _. destruct K as [|K''].
    + cbn [seq flat_map gpio_after foldl]. rewrite Nat.add_0_r.
      exact Hact.
    + apply (Hact' K''). reflexivity.
Qed.

Lemma lit_channels_passes K : forall j,
  lit_channels (flat_map (fun k => led_pass_calls (index_before k)) (seq j K))
  = map channel_lit (seq j K).
Proof.
  induction K as [|K IH]; intros j; [reflexivity |].
  cbn [seq flat_map map]. rewrite lit_channels_app, IH.
  change (channel_lit j) with (channel (index_before (S j))).
  rewrite <- index_before_S. reflexivity.
Qed.

Lemma channel_lit_cycle j :
  [channel_lit j; channel_lit (S j); channel_lit (S (S j))] ≡ₚ LED_PINS.
Proof.
  unfold channel_lit. change NUM_COLORS with 3.
  rewrite !Nat2Z.inj_succ.
  assert (H := Z.mod_pos_bound (Z.of_nat j) 3 ltac:(lia)).
  assert (Hc : Z.of_nat j mod 3 = 0 \/ Z.of_nat j mod 3 = 1 \/ Z.of_nat j mod 3 = 2) by lia.
  assert (H1 : Z.succ (Z.of_nat j) mod 3 = (Z.of_nat j mod 3 + 1) mod 3)
    by (unfold Z.succ; rewrite Z.add_mod_idemp_l by discriminate; reflexivity).
  assert (H2 : Z.succ (Z.succ (Z.of_nat j)) mod 3 = (Z.of_nat j mod 3 + 2) mod 3).
  { unfold Z.succ. rewrite <- Z.add_assoc, Z.add_mod_idemp_l by discriminate. reflexivity. }
  assert (H3 : Z.succ (Z.succ (Z.succ (Z.of_nat j))) mod 3 = (Z.of_nat j mod 3 + 3) mod 3).
  { unfold Z.succ. rewrite <- !Z.add_assoc, Z.add_mod_idemp_l by discriminate. reflexivity. }
  rewrite H1, H2, H3.
  destruct Hc as [-> | [-> | ->]]; vm_compute.
  - (* 11, 12, 13 *) 
    etransitivity; [| apply Permutation_swap].
    etransitivity; [| apply perm_skip, Permutation_swap]. reflexivity.
  - etransitivity; [| apply perm_skip, Permutation_swap]. 
    etransitivity; [| apply Permutation_swap]. reflexivity.
  - reflexivity.
Qed.

Lemma led_init_all_off (g : gmap Z bool) pin :
  pin ∈ LED_PINS -> gpio_after led_init_calls g !! pin = Some false.
Proof.
  intros Hin. cbn [led_init_calls flat_map LED_PINS app gpio_after foldl].
  unfold LED_PINS in Hin. rewrite !elem_of_cons in Hin.
  destruct Hin as [-> | [-> | [-> | Hin]]]; [pins; reflexivity .. |].
  by apply elem_of_nil in Hin.
Qed.

Lemma channel_in_LED_PINS k : 0 <= k < NUM_COLORS -> channel k ∈ LED_PINS.
Proof.
  intros Hk. destruct (index_cases k Hk) as [-> | [-> | ->]]; vm_compute;
    repeat constructor.
Qed.

(** C4. [led_task] first drives every channel off; then on each period it
    turns off the channel of the current index, advances the index modulo
    [NUM_COLORS] (3) and turns on the channel of the new index.  Hence,
    over any number of periods, no more than one channel is on after any
    call that follows the set-up (and exactly the current one at the end
    of a period), the channels are turned on in a fixed cyclic order in
    which any three consecutive periods visit each channel once, and the
    index stays in [[0, NUM_COLORS)]. *)
Theorem led_task_cycles_one_channel_at_a_time :
  forall (K : nat) (w : World),
    exists w' passes,
      iterate (S K) led_task led_entry (Some LED_Task) w
      = Done (mkLed true (index_before (S K))) w' (led_init_calls ++ passes) /\
      (forall pin, pin ∈ LED_PINS ->
                   gpio_after led_init_calls (gpio_out w) !! pin = Some false) /\
      passes = flat_map (fun k => led_pass_calls (index_before k)) (seq 0 (S K)) /\
      Forall (fun g => (length (active_channels g) <= 1)%nat)
             (gpio_history passes (gpio_after led_init_calls (gpio_out w))) /\
      gpio_out w' = gpio_after (led_init_calls ++ passes) (gpio_out w) /\
      active_channels (gpio_out w') = [channel (index_before (S K))] /\
      lit_channels passes = map channel_lit (seq 0 (S K)) /\
      (forall j, (j + 3 <= S K)%nat ->
                 take 3 (drop j (lit_channels passes)) ≡ₚ LED_PINS) /\
      0 <= index_before (S K) < NUM_COLORS.
Proof.
  intros K w.
  set (passes := flat_map (fun k => led_pass_calls (index_before k)) (seq 0 (S K))).
  destruct (led_passes_return K 1 (blocked_for LED_Task 500
            (with_gpio_out (insert LED_G_PIN true)
               (with_gpio_out (insert LED_R_PIN false)
                  (with_gpio_out (fun g => <[LED_B_PIN := false]>
                                             (<[LED_G_PIN := false]>
                                                (<[LED_R_PIN := false]> g))) w)))))
    as (w' & Hrun & Hout & _).
  assert (Hoff : others_off (index_before 0)
                            (gpio_after led_init_calls (gpio_out w))).
  { intros k Hk _. apply led_init_all_off, channel_in_LED_PINS, Hk. }
  destruct (led_passes_one_active (S K) 0 _ Hoff) as (Hhist & _ & Hact).
  assert (Hfinal : gpio_out w' = gpio_after (led_init_calls ++ passes) (gpio_out w)).
  { rewrite Hout. subst passes. cbn [seq flat_map].
    rewrite !gpio_after_app. reflexivity. }
  exists w', passes.
  split; [| split; [| split; [| split; [| split; [| split; [| split; [| split]]]]]]].
  - cbn [iterate]. unfold bind at 1, led_entry. rewrite led_task_entry_returns.
    change (mkLed true 1) with (mkLed true (index_before 1)).
    rewrite Hrun. subst passes. cbn [seq flat_map]. rewrite <- app_assoc.
    reflexivity.
  - intros pin. apply led_init_all_off.
  - reflexivity.
  - exact Hhist.
  - exact Hfinal.
  - rewrite Hfinal, gpio_after_app. apply (Hact K). reflexivity.
  - apply lit_channels_passes.
  - intros j Hj. subst passes. rewrite lit_channels_passes.
    rewrite <- fmap_drop, <- fmap_take, drop_seq, take_seq.
    replace (3 `min` (S K - j))%nat with 3%nat by lia.
    apply channel_lit_cycle.
  - apply index_before_range.
Qed.

(** ** [oled_task] *)

Lemma returns_query_state (handle : World -> TaskHandle_t) t w
    (Q : eTaskState -> World -> list call -> Prop) :
  handle_for t (handle w) w -> t <> OLED_Task ->
  (forall st cs,
      run_state (handle w) w = RunState_of st ->
      Forall (fun c => is_query c = true) cs ->
      Forall (fun c => is_render c = false) cs ->
      (handle w <> None -> cs = [call_eTaskGetState (handle w) st]) ->
      (handle w = None -> cs = []) ->
      Q st w cs) ->
  returns (query_state handle) (Some OLED_Task) w Q.
Proof.
  intros [Hnull | [Hsome [b Hb]]] Hne HQ; unfold query_state;
    apply returns_bind, returns_read.
  - rewrite Hnull in *. rewrite decide_False by (intros H; by apply H).
    apply returns_ret, HQ; try done.
  - rewrite Hsome in *. rewrite decide_True by done.
    eapply returns_eTaskGetState; [exact Hb | congruence |].
    apply HQ; try done.
    + by apply run_state_tcb.
    + by repeat constructor.
    + by repeat constructor.
Qed.

Lemma status_text_line name null_name st :
  status_text name (null_name +:+ "Handle Nulo") st
  = status_line name null_name (RunState_of st).
Proof. destruct st; reflexivity. Qed.

Lemma returns_sprintf size s self w (Q : string -> World -> list call -> Prop) :
  Z.of_nat (String.length s) + 1 <= size ->
  Q s w [] -> returns (sprintf size s) self w Q.
Proof.
  intros Hfit HQ. unfold returns, sprintf.
  destruct (Z.leb_spec (Z.of_nat (String.length s) + 1) size); [exact HQ | lia].
Qed.

Lemma status_line_fits_led r :
  Z.of_nat (String.length (status_line "Task LED: " "LED: " r)) + 1 <= 25.
Proof. destruct r; vm_compute; discriminate. Qed.

Lemma status_line_fits_buzzer r :
  Z.of_nat (String.length (status_line "Task Buzz: " "Buzzer: " r)) + 1 <= 25.
Proof. destruct r; vm_compute; discriminate. Qed.

Lemma returns_ssd1306_clear self w (Q : unit -> World -> list call -> Prop) :
  Q tt (with_display [] (display_panel w) w) [call_ssd1306_clear] ->
  returns ssd1306_clear self w Q.
Proof. intros H. exact H. Qed.

Lemma returns_ssd1306_draw_string x y scale s self w
    (Q : unit -> World -> list call -> Prop) :
  Q tt (with_display (display_buffer w ++ [(x, y, scale, s)]) (display_panel w) w)
       [call_ssd1306_draw_string x y scale s] ->
  returns (ssd1306_draw_string x y scale s) self w Q.
Proof. intros H. exact H. Qed.

Lemma returns_ssd1306_show self w (Q : unit -> World -> list call -> Prop) :
  Q tt (with_display (display_buffer w) (display_buffer w) w) [call_ssd1306_show] ->
  returns ssd1306_show self w Q.
Proof. intros H. exact H. Qed.

(** One report, whatever [main] left in the two handles. *)
Lemma oled_task_loop_returns w :
  registry_ok w ->
  returns oled_task_loop (Some OLED_Task) w (fun _ w' cs =>
    exists queries,
      cs = queries ++
           [call_ssd1306_clear;
            call_ssd1306_draw_string 0 0 1
              (status_line "Task LED: " "LED: " (run_state (xLedTaskHandle w) w));
            call_ssd1306_draw_string 0 10 1
              (status_line "Task Buzz: " "Buzzer: "
                           (run_state (xBuzzerTaskHandle w) w));
            call_ssd1306_show;
            call_vTaskDelay 250] /\
      Forall (fun c => is_query c = true) queries /\
      (both_valid w -> length queries = 2%nat) /\
      w' = blocked_for OLED_Task 250
             (with_display
                [(0, 0, 1, status_line "Task LED: " "LED: "
                                        (run_state (xLedTaskHandle w) w));
                 (0, 10, 1, status_line "Task Buzz: " "Buzzer: "
                                         (run_state (xBuzzerTaskHandle w) w))]
                [(0, 0, 1, status_line "Task LED: " "LED: "
                                        (run_state (xLedTaskHandle w) w));
                 (0, 10, 1, status_line "Task Buzz: " "Buzzer: "
                                         (run_state (xBuzzerTaskHandle w) w))]
                w)).
Proof.
  intros [Hled Hbuz]. unfold oled_task_loop.
  apply returns_bind. eapply returns_query_state; [exact Hled | done |].
  intros st1 cs1 Hst1 Hq1 _ Hvalid1 _.
  apply returns_bind. eapply returns_query_state; [exact Hbuz | done |].
  intros st2 cs2 Hst2 Hq2 _ Hvalid2 _.
  apply returns_bind, returns_ssd1306_clear.
  apply returns_bind.
  change "LED: Handle Nulo" with ("LED: " +:+ "Handle Nulo").
  rewrite status_text_line, <- Hst1.
  apply returns_sprintf; [apply status_line_fits_led |].
  apply returns_bind, returns_ssd1306_draw_string.
  apply returns_bind.
  change "Buzzer: Handle Nulo" with ("Buzzer: " +:+ "Handle Nulo").
  rewrite status_text_line, <- Hst2.
  apply returns_sprintf; [apply status_line_fits_buzzer |].
  apply returns_bind, returns_ssd1306_draw_string.
  apply returns_bind, returns_ssd1306_show.
  apply returns_vTaskDelay; [done |].
  exists (cs1 ++ cs2). split; [| split; [| split]].
  - rewrite <- !app_assoc. reflexivity.
  - apply Forall_app; split; assumption.
  - intros [H1 H2]. rewrite (Hvalid1 H1), (Hvalid2 H2). reflexivity.
  - reflexivity.
Qed.

(** C5. Each render cycle of [oled_task] maps the run-state behind each
    handle to a label (Running to "Run", Suspended to "Suspended", an
    invalid handle to "Handle Nulo") and calls the display in the order
    clear, draw line 0 (LED), draw line 1 (buzzer), show, after which the
    panel holds exactly these two lines; sampled while the LED task is
    Suspended and the buzzer task Running, line 0 contains "Suspended" and
    line 1 contains "Run". *)
Theorem oled_task_renders_labels_in_order :
  forall (w : World),
    registry_ok w ->
    exists w' queries,
      oled_task_loop (Some OLED_Task) w
      = Done tt w'
          (queries ++
           [call_ssd1306_clear;
            call_ssd1306_draw_string 0 0 1
              (status_line "Task LED: " "LED: " (run_state (xLedTaskHandle w) w));
            call_ssd1306_draw_string 0 10 1
              (status_line "Task Buzz: " "Buzzer: "
                           (run_state (xBuzzerTaskHandle w) w));
            call_ssd1306_show;
            call_vTaskDelay 250]) /\
      Forall (fun c => is_query c = true) queries /\
      display_panel w'
      = [(0, 0, 1, status_line "Task LED: " "LED: "
                               (run_state (xLedTaskHandle w) w));
         (0, 10, 1, status_line "Task Buzz: " "Buzzer: "
                                (run_state (xBuzzerTaskHandle w) w))] /\
      (run_state (xLedTaskHandle w) w = Suspended ->
       run_state (xBuzzerTaskHandle w) w = Running ->
       contains "Suspended"
         (status_line "Task LED: " "LED: " (run_state (xLedTaskHandle w) w)) = true /\
       contains "Run"
         (status_line "Task Buzz: " "Buzzer: "
                      (run_state (xBuzzerTaskHandle w) w)) = true).
Proof.
  intros w Hreg.
  destruct (returns_Done _ _ _ _ (oled_task_loop_returns w Hreg))
    as ([] & w' & cs & Hrun & queries & -> & Hq & _ & ->).
  eexists _, queries. split; [exact Hrun |]. split; [exact Hq |].
  split; [reflexivity |].
  intros -> ->. split; reflexivity.
Qed.

Lemma registry_ok_led_suspended : registry_ok led_suspended_world.
Proof.
  split; right; (split; [reflexivity |]); eexists; vm_compute; reflexivity.
Defined.

(** The report with the LED task suspended and the buzzer task running. *)
Lemma oled_task_renders_labels_in_order_witness :
  registry_ok led_suspended_world /\
  exists w' queries,
    oled_task_loop (Some OLED_Task) led_suspended_world
    = Done tt w'
        (queries ++
         [call_ssd1306_clear;
          call_ssd1306_draw_string 0 0 1 "Task LED: Suspended";
          call_ssd1306_draw_string 0 10 1 "Task Buzz: Run";
          call_ssd1306_show;
          call_vTaskDelay 250]) /\
    Forall (fun c => is_query c = true) queries /\
    display_panel w'
    = [(0, 0, 1, "Task LED: Suspended"); (0, 10, 1, "Task Buzz: Run")] /\
    (run_state (xLedTaskHandle led_suspended_world) led_suspended_world = Suspended ->
     run_state (xBuzzerTaskHandle led_suspended_world) led_suspended_world = Running ->
     contains "Suspended" "Task LED: Suspended" = true /\
     contains "Run" "Task Buzz: Run" = true).
Proof.
  split; [exact registry_ok_led_suspended |].
  exact (oled_task_renders_labels_in_order led_suspended_world
           registry_ok_led_suspended).
Defined.

Lemma not_both_valid w :
  ~ both_valid w ->
  bool_decide (xLedTaskHandle w = None) || bool_decide (xBuzzerTaskHandle w = None)
  = true.
Proof.
  intros Hnot. unfold both_valid in Hnot.
  destruct (xLedTaskHandle w), (xBuzzerTaskHandle w); try reflexivity.
  exfalso. apply Hnot. split; discriminate.
Qed.

Lemma both_valid_decide w :
  both_valid w ->
  bool_decide (xLedTaskHandle w = None) || bool_decide (xBuzzerTaskHandle w = None)
  = false.
Proof.
  intros [H1 H2].
  rewrite !bool_decide_eq_false_2 by assumption. reflexivity.
Qed.

(** A segment of the waiting loop with a handle still [NULL]: a delay of
    10 ms and nothing else. *)
Lemma oled_task_waits w :
  ~ both_valid w ->
  oled_task OledWaiting (Some OLED_Task) w
  = Done OledWaiting (blocked_for OLED_Task 10 w) [call_vTaskDelay 10].
Proof.
  intros Hnot. unfold oled_task, bind, read.
  rewrite (not_both_valid w Hnot). reflexivity.
Qed.

(** The segment that finds both handles valid: the waiting loop is left
    and the first report made. *)
Lemma oled_task_starts w :
  both_valid w -> registry_ok w ->
  exists w' queries,
    oled_task OledWaiting (Some OLED_Task) w
    = Done OledReporting w'
        (call_printf ("Tarefa OLED Iniciada" +:+ newline) :: queries ++
         [call_ssd1306_clear;
          call_ssd1306_draw_string 0 0 1
            (status_line "Task LED: " "LED: " (run_state (xLedTaskHandle w) w));
          call_ssd1306_draw_string 0 10 1
            (status_line "Task Buzz: " "Buzzer: "
                         (run_state (xBuzzerTaskHandle w) w));
          call_ssd1306_show;
          call_vTaskDelay 250]) /\
    Forall (fun c => is_query c = true) queries /\
    length queries = 2%nat.
Proof.
  intros Hvalid Hreg.
  destruct (returns_Done _ _ _ _ (oled_task_loop_returns w Hreg))
    as ([] & w' & cs & Hrun & queries & -> & Hq & Hlen & ->).
  eexists _, queries. split; [| split; [exact Hq | exact (Hlen Hvalid)]].
  unfold oled_task, bind, read. rewrite (both_valid_decide w Hvalid).
  unfold printf, emit. rewrite Hrun. unfold ret. cbn [app].
  rewrite app_nil_r. reflexivity.
Qed.

Lemma oled_observes_app ws1 : forall ws2 p,
  oled_observes (ws1 ++ ws2) p
  = match oled_observes ws1 p with
    | Some (q, cs1) =>
        match oled_observes ws2 q with
        | Some (r, cs2) => Some (r, cs1 ++ cs2)
        | None => None
        end
    | None => None
    end.
Proof.
  induction ws1 as [|w ws1 IH]; intros ws2 p.
  - cbn. destruct (oled_observes ws2 p) as [[r cs2]|]; reflexivity.
  - cbn [app oled_observes].
    destruct (oled_task p (Some OLED_Task) w) as [p' w' cs| |]; try reflexivity.
    rewrite IH. destruct (oled_observes ws1 p') as [[q cs1]|]; [| reflexivity].
    destruct (oled_observes ws2 q) as [[r cs2]|]; [| reflexivity].
    by rewrite app_assoc.
Qed.

Lemma oled_observes_waiting before :
  Forall (fun w0 => ~ both_valid w0) before ->
  oled_observes before OledWaiting
  = Some (OledWaiting, repeat (call_vTaskDelay 10) (length before)).
Proof.
  induction 1 as [|w0 before Hnot _ IH]; [reflexivity |].
  cbn [oled_observes]. rewrite (oled_task_waits w0 Hnot), IH. reflexivity.
Qed.

(** C3. [oled_task] neither queries a run-state nor draws before both
    handles are non-[NULL]: as long as every world it wakes up in has a
    [NULL] handle, each of its segments is a delay of 10 ms and nothing
    else, and it stays in the waiting loop; the first segment that finds
    both handles valid leaves the waiting loop, and only then come the two
    queries and the first report. *)
Theorem oled_task_waits_for_both_handles :
  forall (before : list World) (w : World),
    Forall (fun w0 => ~ both_valid w0) before ->
    both_valid w -> registry_ok w ->
    oled_observes before OledWaiting
    = Some (OledWaiting, repeat (call_vTaskDelay 10) (length before)) /\
    Forall (fun c => is_query c = false /\ is_render c = false)
           (repeat (call_vTaskDelay 10) (length before)) /\
    exists queries,
      oled_observes (before ++ [w]) OledWaiting
      = Some (OledReporting,
              repeat (call_vTaskDelay 10) (length before) ++
              call_printf ("Tarefa OLED Iniciada" +:+ newline) :: queries ++
              [call_ssd1306_clear;
               call_ssd1306_draw_string 0 0 1
                 (status_line "Task LED: " "LED: " (run_state (xLedTaskHandle w) w));
               call_ssd1306_draw_string 0 10 1
                 (status_line "Task Buzz: " "Buzzer: "
                              (run_state (xBuzzerTaskHandle w) w));
               call_ssd1306_show;
               call_vTaskDelay 250]) /\
      Forall (fun c => is_query c = true) queries /\
      length queries = 2%nat.
Proof.
  intros before w Hbefore Hvalid Hreg.
  split; [by apply oled_observes_waiting |].
  split.
  { apply Forall_forall. intros c Hc. apply list_elem_of_In, repeat_spec in Hc.
    subst c. by split. }
  destruct (oled_task_starts w Hvalid Hreg) as (w' & queries & Hstart & Hq & Hlen).
  exists queries. split; [| split; assumption].
  rewrite oled_observes_app, (oled_observes_waiting before Hbefore).
  cbn [oled_observes]. rewrite Hstart. rewrite app_nil_r. reflexivity.
Qed.

Lemma not_both_valid_power_on : ~ both_valid power_on.
Proof. intros [H _]. apply H. reflexivity. Defined.

Lemma not_both_valid_led_handle_only : ~ both_valid led_handle_only_world.
Proof. intros [_ H]. apply H. reflexivity. Defined.

Lemma both_valid_started : both_valid started_world.
Proof. split; intros H; vm_compute in H; discriminate H. Defined.

Lemma registry_ok_started : registry_ok started_world.
Proof.
  split; right; (split; [reflexivity |]); eexists; vm_compute; reflexivity.
Defined.

(** Two wake-ups with a handle missing, then the world [main] leaves. *)
Lemma oled_task_waits_for_both_handles_witness :
  Forall (fun w0 => ~ both_valid w0) [power_on; led_handle_only_world] /\
  both_valid started_world /\
  registry_ok started_world /\
  oled_observes [power_on; led_handle_only_world] OledWaiting
  = Some (OledWaiting, [call_vTaskDelay 10; call_vTaskDelay 10]) /\
  Forall (fun c => is_query c = false /\ is_render c = false)
         [call_vTaskDelay 10; call_vTaskDelay 10] /\
  exists queries,
    oled_observes ([power_on; led_handle_only_world] ++ [started_world]) OledWaiting
    = Some (OledReporting,
            [call_vTaskDelay 10; call_vTaskDelay 10] ++
            call_printf ("Tarefa OLED Iniciada" +:+ newline) :: queries ++
            [call_ssd1306_clear;
             call_ssd1306_draw_string 0 0 1
               (status_line "Task LED: " "LED: "
                  (run_state (xLedTaskHandle started_world) started_world));
             call_ssd1306_draw_string 0 10 1
               (status_line "Task Buzz: " "Buzzer: "
                  (run_state (xBuzzerTaskHandle started_world) started_world));
             call_ssd1306_show;
             call_vTaskDelay 250]) /\
    Forall (fun c => is_query c = true) queries /\
    length queries = 2%nat.
Proof.
  assert (Hbefore : Forall (fun w0 => ~ both_valid w0)
                           [power_on; led_handle_only_world]).
  { repeat constructor.
    - exact not_both_valid_power_on.
    - exact not_both_valid_led_handle_only. }
  split; [exact Hbefore |].
  split; [exact both_valid_started |].
  split; [exact registry_ok_started |].
  exact (oled_task_waits_for_both_handles [power_on; led_handle_only_world]
           started_world Hbefore both_valid_started registry_ok_started).
Defined.

(** ** [main] *)

Lemma main_heap d h :
  main d h
  = main d (fun t => match t with
                     | LED_Task => h LED_Task
                     | Buzzer_Task => h Buzzer_Task
                     | Button_Task => h Button_Task
                     | OLED_Task => h OLED_Task
                     end).
Proof. reflexivity. Qed.

(** [main] starts the scheduler only when the display answered and all
    four tasks were created, and then always in the same world. *)
Lemma boot_Some d h s :
  boot d h = Some s ->
  s = start started_world /\ d = true /\ forall t, h t = true.
Proof.
  unfold boot. rewrite main_heap.
  destruct d, (h LED_Task) eqn:H1, (h Buzzer_Task) eqn:H2,
           (h Button_Task) eqn:H3, (h OLED_Task) eqn:H4;
    vm_compute; intros Hs; try discriminate Hs.
  injection Hs as <-. split; [reflexivity |]. split; [reflexivity |].
  intros []; assumption.
Qed.

Lemma boot_all_created : boot true all_created = Some (start started_world).
Proof. vm_compute. reflexivity. Defined.

(** C8. [main] creates [button_task] at a strictly higher priority (2)
    than each of the other three tasks, which are all created at the same
    priority (1). *)
Theorem button_task_has_highest_priority :
  forall (display_ok : bool) (heap_ok : task -> bool) (s : System),
    boot display_ok heap_ok = Some s ->
    exists button led buzzer oled : Z,
      priority_of Button_Task s = Some button /\
      priority_of LED_Task s = Some led /\
      priority_of Buzzer_Task s = Some buzzer /\
      priority_of OLED_Task s = Some oled /\
      button > led /\ button > buzzer /\ button > oled /\
      led = buzzer /\ buzzer = oled.
Proof.
  intros d h s Hboot. apply boot_Some in Hboot as (-> & _ & _).
  exists 2, 1, 1, 1. repeat split; vm_compute; reflexivity.
Qed.

Lemma button_task_has_highest_priority_witness :
  boot true all_created = Some (start started_world) /\
  exists button led buzzer oled : Z,
    priority_of Button_Task (start started_world) = Some button /\
    priority_of LED_Task (start started_world) = Some led /\
    priority_of Buzzer_Task (start started_world) = Some buzzer /\
    priority_of OLED_Task (start started_world) = Some oled /\
    button > led /\ button > buzzer /\ button > oled /\
    led = buzzer /\ buzzer = oled.
Proof.
  split; [exact boot_all_created |].
  exact (button_task_has_highest_priority true all_created (start started_world)
           boot_all_created).
Defined.

(** What [button_task] does in a world whose registry holds only [NULL]s
    (a world [main] does not produce): on a rising edge it passes the
    [NULL] handle to [vTaskSuspend], which takes the Control Task itself
    off the processor in the middle of the poll; with its flag set it
    passes the handle to [vTaskResume], clears the flag and prints its
    message. *)
Theorem button_task_acts_on_null_handle :
  (exists w',
     button_poll (false, true) button_entry null_registry_world
     = Stalled w'
         [call_gpio_init BUTTON_A_PIN; call_gpio_set_dir BUTTON_A_PIN false;
          call_gpio_pull_up BUTTON_A_PIN; call_gpio_init BUTTON_B_PIN;
          call_gpio_set_dir BUTTON_B_PIN false; call_gpio_pull_up BUTTON_B_PIN;
          call_gpio_get BUTTON_A_PIN false;
          call_vTaskSuspend None] /\
     run_state (Some Button_Task) w' = Suspended) /\
  (exists w',
     button_poll (false, true) (mkButton true false false true false)
                 null_registry_world
     = Done (mkButton true true false false false) w'
         [call_gpio_get BUTTON_A_PIN false;
          call_vTaskResume None;
          call_printf ("Tarefa LED Retomada" +:+ newline);
          call_gpio_get BUTTON_B_PIN true;
          call_vTaskDelay 100]).
Proof.
  split; eexists; [split |]; vm_compute; reflexivity.
Qed.

(** ** What no task code does *)

Section Respects.
Variable R : World -> World -> Prop.
Variable P : call -> Prop.
Hypothesis R_refl : forall w, R w w.
Hypothesis R_trans : forall w1 w2 w3, R w1 w2 -> R w2 w3 -> R w1 w3.

Lemma respects_ret {A} (a : A) : respects R P (ret a).
Proof. intros self w. cbn. auto. Qed.

Lemma respects_bind {A B} (m : M A) (f : A -> M B) :
  respects R P m -> (forall a, respects R P (f a)) -> respects R P (bind m f).
Proof.
  intros Hm Hf self w. unfold bind. specialize (Hm self w).
  destruct (m self w) as [a w1 cs1 | w1 cs1 |]; [| exact Hm | exact I].
  destruct Hm as [HR HP]. specialize (Hf a self w1).
  destruct (f a self w1) as [b w2 cs2 | w2 cs2 |]; [| | exact I];
    destruct Hf as [HR' HP']; (split; [eauto | by apply Forall_app]).
Qed.

Lemma respects_read {A} (f : World -> A) : respects R P (read f).
Proof. intros self w. cbn. auto. Qed.

Lemma respects_myself : respects R P myself.
Proof. intros self w. cbn. auto. Qed.

Lemma respects_emit c : P c -> respects R P (emit c).
Proof. intros Hc self w. cbn. auto. Qed.

Lemma respects_update f : (forall w, R w (f w)) -> respects R P (update f).
Proof. intros Hf self w. cbn. auto. Qed.

Lemma respects_fault {A} : respects R P (@fault A).
Proof. intros self w. exact I. Qed.

Lemma respects_stall {A} : respects R P (@stall A).
Proof. intros self w. cbn. auto. Qed.

Lemma respects_for_each indices body :
  (forall i, respects R P (body i)) -> respects R P (for_each indices body).
Proof.
  intros Hbody. induction indices as [|i rest IH]; cbn [for_each].
  - apply respects_ret.
  - apply respects_bind; auto.
Qed.
End Respects.

Lemma same_registry_refl w : same_registry w w.
Proof. repeat split. Qed.

Lemma same_registry_trans w1 w2 w3 :
  same_registry w1 w2 -> same_registry w2 w3 -> same_registry w1 w3.
Proof.
  intros (H1 & H2 & H3) (H1' & H2' & H3'). repeat split; congruence.
Qed.

(** Walking through task code: binds, branches and the primitives, none of
    which writes a handle. *)
Ltac respects_side :=
  try apply same_registry_refl; try apply same_registry_trans.

Ltac respects_step :=
  lazymatch goal with
  | |- forall _, _ => intros ?
  | |- respects _ _ (ret _) => apply respects_ret; respects_side
  | |- respects _ _ (bind _ _) => apply respects_bind; respects_side
  | |- respects _ _ (read _) => apply respects_read; respects_side
  | |- respects _ _ myself => apply respects_myself; respects_side
  | |- respects _ _ fault => apply respects_fault
  | |- respects _ _ stall => apply respects_stall; respects_side
  | |- respects _ _ (for_each _ _) => apply respects_for_each; respects_side
  | |- respects _ _ (emit _) => apply respects_emit; respects_side
  | |- respects _ _ (update _) =>
      apply respects_update; intros ?; repeat split
  | |- respects _ _ (match ?x with _ => _ end) => destruct x
  end.

Ltac respects_walk := repeat respects_step.

Lemma led_task_respects l :
  respects same_registry (fun c => not_toggling c /\ not_reporting c) (led_task l).
Proof.
  unfold led_task, led_task_init, led_task_loop, array_get, gpio_init,
    gpio_set_dir, gpio_put, vTaskDelay.
  respects_walk; by repeat split.
Qed.

Lemma buzzer_task_respects p :
  respects same_registry (fun c => not_toggling c /\ not_reporting c) (buzzer_task p).
Proof.
  unfold buzzer_task, pwm_set_gpio_level, vTaskDelay.
  respects_walk; by repeat split.
Qed.

Lemma button_task_respects l :
  respects same_registry not_reporting (button_task l).
Proof.
  unfold button_task, button_task_init, button_task_loop, gpio_init,
    gpio_set_dir, gpio_pull_up, gpio_get, vTaskSuspend, vTaskResume, printf,
    vTaskDelay.
  respects_walk; by repeat split.
Qed.

Lemma oled_task_respects p :
  respects same_registry not_toggling (oled_task p).
Proof.
  unfold oled_task, oled_task_loop, query_state, eTaskGetState, sprintf,
    ssd1306_clear, ssd1306_draw_string, ssd1306_show, printf, vTaskDelay.
  respects_walk; by repeat split.
Qed.

(** ** The system under any schedule *)

Lemma run_state_blocked_self t n b w :
  tcbs w !! t = Some b -> run_state (Some t) (blocked_for t n w) = Running.
Proof.
  intros H. unfold run_state, blocked_for. by rewrite state_of_alter_eq, H.
Qed.

Lemma ready_running t w : ready t w = true -> run_state (Some t) w = Running.
Proof.
  unfold ready. intros H. apply bool_decide_eq_true_1 in H.
  unfold run_state. by rewrite H.
Qed.

Lemma flag_state_running f : flag_state f = Running -> f = false.
Proof. destruct f; [discriminate | reflexivity]. Qed.

Lemma run_state_tick h w : run_state h (tick w) = run_state h w.
Proof.
  destruct h as [t|]; [| reflexivity].
  unfold run_state, state_of, tick. cbn [tcbs with_tick with_tcbs].
  rewrite lookup_fmap. destruct (tcbs w !! t) as [b|]; [| reflexivity].
  cbn. unfold wake.
  destruct (bool_decide (eCurrentState b = eBlocked)) eqn:Hb; cbn [andb];
    [| reflexivity].
  apply bool_decide_eq_true_1 in Hb.
  destruct (xWakeTime b <=? xTickCount w + 1); [| reflexivity].
  cbn. rewrite Hb. reflexivity.
Qed.

Lemma flags_agree_registry_ok l w : flags_agree l w -> registry_ok w /\ both_valid w.
Proof.
  intros (HL & HB & Hl & Hb). split.
  - split; right.
    + split; [exact HL |]. destruct (run_state_known LED_Task w) as [b Hb'];
        [rewrite Hl; apply flag_state_known | eauto].
    + split; [exact HB |]. destruct (run_state_known Buzzer_Task w) as [b Hb'];
        [rewrite Hb; apply flag_state_known | eauto].
  - split; congruence.
Qed.

Lemma map_snd_stamp t w cs : map snd (stamp t w cs) = cs.
Proof.
  unfold stamp. rewrite map_map. cbn. apply map_id.
Qed.

(** Appending the calls of one segment keeps what [system_ok] says of the
    trace. *)
Lemma trace_ok_extend (t : task) (w : World) (tr : list event) (cs : list call) :
  Forall (fun e : event => is_toggle e.2 = true -> e.1.2 = Button_Task) tr ->
  Forall (fun e : event => draws_null_label e.2 = false) tr ->
  count_calls is_query (map snd tr) = (2 * count_calls is_clear (map snd tr))%nat ->
  (t <> Button_Task -> Forall not_toggling cs) ->
  Forall (fun c => draws_null_label c = false) cs ->
  count_calls is_query cs = (2 * count_calls is_clear cs)%nat ->
  Forall (fun e : event => is_toggle e.2 = true -> e.1.2 = Button_Task)
         (tr ++ stamp t w cs) /\
  Forall (fun e : event => draws_null_label e.2 = false) (tr ++ stamp t w cs) /\
  count_calls is_query (map snd (tr ++ stamp t w cs))
  = (2 * count_calls is_clear (map snd (tr ++ stamp t w cs)))%nat.
Proof.
  intros Htog Hnull Hcount Hcs_tog Hcs_null Hcs_count.
  split; [| split].
  - apply Forall_app. split; [exact Htog |].
    unfold stamp. apply Forall_map. 
    destruct (decide (t = Button_Task)) as [-> | Hne].
    + apply Forall_forall. intros c _ _. reflexivity.
    + eapply Forall_impl; [exact (Hcs_tog Hne) |].
      intros c Hc. cbn. unfold not_toggling in Hc. congruence.
  - apply Forall_app. split; [exact Hnull |].
    unfold stamp. apply Forall_map. exact Hcs_null.
  - unfold event in *. rewrite map_app, map_snd_stamp, !count_calls_app. lia.
Qed.

Lemma not_reporting_calls cs :
  Forall not_reporting cs ->
  Forall (fun c => draws_null_label c = false) cs /\
  count_calls is_query cs = 0%nat /\ count_calls is_clear cs = 0%nat.
Proof.
  induction 1 as [|c cs [Hq Hr] _ (IH1 & IH2 & IH3)]; [by repeat split |].
  split; [| split].
  - constructor; [| exact IH1]. destruct c; try reflexivity; discriminate.
  - cbn. rewrite Hq, IH2. reflexivity.
  - cbn. rewrite IH3. destruct c; try reflexivity; discriminate.
Qed.

(** A segment of [oled_task] that finds the registry filled in: it ends
    in the reporting loop, having made two queries and one full redraw. *)
Lemma oled_task_reports p w :
  registry_ok w -> both_valid w ->
  exists cs lines,
    oled_task p (Some OLED_Task) w
    = Done OledReporting
           (blocked_for OLED_Task 250 (with_display lines lines w)) cs /\
    count_calls is_query cs = 2%nat /\
    count_calls is_clear cs = 1%nat /\
    (run_state (xLedTaskHandle w) w <> Unknown ->
     run_state (xBuzzerTaskHandle w) w <> Unknown ->
     Forall (fun c => draws_null_label c = false) cs).
Proof.
  intros Hreg Hvalid.
  destruct (returns_Done _ _ _ _ (oled_task_loop_returns w Hreg))
    as ([] & w' & cs & Hrun & queries & -> & Hq & Hlen & ->).
  specialize (Hlen Hvalid).
  assert (Hcq : count_calls is_query queries = 2%nat).
  { clear Hrun. destruct queries as [|c1 [|c2 [|c3 rest]]]; try discriminate Hlen.
    apply Forall_cons in Hq as [H1 Hq]. apply Forall_cons in Hq as [H2 _].
    cbn. rewrite H1, H2. reflexivity. }
  assert (Hcc : count_calls is_clear queries = 0%nat).
  { clear Hrun Hlen Hcq. induction Hq as [|c cs Hc _ IH]; [reflexivity |].
    cbn. rewrite IH. destruct c; try discriminate Hc; reflexivity. }
  assert (Hnull : Forall (fun c => draws_null_label c = false) queries).
  { eapply Forall_impl; [exact Hq |]. intros c Hc.
    destruct c; try discriminate Hc; reflexivity. }
  destruct p.
  - eexists _, _. split; [| split; [| split]].
    + unfold oled_task, bind, read. rewrite (both_valid_decide w Hvalid).
      unfold printf, emit. rewrite Hrun. unfold ret. cbn [app].
      rewrite app_nil_r. reflexivity.
    + cbn [count_calls is_query]. rewrite count_calls_app, Hcq. reflexivity.
    + cbn [count_calls is_clear]. rewrite count_calls_app, Hcc. reflexivity.
    + intros Hl Hb. constructor; [reflexivity |].
      apply Forall_app. split; [exact Hnull |].
      destruct (run_state (xLedTaskHandle w) w), (run_state (xBuzzerTaskHandle w) w);
        try contradiction; repeat constructor.
  - eexists _, _. split; [| split; [| split]].
    + unfold oled_task, bind. rewrite Hrun. unfold ret.
      rewrite app_nil_r. reflexivity.
    + rewrite count_calls_app, Hcq. reflexivity.
    + rewrite count_calls_app, Hcc. reflexivity.
    + intros Hl Hb. apply Forall_app. split; [exact Hnull |].
      destruct (run_state (xLedTaskHandle w) w), (run_state (xBuzzerTaskHandle w) w);
        try contradiction; repeat constructor.
Qed.

Lemma flags_agree_blocked l t n w w0 :
  flags_agree l w ->
  run_state (Some t) w = Running ->
  tcbs w0 = tcbs w ->
  xLedTaskHandle w0 = xLedTaskHandle w ->
  xBuzzerTaskHandle w0 = xBuzzerTaskHandle w ->
  flags_agree l (blocked_for t n w0).
Proof.
  intros (HL & HB & Hl & Hb) Hrun Htcbs HL0 HB0.
  assert (Hsame : forall t', run_state (Some t') w0 = run_state (Some t') w).
  { intros t'. unfold run_state, state_of. by rewrite Htcbs. }
  assert (Hself : forall t', t' = t ->
            run_state (Some t') (blocked_for t n w0) = run_state (Some t') w).
  { intros t' ->. rewrite Hrun.
    destruct (run_state_known t w) as [b Hb']; [by rewrite Hrun |].
    eapply run_state_blocked_self. rewrite Htcbs. exact Hb'. }
  split; [by rewrite <- HL | split; [by rewrite <- HB | split]].
  - destruct (decide (LED_Task = t)) as [Heq | Hne].
    + rewrite (Hself _ Heq). exact Hl.
    + rewrite run_state_blocked_ne by exact Hne. rewrite Hsame. exact Hl.
  - destruct (decide (Buzzer_Task = t)) as [Heq | Hne].
    + rewrite (Hself _ Heq). exact Hb.
    + rewrite run_state_blocked_ne by exact Hne. rewrite Hsame. exact Hb.
Qed.

Lemma quiet_calls cs :
  Forall (fun c => not_toggling c /\ not_reporting c) cs ->
  Forall not_toggling cs /\ Forall not_reporting cs.
Proof.
  intros H. split; eapply Forall_impl; try exact H; intros c [? ?]; assumption.
Qed.

Lemma buzzer_task_on_returns w :
  buzzer_task BuzzerOn (Some Buzzer_Task) w
  = Done BuzzerOff
         (blocked_for Buzzer_Task 100 (with_pwm (insert BUZZER_A_PIN 2048) w))
         [call_pwm_set_gpio_level BUZZER_A_PIN 2048; call_vTaskDelay 100].
Proof. reflexivity. Qed.

Lemma buzzer_task_off_returns w :
  buzzer_task BuzzerOff (Some Buzzer_Task) w
  = Done BuzzerOn
         (blocked_for Buzzer_Task 900 (with_pwm (insert BUZZER_A_PIN 0) w))
         [call_pwm_set_gpio_level BUZZER_A_PIN 0; call_vTaskDelay 900].
Proof. reflexivity. Qed.

(** Every step from a good state succeeds and leads to a good state. *)
Lemma step_ok l s :
  system_ok s -> exists s', step l s = Some s' /\ system_ok s'.
Proof.
  intros (Hflags & Holed & Hidx & Htog & Hnull & Hcount).
  destruct l as [| gpio level | t].
  - eexists. split; [reflexivity |].
    split; [| exact (conj Holed (conj Hidx (conj Htog (conj Hnull Hcount))))].
    destruct Hflags as (HL & HB & Hl & Hb).
    split; [exact HL | split; [exact HB | split]];
      cbn [world with_world]; rewrite run_state_tick; assumption.
  - eexists. split; [reflexivity |].
    exact (conj Hflags (conj Holed (conj Hidx (conj Htog (conj Hnull Hcount))))).
  - unfold step. destruct (ready t (world s)) eqn:Hready;
      [| exists s; split; [reflexivity |];
         exact (conj Hflags (conj Holed (conj Hidx (conj Htog (conj Hnull Hcount)))))].
    apply ready_running in Hready.
    destruct t; unfold run_task, run_segment.
    + (* led_task *)
      pose proof (led_task_respects (led_state s) (Some LED_Task) (world s)) as Hresp.
      destruct (led_state s) as [started i] eqn:Hled. cbn in Hidx.
      destruct started.
      * rewrite (led_task_started_returns i (world s) Hidx) in *.
        destruct Hresp as [_ Hcs]. apply quiet_calls in Hcs as [Hcs1 Hcs2].
        apply not_reporting_calls in Hcs2 as (Hn & Hq & Hc).
        eexists. split; [reflexivity |].
        split; [| split; [exact Holed | split;
          [apply Z.mod_pos_bound; reflexivity |]]].
        { eapply (flags_agree_blocked _ _ _ (world s));
           [exact Hflags | exact Hready | reflexivity ..]. }
        apply trace_ok_extend; try assumption;
          first [by intros _ | by rewrite Hq, Hc].
      * rewrite (led_task_entry_returns i (world s)) in *.
        destruct Hresp as [_ Hcs]. apply quiet_calls in Hcs as [Hcs1 Hcs2].
        apply not_reporting_calls in Hcs2 as (Hn & Hq & Hc).
        eexists. split; [reflexivity |].
        split; [| split; [exact Holed | split; [by split |]]].
        { eapply (flags_agree_blocked _ _ _ (world s));
           [exact Hflags | exact Hready | reflexivity ..]. }
        apply trace_ok_extend; try assumption;
          first [by intros _ | by rewrite Hq, Hc].
    + (* buzzer_task *)
      pose proof (buzzer_task_respects (buzzer_state s) (Some Buzzer_Task) (world s))
        as Hresp.
      destruct (buzzer_state s);
        [rewrite buzzer_task_on_returns in * | rewrite buzzer_task_off_returns in *];
        destruct Hresp as [_ Hcs];
        apply quiet_calls in Hcs as [Hcs1 Hcs2];
        apply not_reporting_calls in Hcs2 as (Hn & Hq & Hc);
        (eexists; split; [reflexivity |]);
        (split;
         [eapply (flags_agree_blocked _ _ _ (world s));
          [exact Hflags | exact Hready | reflexivity ..]
         | split; [exact Holed | split; [exact Hidx |]]]);
        apply trace_ok_extend; try assumption;
        first [by intros _ | by rewrite Hq, Hc].
    + (* button_task *)
      pose proof (button_task_respects (button_state s) (Some Button_Task) (world s))
        as Hresp.
      destruct (returns_Done _ _ _ _ (button_task_returns _ _ Hflags))
        as (l' & w' & cs & Hrun & Hag & _).
      rewrite Hrun in *. destruct Hresp as [(_ & _ & Ho) Hcs].
      apply not_reporting_calls in Hcs as (Hn & Hq & Hc).
      eexists. split; [reflexivity |].
      split; [exact Hag | split; [cbn [world]; by rewrite Ho | split; [exact Hidx |]]].
      apply trace_ok_extend; try assumption;
        first [by intros [] | by rewrite Hq, Hc].
    + (* oled_task *)
      pose proof (oled_task_respects (oled_state s) (Some OLED_Task) (world s))
        as Hresp.
      destruct (flags_agree_registry_ok _ _ Hflags) as [Hreg Hvalid].
      destruct (oled_task_reports (oled_state s) (world s) Hreg Hvalid)
        as (cs & lines & Hrun & Hq & Hc & Hn).
      rewrite Hrun in *. destruct Hresp as [_ Hcs].
      eexists. split; [reflexivity |].
      split; [| split; [exact Holed | split; [exact Hidx |]]].
      { eapply (flags_agree_blocked _ _ _ (world s));
           [exact Hflags | exact Hready | reflexivity ..]. }
      apply trace_ok_extend; try assumption;
        [by intros _ | | by rewrite Hq, Hc].
      destruct Hflags as (HL & HB & Hl & Hb).
      apply Hn; [rewrite HL, Hl | rewrite HB, Hb]; apply flag_state_known.
Qed.

Lemma run_ok schedule : forall s,
  system_ok s -> exists s', run schedule s = Some s' /\ system_ok s'.
Proof.
  induction schedule as [|l rest IH]; intros s Hok.
  - exists s. split; [reflexivity | exact Hok].
  - destruct (step_ok l s Hok) as (s1 & Hstep & Hok1).
    destruct (IH s1 Hok1) as (s' & Hrun & Hok').
    exists s'. cbn [run]. rewrite Hstep. split; assumption.
Qed.

Lemma system_ok_start : system_ok (start started_world).
Proof.
  split; [exact flags_agree_started |].
  split; [reflexivity |]. split; [by split |].
  repeat split; constructor.
Qed.

(** No step of the running system writes a handle. *)
Lemma step_same_registry l s s' :
  step l s = Some s' -> same_registry (world s) (world s').
Proof.
  destruct l as [| gpio level | t]; cbn [step].
  - intros [= <-]. repeat split.
  - intros [= <-]. repeat split.
  - destruct (ready t (world s)); [| intros [= <-]; apply same_registry_refl].
    destruct t; unfold run_task, run_segment.
    + pose proof (led_task_respects (led_state s) (Some LED_Task) (world s)) as H.
      destruct (led_task (led_state s) (Some LED_Task) (world s));
        intros [= <-]; apply H.
    + pose proof (buzzer_task_respects (buzzer_state s) (Some Buzzer_Task) (world s))
        as H.
      destruct (buzzer_task (buzzer_state s) (Some Buzzer_Task) (world s));
        intros [= <-]; apply H.
    + pose proof (button_task_respects (button_state s) (Some Button_Task) (world s))
        as H.
      destruct (button_task (button_state s) (Some Button_Task) (world s));
        intros [= <-]; apply H.
    + pose proof (oled_task_respects (oled_state s) (Some OLED_Task) (world s)) as H.
      destruct (oled_task (oled_state s) (Some OLED_Task) (world s));
        intros [= <-]; apply H.
Qed.

Lemma spec_resumes_flag h w f :
  run_state h w = flag_state f -> f = spec_resumes h w.
Proof.
  intros H. unfold spec_resumes. rewrite H. destruct f; reflexivity.
Qed.

(** C9. In every state the system reaches from [main], under any
    schedule, the flags [led_task_suspended] and [buzzer_task_suspended]
    of [button_task] say what the run-states of the two tasks are; so the
    flag on which the code decides between resume and suspend equals the
    test the spec words, "the task's current run-state is Suspended".
    Every suspend and resume call in the trace was made by
    [button_task]. *)
Theorem flags_equal_run_states :
  forall (display_ok : bool) (heap_ok : task -> bool) (s0 : System)
         (schedule : list label),
    boot display_ok heap_ok = Some s0 ->
    exists s,
      run schedule s0 = Some s /\
      run_state (xLedTaskHandle (world s)) (world s)
      = flag_state (led_task_suspended (button_state s)) /\
      run_state (xBuzzerTaskHandle (world s)) (world s)
      = flag_state (buzzer_task_suspended (button_state s)) /\
      led_task_suspended (button_state s)
      = spec_resumes (xLedTaskHandle (world s)) (world s) /\
      buzzer_task_suspended (button_state s)
      = spec_resumes (xBuzzerTaskHandle (world s)) (world s) /\
      Forall (fun e : event => is_toggle e.2 = true -> e.1.2 = Button_Task)
             (trace s).
Proof.
  intros d h s0 schedule Hboot. apply boot_Some in Hboot as (-> & _ & _).
  destruct (run_ok schedule _ system_ok_start)
    as (s & Hrun & (HL & HB & Hl & Hb) & _ & _ & Htog & _).
  exists s. rewrite HL, HB.
  split; [exact Hrun |]. split; [exact Hl |]. split; [exact Hb |].
  split; [by apply spec_resumes_flag |]. split; [by apply spec_resumes_flag |].
  exact Htog.
Qed.

(** Button A goes down, the Control Task polls, time passes and the other
    tasks try to run. *)
Lemma flags_equal_run_states_witness :
  boot true all_created = Some (start started_world) /\
  exists s,
    run [Input BUTTON_A_PIN false; Run Button_Task; Run LED_Task; Tick;
         Run OLED_Task; Run Buzzer_Task]
        (start started_world) = Some s /\
    run_state (xLedTaskHandle (world s)) (world s)
    = flag_state (led_task_suspended (button_state s)) /\
    run_state (xBuzzerTaskHandle (world s)) (world s)
    = flag_state (buzzer_task_suspended (button_state s)) /\
    led_task_suspended (button_state s)
    = spec_resumes (xLedTaskHandle (world s)) (world s) /\
    buzzer_task_suspended (button_state s)
    = spec_resumes (xBuzzerTaskHandle (world s)) (world s) /\
    Forall (fun e : event => is_toggle e.2 = true -> e.1.2 = Button_Task)
           (trace s).
Proof.
  split; [exact boot_all_created |].
  exact (flags_equal_run_states true all_created (start started_world)
           [Input BUTTON_A_PIN false; Run Button_Task; Run LED_Task; Tick;
            Run OLED_Task; Run Buzzer_Task]
           boot_all_created).
Defined.

(** C10. The handles are [NULL] at reset, are written by [main] before
    the scheduler starts, and no step of the running system writes them
    again; so in every state reached from [main], under any schedule,
    both monitored handles are non-[NULL], [oled_task] has drawn no
    "Handle Nulo" label, and each of its reports made both of its
    run-state queries: the [NULL] branches of its loop are never taken. *)
Theorem null_branches_unreachable :
  forall (display_ok : bool) (heap_ok : task -> bool) (s0 : System)
         (schedule : list label),
    boot display_ok heap_ok = Some s0 ->
    (xLedTaskHandle power_on = None /\ xBuzzerTaskHandle power_on = None) /\
    (forall l s1 s2, step l s1 = Some s2 -> same_registry (world s1) (world s2)) /\
    exists s,
      run schedule s0 = Some s /\
      xLedTaskHandle (world s) = Some LED_Task /\
      xBuzzerTaskHandle (world s) = Some Buzzer_Task /\
      Forall (fun e : event => draws_null_label e.2 = false) (trace s) /\
      count_calls is_query (map snd (trace s))
      = (2 * count_calls is_clear (map snd (trace s)))%nat.
Proof.
  intros d h s0 schedule Hboot. apply boot_Some in Hboot as (-> & _ & _).
  split; [by split |]. split; [exact step_same_registry |].
  destruct (run_ok schedule _ system_ok_start)
    as (s & Hrun & (HL & HB & _ & _) & _ & _ & _ & Hnull & Hcount).
  exists s. repeat split; assumption.
Qed.

(** The Status Task reports, button A goes down and the LED task is
    suspended; a quarter of a second later the Status Task reports
    again. *)
Lemma null_branches_unreachable_witness :
  boot true all_created = Some (start started_world) /\
  (xLedTaskHandle power_on = None /\ xBuzzerTaskHandle power_on = None) /\
  (forall l s1 s2, step l s1 = Some s2 -> same_registry (world s1) (world s2)) /\
  exists s,
    run ([Run OLED_Task; Input BUTTON_A_PIN false; Run Button_Task]
         ++ repeat Tick 250 ++ [Run OLED_Task])
        (start started_world) = Some s /\
    xLedTaskHandle (world s) = Some LED_Task /\
    xBuzzerTaskHandle (world s) = Some Buzzer_Task /\
    Forall (fun e : event => draws_null_label e.2 = false) (trace s) /\
    count_calls is_query (map snd (trace s))
    = (2 * count_calls is_clear (map snd (trace s)))%nat.
Proof.
  split; [exact boot_all_created |].
  exact (null_branches_unreachable true all_created (start started_world)
           ([Run OLED_Task; Input BUTTON_A_PIN false; Run Button_Task]
            ++ repeat Tick 250 ++ [Run OLED_Task])
           boot_all_created).
Defined.

(** The ideal scheduler serves the tasks in the order of the priorities
    [main] gave them. *)
Lemma ideal_order_by_priority :
  map (fun t => priority_of t (start started_world)) ideal_order
  = [Some 2; Some 1; Some 1; Some 1].
Proof. vm_compute. reflexivity. Qed.

(** C6, as the code has it.  [buzzer_task] repeats a two-phase cycle:
    duty 2048 for 100 ms, then duty 0 for 900 ms, 1000 ms in all.  Under
    the ideal scheduler, 1200 ms after start-up with no button touched,
    the Pulse Task has completed exactly one full on/off cycle, and the
    Indicator has made three index steps (at 0, 500 and 1000 ms, the index
    being advanced at the start of each period): two of its 500 ms
    periods have fully elapsed and the index is back at 0. *)
Theorem buzzer_cycle_and_first_1200ms :
  (forall w,
      buzzer_task BuzzerOn (Some Buzzer_Task) w
      = Done BuzzerOff
             (blocked_for Buzzer_Task (pdMS_TO_TICKS 100)
                          (with_pwm (insert BUZZER_A_PIN 2048) w))
             [call_pwm_set_gpio_level BUZZER_A_PIN 2048;
              call_vTaskDelay (pdMS_TO_TICKS 100)]) /\
  (forall w,
      buzzer_task BuzzerOff (Some Buzzer_Task) w
      = Done BuzzerOn
             (blocked_for Buzzer_Task (pdMS_TO_TICKS 900)
                          (with_pwm (insert BUZZER_A_PIN 0) w))
             [call_pwm_set_gpio_level BUZZER_A_PIN 0;
              call_vTaskDelay (pdMS_TO_TICKS 900)]) /\
  pdMS_TO_TICKS 100 + pdMS_TO_TICKS 900 = pdMS_TO_TICKS 1000 /\
  exists s,
    after_ms 1200 = Some s /\
    buzzer_cycles s = 1%nat /\
    led_periods s = 2%nat /\
    led_index_steps s = 3%nat /\
    current_color_index (led_state s) = 0.
Proof.
  split; [intros w; reflexivity |]. split; [intros w; reflexivity |].
  split; [reflexivity |].
  destruct (after_ms 1200) as [s|] eqn:Hs; [| vm_compute in Hs; discriminate Hs].
  exists s. split; [reflexivity |].
  vm_compute in Hs. injection Hs as <-.
  repeat split; vm_compute; reflexivity.
Qed.

(** After 1200 ms the Indicator has not made exactly two index steps. *)
Lemma indicator_steps_after_1200ms_not_two :
  ~ (exists s,
        after_ms 1200 = Some s /\
        buzzer_cycles s = 1%nat /\
        led_index_steps s = 2%nat).
Proof.
  intros (s & Hs & _ & Hsteps).
  vm_compute in Hs. injection Hs as <-.
  vm_compute in Hsteps. discriminate Hsteps.
Qed.

(** ** Facts about runs *)

Ltac unfold_tasks :=
  unfold led_task, led_task_init, led_task_loop, buzzer_task, button_task,
    button_task_init, button_task_loop, oled_task, oled_task_loop,
    query_state, eTaskGetState, sprintf, ssd1306_clear, ssd1306_draw_string,
    ssd1306_show, printf, gpio_init, gpio_set_dir, gpio_pull_up, gpio_put,
    gpio_get, pwm_set_gpio_level, vTaskDelay, vTaskSuspend, vTaskResume.

(** A property kept by every step is kept by every run. *)
Lemma run_preserves (I : System -> Prop) :
  (forall l s s', I s -> step l s = Some s' -> I s') ->
  forall schedule s s', I s -> run schedule s = Some s' -> I s'.
Proof.
  intros Hstep. induction schedule as [|l rest IH]; intros s s' HI Hrun.
  - injection Hrun as <-. exact HI.
  - cbn [run] in Hrun. destruct (step l s) as [s1|] eqn:Hs; [| discriminate Hrun].
    eapply IH; [| exact Hrun]. eapply Hstep; eassumption.
Qed.

Lemma step_ok_Some l s s' : system_ok s -> step l s = Some s' -> system_ok s'.
Proof.
  intros Hok Hstep. destruct (step_ok l s Hok) as (s'' & Hs'' & Hok').
  congruence.
Qed.


(** ** The handles [button_task] acts on *)

Section Maintains.
Variable Inv : World -> Prop.
Variable P : call -> Prop.

Lemma maintains_ret {A} (a : A) : maintains Inv P (ret a).
Proof. intros self w HI. by split. Qed.

Lemma maintains_bind {A B} (m : M A) (k : A -> M B) :
  maintains Inv P m -> (forall a, maintains Inv P (k a)) ->
  maintains Inv P (bind m k).
Proof.
  intros Hm Hk self w HI. unfold bind. specialize (Hm self w HI).
  destruct (m self w) as [a w1 cs1 | |]; [| exact Hm | exact I].
  destruct Hm as [HI1 Hcs1]. specialize (Hk a self w1 HI1).
  destruct (k a self w1) as [b w2 cs2 | w2 cs2 |]; [| | exact I];
    (split; [apply Hk | apply Forall_app; split; [exact Hcs1 | apply Hk]]).
Qed.

(** What is read from a world that satisfies [I] is all the rest has to
    cope with. *)
Lemma maintains_read_bind {A B} (f : World -> A) (k : A -> M B) :
  (forall w0, Inv w0 -> maintains Inv P (k (f w0))) ->
  maintains Inv P (bind (read f) k).
Proof.
  intros Hk self w HI. unfold bind, read. specialize (Hk w HI self w HI).
  destruct (k (f w) self w); [| | exact I]; exact Hk.
Qed.

Lemma maintains_emit c : P c -> maintains Inv P (emit c).
Proof. intros Hc self w HI. split; [exact HI | by constructor]. Qed.

Lemma maintains_update f : (forall w, Inv w -> Inv (f w)) -> maintains Inv P (update f).
Proof. intros Hf self w HI. split; [by apply Hf | constructor]. Qed.

Lemma maintains_myself : maintains Inv P myself.
Proof. intros self w HI. by split. Qed.

Lemma maintains_fault {A} : maintains Inv P (@fault A).
Proof. intros self w HI. exact I. Qed.

Lemma maintains_stall {A} : maintains Inv P (@stall A).
Proof. intros self w HI. by split. Qed.

Lemma maintains_for_each indices body :
  (forall i, maintains Inv P (body i)) -> maintains Inv P (for_each indices body).
Proof.
  intros Hbody. induction indices as [|i rest IH]; cbn [for_each].
  - apply maintains_ret.
  - apply maintains_bind; [apply Hbody | intros _; exact IH].
Qed.

Lemma maintains_array_get {B} (a : list Z) (i : Z) (k : Z -> M B) :
  (forall x, maintains Inv P (k x)) -> maintains Inv P (bind (array_get a i) k).
Proof.
  intros Hk. apply maintains_bind; [| exact Hk].
  intros self w HI. unfold array_get.
  destruct (a !! Z.to_nat i); [| exact I].
  destruct (0 <=? i); [by split | exact I].
Qed.
End Maintains.

Ltac maintains_walk :=
  repeat lazymatch goal with
    | |- forall _, _ => intros ?
    | |- maintains _ _ (ret _) => apply maintains_ret
    | |- maintains _ _ (bind (array_get _ _) _) => apply maintains_array_get
    | |- maintains _ _ (bind (read _) _) =>
        let H := fresh "Hinv" in
        apply maintains_read_bind; intros ? H;
        try rewrite (proj1 H); try rewrite (proj1 (proj2 H))
    | |- maintains _ _ (bind _ _) => apply maintains_bind
    | |- maintains _ _ myself => apply maintains_myself
    | |- maintains _ _ fault => apply maintains_fault
    | |- maintains _ _ stall => apply maintains_stall
    | |- maintains _ _ (for_each _ _) => apply maintains_for_each
    | |- maintains _ _ (emit _) => apply maintains_emit
    | |- maintains _ _ (update _) => apply maintains_update
    | |- maintains _ _ (match ?x with _ => _ end) => destruct x eqn:?
    end.

Lemma control_ok_alter (f : TCB -> TCB) t w :
  (t = Button_Task ->
   forall b, RunState_of (eCurrentState b) = Running ->
             RunState_of (eCurrentState (f b)) = Running) ->
  control_ok w -> control_ok (with_tcbs (alter f t) w).
Proof.
  intros Hf (HL & HB & Hrun). split; [exact HL | split; [exact HB |]].
  destruct (decide (t = Button_Task)) as [-> | Hne].
  - destruct (run_state_known Button_Task w) as [b Hb]; [by rewrite Hrun |].
    rewrite (run_state_tcb _ _ _ Hb) in Hrun.
    unfold run_state. rewrite state_of_alter_eq, Hb. cbn. by apply Hf.
  - rewrite run_state_alter_ne by congruence. exact Hrun.
Qed.

Ltac control_solve :=
  first [ exact I
        | by left | by right
        | apply control_ok_alter; [first [discriminate | by intros] | assumption]
        | assumption
        | by (match goal with H : control_ok _ |- _ => destruct H as (? & ? & ?) end;
              repeat split) ].

Lemma led_task_maintains l : maintains control_ok toggles_monitored (led_task l).
Proof. unfold_tasks. maintains_walk; control_solve. Qed.

Lemma buzzer_task_maintains p :
  maintains control_ok toggles_monitored (buzzer_task p).
Proof. unfold_tasks. maintains_walk; control_solve. Qed.

Lemma button_task_maintains l :
  maintains control_ok toggles_monitored (button_task l).
Proof. unfold_tasks. maintains_walk; control_solve. Qed.

Lemma oled_task_maintains p :
  maintains control_ok toggles_monitored (oled_task p).
Proof. unfold_tasks. maintains_walk; control_solve. Qed.

Lemma step_control l s s' :
  control_ok (world s) -> step l s = Some s' ->
  control_ok (world s') /\
  exists new, trace s' = trace s ++ new /\
              Forall (fun e : event => toggles_monitored e.2) new.
Proof.
  intros Hc Hstep. destruct l as [| gpio level | t]; cbn [step] in Hstep.
  - injection Hstep as <-. split; [| exists []; by rewrite app_nil_r].
    destruct Hc as (HL & HB & Hrun). split; [exact HL | split; [exact HB |]].
    cbn [with_world world]. by rewrite run_state_tick.
  - injection Hstep as <-. split; [exact Hc | exists []; by rewrite app_nil_r].
  - destruct (ready t (world s));
      [| injection Hstep as <-; split; [exact Hc | exists []; by rewrite app_nil_r]].
    destruct t; unfold run_task, run_segment in Hstep.
    + pose proof (led_task_maintains (led_state s) (Some LED_Task) (world s) Hc)
        as H.
      destruct (led_task (led_state s) (Some LED_Task) (world s));
        try discriminate Hstep; injection Hstep as <-; destruct H as [H1 H2];
        (split; [exact H1 | eexists; split; [reflexivity | by apply Forall_map]]).
    + pose proof (buzzer_task_maintains (buzzer_state s) (Some Buzzer_Task)
                    (world s) Hc) as H.
      destruct (buzzer_task (buzzer_state s) (Some Buzzer_Task) (world s));
        try discriminate Hstep; injection Hstep as <-; destruct H as [H1 H2];
        (split; [exact H1 | eexists; split; [reflexivity | by apply Forall_map]]).
    + pose proof (button_task_maintains (button_state s) (Some Button_Task)
                    (world s) Hc) as H.
      destruct (button_task (button_state s) (Some Button_Task) (world s));
        try discriminate Hstep; injection Hstep as <-; destruct H as [H1 H2];
        (split; [exact H1 | eexists; split; [reflexivity | by apply Forall_map]]).
    + pose proof (oled_task_maintains (oled_state s) (Some OLED_Task) (world s) Hc)
        as H.
      destruct (oled_task (oled_state s) (Some OLED_Task) (world s));
        try discriminate Hstep; injection Hstep as <-; destruct H as [H1 H2];
        (split; [exact H1 | eexists; split; [reflexivity | by apply Forall_map]]).
Qed.

Lemma step_toggles_monitored l s s' :
  control_ok (world s) /\ Forall (fun e : event => toggles_monitored e.2) (trace s) ->
  step l s = Some s' ->
  control_ok (world s') /\ Forall (fun e : event => toggles_monitored e.2) (trace s').
Proof.
  intros [Hc Htr] Hstep.
  destruct (step_control l s s' Hc Hstep) as (Hc' & new & -> & Hnew).
  split; [exact Hc' | by apply Forall_app].
Qed.

(** C2. The Control Task never meets an invalid handle: in every state the
    system reaches from [main], under any schedule and whatever the
    buttons do, the registry holds the handles of the LED task and of the
    buzzer task, every suspend and resume call made so far was made on one
    of these two handles, and the Control Task itself is not suspended. *)
Theorem button_task_toggles_valid_handles_only :
  forall (display_ok : bool) (heap_ok : task -> bool) (s0 : System)
         (schedule : list label),
    boot display_ok heap_ok = Some s0 ->
    exists s,
      run schedule s0 = Some s /\
      xLedTaskHandle (world s) = Some LED_Task /\
      xBuzzerTaskHandle (world s) = Some Buzzer_Task /\
      Forall (fun e : event => toggles_monitored e.2) (trace s) /\
      run_state (Some Button_Task) (world s) = Running.
Proof.
  intros d h s0 schedule Hboot. apply boot_Some in Hboot as (-> & _ & _).
  destruct (run_ok schedule _ system_ok_start) as (s & Hrun & _).
  exists s. split; [exact Hrun |].
  destruct (run_preserves
              (fun s => control_ok (world s) /\
                        Forall (fun e : event => toggles_monitored e.2) (trace s))
              step_toggles_monitored schedule (start started_world) s)
    as ((HL & HB & Hbutton) & Htr); [| exact Hrun |].
  - split; [by repeat split | constructor].
  - exact (conj HL (conj HB (conj Htr Hbutton))).
Qed.

Lemma button_task_toggles_valid_handles_only_witness :
  boot true all_created = Some (start started_world) /\
  exists s,
    run press_A_and_hold (start started_world) = Some s /\
    xLedTaskHandle (world s) = Some LED_Task /\
    xBuzzerTaskHandle (world s) = Some Buzzer_Task /\
    Forall (fun e : event => toggles_monitored e.2) (trace s) /\
    run_state (Some Button_Task) (world s) = Running.
Proof.
  split; [exact boot_all_created |].
  exact (button_task_toggles_valid_handles_only true all_created
           (start started_world) press_A_and_hold boot_all_created).
Defined.

(** With a [NULL] handle the toggle is not skipped: the poll that sees the
    rising edge makes a suspend call all the same. *)
Lemma null_handle_toggle_not_skipped :
  ~ (exists cs,
       calls_of (button_poll (false, true) button_entry null_registry_world)
       = Some cs /\
       count_calls is_toggle cs = 0%nat).
Proof.
  intros (cs & Hcs & Hnone). vm_compute in Hcs. injection Hcs as <-.
  vm_compute in Hnone. discriminate Hnone.
Qed.
(** * Further properties of the program *)

(** ** [main], [SSD1306_Init] and [buzzer_pwm_init] *)

Lemma heap_cases (h : task -> bool) :
  (forall t, h t = true) \/ (exists t, h t = false).
Proof.
  destruct (h LED_Task) eqn:H1; [| right; eauto].
  destruct (h Buzzer_Task) eqn:H2; [| right; eauto].
  destruct (h Button_Task) eqn:H3; [| right; eauto].
  destruct (h OLED_Task) eqn:H4; [| right; eauto].
  left. intros []; assumption.
Qed.

(** X1. [main] starts the scheduler exactly when the display answered and
    all four tasks were created, and then [vTaskStartScheduler] is its
    last call; in every other case it ends in one of its [while(1);]
    traps without having called [vTaskStartScheduler]. *)
Theorem main_starts_scheduler_iff_all_ready :
  forall (display_ok : bool) (heap_ok : task -> bool),
    match main display_ok heap_ok None power_on with
    | Done _ w cs =>
        display_ok = true /\ (forall t, heap_ok t = true) /\
        last cs = Some call_vTaskStartScheduler /\
        count_calls is_start cs = 1%nat
    | Stalled w cs =>
        (display_ok = false \/ exists t, heap_ok t = false) /\
        count_calls is_start cs = 0%nat
    | Fault => False
    end.
Proof.
  intros d h. rewrite main_heap.
  destruct d, (h LED_Task) eqn:H1, (h Buzzer_Task) eqn:H2,
           (h Button_Task) eqn:H3, (h OLED_Task) eqn:H4;
    vm_compute;
    first
      [ split; [reflexivity |]; split; [intros []; assumption |];
        split; reflexivity
      | split; [| reflexivity]; first [left; reflexivity | right; eauto] ].
Qed.

(** X2. When the display answers but a task cannot be created, [main]
    still attempts all four creations, leaves each handle [NULL] or set
    according to whether its own task was created, shows "Erro Task!" on
    the panel and halts. *)
Theorem main_halts_on_creation_failure :
  forall (heap_ok : task -> bool),
    (exists t, heap_ok t = false) ->
    exists w cs,
      main true heap_ok None power_on = Stalled w cs /\
      count_calls is_create cs = 4%nat /\
      display_panel w = [(0, 0, 1, "Erro Task!")] /\
      xLedTaskHandle w = handle_after heap_ok LED_Task /\
      xBuzzerTaskHandle w = handle_after heap_ok Buzzer_Task /\
      xOledTaskHandle w = handle_after heap_ok OLED_Task /\
      (forall t, is_Some (tcbs w !! t) <-> heap_ok t = true).
Proof.
  intros h [t0 Ht0]. rewrite main_heap. unfold handle_after.
  destruct (h LED_Task) eqn:H1, (h Buzzer_Task) eqn:H2,
           (h Button_Task) eqn:H3, (h OLED_Task) eqn:H4;
    try (destruct t0; congruence);
    (eexists _, _; split; [vm_compute; reflexivity |];
     split; [reflexivity |]; split; [reflexivity |];
     split; [reflexivity |]; split; [reflexivity |]; split; [reflexivity |];
     intros []; rewrite ?H1, ?H2, ?H3, ?H4; vm_compute;
     split;
     first [intros _; reflexivity | intros _; eexists; reflexivity
           | intros [? [=]] | intros [=]]).
Qed.

Lemma main_halts_on_creation_failure_witness :
  (exists t, no_room_for_buzzer t = false) /\
  exists w cs,
    main true no_room_for_buzzer None power_on = Stalled w cs /\
    count_calls is_create cs = 4%nat /\
    display_panel w = [(0, 0, 1, "Erro Task!")] /\
    xLedTaskHandle w = handle_after no_room_for_buzzer LED_Task /\
    xBuzzerTaskHandle w = handle_after no_room_for_buzzer Buzzer_Task /\
    xOledTaskHandle w = handle_after no_room_for_buzzer OLED_Task /\
    (forall t, is_Some (tcbs w !! t) <-> no_room_for_buzzer t = true).
Proof.
  assert (H : exists t, no_room_for_buzzer t = false)
    by (exists Buzzer_Task; reflexivity).
  split; [exact H |].
  exact (main_halts_on_creation_failure no_room_for_buzzer H).
Defined.

(** X3. When the display does not answer, [main] halts inside
    [SSD1306_Init]: no task is created, the handles stay [NULL], nothing
    is drawn, and the buzzer's PWM is never set up. *)
Theorem main_halts_on_display_failure :
  forall (heap_ok : task -> bool),
    exists w cs,
      main false heap_ok None power_on = Stalled w cs /\
      last cs = Some (call_printf ("Falha ao inicializar SSD1306!" +:+ newline)) /\
      count_calls is_create cs = 0%nat /\
      count_calls is_render cs = 0%nat /\
      tcbs w = ∅ /\
      xLedTaskHandle w = None /\ xBuzzerTaskHandle w = None /\
      xOledTaskHandle w = None /\
      display_panel w = [] /\
      pwm_level w = ∅.
Proof.
  intros h. eexists _, _. split; [reflexivity |].
  repeat split; reflexivity.
Qed.

(** ** Who writes what *)

Lemma agree_on_refl {A} (f : World -> A) w : agree_on f w w.
Proof. reflexivity. Qed.

Lemma agree_on_trans {A} (f : World -> A) w1 w2 w3 :
  agree_on f w1 w2 -> agree_on f w2 w3 -> agree_on f w1 w3.
Proof. unfold agree_on. congruence. Qed.

(** Reading an element of an array and going on with it: the element is
    one of the array's. *)
Lemma respects_array_get (R : World -> World -> Prop) (P : call -> Prop)
    {B} (a : list Z) (i : Z) (f : Z -> M B) :
  (forall x, x ∈ a -> respects R P (f x)) ->
  respects R P (bind (array_get a i) f).
Proof.
  intros Hf self w. unfold bind, array_get.
  destruct (a !! Z.to_nat i) as [x|] eqn:Hx; [| exact I].
  destruct (0 <=? i); [| exact I]. cbn.
  apply list_elem_of_lookup_2 in Hx. specialize (Hf x Hx self w).
  destruct (f x self w); exact Hf.
Qed.

(** Walking through task code for any relation whose reflexivity and
    transitivity [side] proves. *)
Ltac frame_walk side :=
  repeat lazymatch goal with
    | |- forall _, _ => intros ?
    | |- respects _ _ (ret _) => apply respects_ret; [side]
    | |- respects _ _ (bind (array_get _ _) _) => apply respects_array_get
    | |- respects _ _ (bind _ _) => apply respects_bind; [side | |]
    | |- respects _ _ (read _) => apply respects_read; [side]
    | |- respects _ _ myself => apply respects_myself; [side]
    | |- respects _ _ fault => apply respects_fault
    | |- respects _ _ stall => apply respects_stall; [side]
    | |- respects _ _ (for_each _ _) => apply respects_for_each; [side | side |]
    | |- respects _ _ (emit _) => apply respects_emit; [side |]
    | |- respects _ _ (update _) => apply respects_update; intros ?
    | |- respects _ _ (match ?x with _ => _ end) => destruct x
    end.

Ltac agree_side := first [apply agree_on_refl | apply agree_on_trans].
Ltac any_side := intros; exact I.

Lemma led_task_frame l :
  respects (agree_on led_frame) (fun _ => True) (led_task l).
Proof. unfold_tasks. frame_walk agree_side; first [exact I | reflexivity]. Qed.

Lemma buzzer_task_frame p :
  respects (agree_on buzzer_frame) (fun _ => True) (buzzer_task p).
Proof. unfold_tasks. frame_walk agree_side; first [exact I | reflexivity]. Qed.

Lemma button_task_frame l :
  respects (agree_on button_frame) (fun _ => True) (button_task l).
Proof. unfold_tasks. frame_walk agree_side; first [exact I | reflexivity]. Qed.

Lemma oled_task_frame p :
  respects (agree_on oled_frame) (fun _ => True) (oled_task p).
Proof. unfold_tasks. frame_walk agree_side; first [exact I | reflexivity]. Qed.

Lemma led_task_owns l :
  respects (fun _ _ => True) (owns LED_Task) (led_task l).
Proof.
  unfold_tasks. frame_walk any_side;
    first [exact I | assumption | by split | reflexivity].
Qed.

Lemma buzzer_task_owns p :
  respects (fun _ _ => True) (owns Buzzer_Task) (buzzer_task p).
Proof.
  unfold_tasks. frame_walk any_side;
    first [exact I | by split; [| left] | by split; [| right]
          | by left | by right].
Qed.

Lemma button_task_owns l :
  respects (fun _ _ => True) (owns Button_Task) (button_task l).
Proof.
  unfold_tasks. frame_walk any_side;
    first [exact I | by left | by right | by split; [left |]
          | by split; [right |] | reflexivity].
Qed.

Lemma oled_task_owns p :
  respects (fun _ _ => True) (owns OLED_Task) (oled_task p).
Proof.
  unfold_tasks. frame_walk any_side;
    first [exact I | by left | by right
          | by split; [| split; [left |]] | by split; [| split; [right |]]].
Qed.

(** What a step can change, label by label. *)
Lemma step_effects l s s' :
  step l s = Some s' ->
  match l with
  | Tick => s' = with_world (tick (world s)) s
  | Input g lv => s' = with_world (with_gpio_in (insert g lv) (world s)) s
  | Run t =>
      s' = s \/
      (ready t (world s) = true /\
       match t with
       | LED_Task =>
           agree_on led_frame (world s) (world s') /\
           buzzer_state s' = buzzer_state s /\
           button_state s' = button_state s /\ oled_state s' = oled_state s
       | Buzzer_Task =>
           agree_on buzzer_frame (world s) (world s') /\
           led_state s' = led_state s /\
           button_state s' = button_state s /\ oled_state s' = oled_state s
       | Button_Task =>
           agree_on button_frame (world s) (world s') /\
           led_state s' = led_state s /\
           buzzer_state s' = buzzer_state s /\ oled_state s' = oled_state s
       | OLED_Task =>
           agree_on oled_frame (world s) (world s') /\
           led_state s' = led_state s /\
           buzzer_state s' = buzzer_state s /\ button_state s' = button_state s
       end)
  end.
Proof.
  destruct l as [| g lv | t]; cbn [step].
  - by intros [= <-].
  - by intros [= <-].
  - destruct (ready t (world s)) eqn:Hready; [| intros [= <-]; by left].
    intros Hrun. right. split; [reflexivity |].
    destruct t; unfold run_task, run_segment in Hrun.
    + pose proof (led_task_frame (led_state s) (Some LED_Task) (world s)) as H.
      destruct (led_task (led_state s) (Some LED_Task) (world s));
        try discriminate Hrun; injection Hrun as <-; destruct H as [H _];
        by repeat split.
    + pose proof (buzzer_task_frame (buzzer_state s) (Some Buzzer_Task) (world s))
        as H.
      destruct (buzzer_task (buzzer_state s) (Some Buzzer_Task) (world s));
        try discriminate Hrun; injection Hrun as <-; destruct H as [H _];
        by repeat split.
    + pose proof (button_task_frame (button_state s) (Some Button_Task) (world s))
        as H.
      destruct (button_task (button_state s) (Some Button_Task) (world s));
        try discriminate Hrun; injection Hrun as <-; destruct H as [H _];
        by repeat split.
    + pose proof (oled_task_frame (oled_state s) (Some OLED_Task) (world s)) as H.
      destruct (oled_task (oled_state s) (Some OLED_Task) (world s));
        try discriminate Hrun; injection Hrun as <-; destruct H as [H _];
        by repeat split.
Qed.

(** ** The calls of each task *)

Lemma step_owns l s s' :
  step l s = Some s' ->
  exists new, trace s' = trace s ++ new /\
              Forall (fun e : event => owns e.1.2 e.2) new.
Proof.
  destruct l as [| g lv | t]; cbn [step].
  - intros [= <-]. exists []. by rewrite app_nil_r.
  - intros [= <-]. exists []. by rewrite app_nil_r.
  - destruct (ready t (world s)); [| intros [= <-]; exists []; by rewrite app_nil_r].
    intros Hrun. destruct t; unfold run_task, run_segment in Hrun.
    + pose proof (led_task_owns (led_state s) (Some LED_Task) (world s)) as H.
      destruct (led_task (led_state s) (Some LED_Task) (world s));
        try discriminate Hrun; injection Hrun as <-; destruct H as [_ H];
        (eexists; split; [reflexivity |]); by apply Forall_map.
    + pose proof (buzzer_task_owns (buzzer_state s) (Some Buzzer_Task) (world s))
        as H.
      destruct (buzzer_task (buzzer_state s) (Some Buzzer_Task) (world s));
        try discriminate Hrun; injection Hrun as <-; destruct H as [_ H];
        (eexists; split; [reflexivity |]); by apply Forall_map.
    + pose proof (button_task_owns (button_state s) (Some Button_Task) (world s))
        as H.
      destruct (button_task (button_state s) (Some Button_Task) (world s));
        try discriminate Hrun; injection Hrun as <-; destruct H as [_ H];
        (eexists; split; [reflexivity |]); by apply Forall_map.
    + pose proof (oled_task_owns (oled_state s) (Some OLED_Task) (world s)) as H.
      destruct (oled_task (oled_state s) (Some OLED_Task) (world s));
        try discriminate Hrun; injection Hrun as <-; destruct H as [_ H];
        (eexists; split; [reflexivity |]); by apply Forall_map.
Qed.

(** X4. Whatever state the system is in and however it is scheduled, each
    task makes only the calls of its own job: [led_task] configures and
    drives pins of [LED_PINS] only and delays 500 ms; [buzzer_task] sets
    only the buzzer's PWM level, to 0 or 2048, and delays 100 or 900 ms;
    [button_task] configures and reads only the two button pins, suspends
    and resumes, prints, and delays 100 ms; [oled_task] queries states,
    draws at (0,0) and (0,10), prints, and delays 10 or 250 ms. *)
Theorem each_task_makes_only_its_own_calls :
  forall (schedule : list label) (s s' : System),
    run schedule s = Some s' ->
    exists new,
      trace s' = trace s ++ new /\
      Forall (fun e : event => owns e.1.2 e.2) new.
Proof.
  induction schedule as [|l rest IH]; intros s s' Hrun.
  - injection Hrun as <-. exists []. by rewrite app_nil_r.
  - cbn [run] in Hrun. destruct (step l s) as [s1|] eqn:Hs; [| discriminate Hrun].
    destruct (step_owns l s s1 Hs) as (new1 & Ht1 & Hn1).
    destruct (IH s1 s' Hrun) as (new2 & Ht2 & Hn2).
    exists (new1 ++ new2). rewrite Ht2, Ht1, app_assoc.
    split; [reflexivity | by apply Forall_app].
Qed.

Lemma each_task_makes_only_its_own_calls_witness :
  run ideal_round (start started_world) = Some after_first_round /\
  exists new,
    trace after_first_round = trace (start started_world) ++ new /\
    Forall (fun e : event => owns e.1.2 e.2) new.
Proof.
  assert (H : run ideal_round (start started_world) = Some after_first_round)
    by (vm_compute; reflexivity).
  split; [exact H |].
  exact (each_task_makes_only_its_own_calls ideal_round (start started_world)
           after_first_round H).
Defined.

(** ** One writer for each peripheral *)

Lemma step_keeps_led l s s' :
  step l s = Some s' ->
  l <> Run LED_Task \/ ready LED_Task (world s) = false ->
  gpio_out (world s') = gpio_out (world s) /\ led_state s' = led_state s.
Proof.
  intros Hstep Hnot. apply step_effects in Hstep.
  destruct l as [| g lv | t]; [by subst | by subst |].
  destruct Hstep as [-> | [Hready H]]; [by split |].
  destruct t.
  - destruct Hnot as [Hne | Hnr]; [by destruct Hne | congruence].
  - destruct H as (Hf & Hl & _). unfold agree_on, buzzer_frame in Hf.
    by injection Hf as -> _ _ _.
  - destruct H as (Hf & Hl & _). unfold agree_on, button_frame in Hf.
    by injection Hf as -> _ _ _ _.
  - destruct H as (Hf & Hl & _). unfold agree_on, oled_frame in Hf.
    by injection Hf as -> _ _.
Qed.

Lemma step_keeps_buzzer l s s' :
  step l s = Some s' ->
  l <> Run Buzzer_Task \/ ready Buzzer_Task (world s) = false ->
  pwm_level (world s') = pwm_level (world s) /\ buzzer_state s' = buzzer_state s.
Proof.
  intros Hstep Hnot. apply step_effects in Hstep.
  destruct l as [| g lv | t]; [by subst | by subst |].
  destruct Hstep as [-> | [Hready H]]; [by split |].
  destruct t.
  - destruct H as (Hf & Hb & _). unfold agree_on, led_frame in Hf.
    by injection Hf as -> _ _ _.
  - destruct Hnot as [Hne | Hnr]; [by destruct Hne | congruence].
  - destruct H as (Hf & _ & Hb & _). unfold agree_on, button_frame in Hf.
    by injection Hf as _ -> _ _ _.
  - destruct H as (Hf & _ & Hb & _). unfold agree_on, oled_frame in Hf.
    by injection Hf as _ -> _.
Qed.

Lemma step_keeps_display l s s' :
  step l s = Some s' ->
  l <> Run OLED_Task \/ ready OLED_Task (world s) = false ->
  display_panel (world s') = display_panel (world s) /\
  display_buffer (world s') = display_buffer (world s) /\
  oled_state s' = oled_state s.
Proof.
  intros Hstep Hnot. apply step_effects in Hstep.
  destruct l as [| g lv | t]; [by subst | by subst |].
  destruct Hstep as [-> | [Hready H]]; [by repeat split |].
  destruct t.
  - destruct H as (Hf & _ & _ & Ho). unfold agree_on, led_frame in Hf.
    by injection Hf as _ -> -> _.
  - destruct H as (Hf & _ & _ & Ho). unfold agree_on, buzzer_frame in Hf.
    by injection Hf as _ -> -> _.
  - destruct H as (Hf & _ & _ & Ho). unfold agree_on, button_frame in Hf.
    by injection Hf as _ _ -> -> _.
  - destruct Hnot as [Hne | Hnr]; [by destruct Hne | congruence].
Qed.


(** X5. Each peripheral has one writer.  From any state, a run in which
    [led_task] does not run leaves the GPIO output levels and the LED
    index as they were; one in which [buzzer_task] does not run leaves the
    PWM levels and the buzzer's phase; one in which [oled_task] does not
    run leaves the display's buffer and panel. *)
Theorem each_peripheral_has_one_writer :
  forall (schedule : list label) (s s' : System),
    run schedule s = Some s' ->
    (Run LED_Task ∉ schedule ->
     gpio_out (world s') = gpio_out (world s) /\ led_state s' = led_state s) /\
    (Run Buzzer_Task ∉ schedule ->
     pwm_level (world s') = pwm_level (world s) /\
     buzzer_state s' = buzzer_state s) /\
    (Run OLED_Task ∉ schedule ->
     display_panel (world s') = display_panel (world s) /\
     display_buffer (world s') = display_buffer (world s) /\
     oled_state s' = oled_state s).
Proof.
  induction schedule as [|l rest IH]; intros s s' Hrun.
  - injection Hrun as <-. by repeat split.
  - cbn [run] in Hrun. destruct (step l s) as [s1|] eqn:Hs; [| discriminate Hrun].
    destruct (IH s1 s' Hrun) as (IHl & IHb & IHo).
    split; [| split]; intros Hnot; apply not_elem_of_cons in Hnot as [Hne Hrest].
    + destruct (IHl Hrest) as [-> ->].
      apply (step_keeps_led l s s1 Hs). left. congruence.
    + destruct (IHb Hrest) as [-> ->].
      apply (step_keeps_buzzer l s s1 Hs). left. congruence.
    + destruct (IHo Hrest) as (-> & -> & ->).
      apply (step_keeps_display l s s1 Hs). left. congruence.
Qed.

Lemma each_peripheral_has_one_writer_witness :
  run buttons_and_buzzer (start started_world) = Some after_buttons_and_buzzer /\
  (Run LED_Task ∉ buttons_and_buzzer ->
   gpio_out (world after_buttons_and_buzzer) = gpio_out (world (start started_world)) /\
   led_state after_buttons_and_buzzer = led_state (start started_world)) /\
  (Run Buzzer_Task ∉ buttons_and_buzzer ->
   pwm_level (world after_buttons_and_buzzer)
   = pwm_level (world (start started_world)) /\
   buzzer_state after_buttons_and_buzzer = buzzer_state (start started_world)) /\
  (Run OLED_Task ∉ buttons_and_buzzer ->
   display_panel (world after_buttons_and_buzzer)
   = display_panel (world (start started_world)) /\
   display_buffer (world after_buttons_and_buzzer)
   = display_buffer (world (start started_world)) /\
   oled_state after_buttons_and_buzzer = oled_state (start started_world)).
Proof.
  assert (H : run buttons_and_buzzer (start started_world)
              = Some after_buttons_and_buzzer)
    by (vm_compute; reflexivity).
  split; [exact H |].
  exact (each_peripheral_has_one_writer buttons_and_buzzer (start started_world)
           after_buttons_and_buzzer H).
Defined.

(** ** The buzzer's duty in every reachable state *)

Lemma step_buzzer_level l s s' :
  pwm_level (world s) !! BUZZER_A_PIN = Some (buzzer_level (buzzer_state s)) ->
  step l s = Some s' ->
  pwm_level (world s') !! BUZZER_A_PIN = Some (buzzer_level (buzzer_state s')).
Proof.
  intros Hlevel Hstep.
  destruct (decide (l = Run Buzzer_Task /\ ready Buzzer_Task (world s) = true))
    as [[-> Hready] | Hnot].
  - cbn [step] in Hstep. rewrite Hready in Hstep.
    unfold run_task, run_segment in Hstep.
    destruct (buzzer_state s);
      [rewrite buzzer_task_on_returns in Hstep
      | rewrite buzzer_task_off_returns in Hstep];
      injection Hstep as <-; cbn; by rewrite lookup_insert_eq.
  - assert (Hkeep : l <> Run Buzzer_Task \/ ready Buzzer_Task (world s) = false).
    { destruct (decide (l = Run Buzzer_Task)) as [-> | Hne]; [| by left].
      right. destruct (ready Buzzer_Task (world s)); [| reflexivity].
      exfalso. apply Hnot. by split. }
    destruct (step_keeps_buzzer l s s' Hstep Hkeep) as [Hp Hb].
    rewrite Hp, Hb. exact Hlevel.
Qed.

(** X7. In every state the system reaches from [main], the buzzer's duty
    is either 0 or 2048, and it is 2048 exactly when [buzzer_task] stands
    between its write of 2048 and its write of 0. *)
Theorem buzzer_duty_follows_phase :
  forall (display_ok : bool) (heap_ok : task -> bool) (s0 : System)
         (schedule : list label),
    boot display_ok heap_ok = Some s0 ->
    exists s,
      run schedule s0 = Some s /\
      pwm_level (world s) !! BUZZER_A_PIN = Some (buzzer_level (buzzer_state s)) /\
      (pwm_level (world s) !! BUZZER_A_PIN = Some 2048
       <-> buzzer_state s = BuzzerOff).
Proof.
  intros d h s0 schedule Hboot. apply boot_Some in Hboot as (-> & _ & _).
  destruct (run_ok schedule _ system_ok_start) as (s & Hrun & _).
  assert (Hlevel : pwm_level (world s) !! BUZZER_A_PIN
                   = Some (buzzer_level (buzzer_state s))).
  { apply (run_preserves
             (fun s => pwm_level (world s) !! BUZZER_A_PIN
                       = Some (buzzer_level (buzzer_state s)))
             step_buzzer_level schedule (start started_world) s);
      [reflexivity | exact Hrun]. }
  exists s. split; [exact Hrun |]. split; [exact Hlevel |].
  rewrite Hlevel. destruct (buzzer_state s); cbn; split; intros H;
    first [reflexivity | discriminate H].
Qed.

Lemma buzzer_duty_follows_phase_witness :
  boot true all_created = Some (start started_world) /\
  exists s,
    run (ideal_schedule 50) (start started_world) = Some s /\
    pwm_level (world s) !! BUZZER_A_PIN = Some (buzzer_level (buzzer_state s)) /\
    (pwm_level (world s) !! BUZZER_A_PIN = Some 2048
     <-> buzzer_state s = BuzzerOff).
Proof.
  split; [exact boot_all_created |].
  exact (buzzer_duty_follows_phase true all_created (start started_world)
           (ideal_schedule 50) boot_all_created).
Defined.

(** ** The panel *)

(** A segment of [oled_task] that finds the registry filled in leaves a
    complete status frame on the panel. *)
Lemma oled_task_panel p w :
  registry_ok w -> both_valid w ->
  exists cs,
    oled_task p (Some OLED_Task) w
    = Done OledReporting
           (blocked_for OLED_Task 250
              (with_display
                 (status_frame (run_state (xLedTaskHandle w) w)
                               (run_state (xBuzzerTaskHandle w) w))
                 (status_frame (run_state (xLedTaskHandle w) w)
                               (run_state (xBuzzerTaskHandle w) w)) w)) cs.
Proof.
  intros Hreg Hvalid.
  destruct (returns_Done _ _ _ _ (oled_task_loop_returns w Hreg))
    as ([] & w' & cs & Hrun & queries & -> & _ & _ & ->).
  destruct p; eexists.
  - unfold oled_task, bind, read. rewrite (both_valid_decide w Hvalid).
    unfold printf, emit. rewrite Hrun. reflexivity.
  - unfold oled_task, bind. rewrite Hrun. reflexivity.
Qed.

Lemma flag_state_cases f : flag_state f = Running \/ flag_state f = Suspended.
Proof. destruct f; [by right | by left]. Qed.

Lemma step_panel l s s' :
  system_ok s /\ panel_ok s -> step l s = Some s' ->
  system_ok s' /\ panel_ok s'.
Proof.
  intros [Hok Hpanel] Hstep. split; [by eapply step_ok_Some |].
  destruct (decide (l = Run OLED_Task /\ ready OLED_Task (world s) = true))
    as [[-> Hready] | Hnot].
  - cbn [step] in Hstep. rewrite Hready in Hstep.
    unfold run_task, run_segment in Hstep.
    destruct Hok as (Hflags & _).
    destruct (flags_agree_registry_ok _ _ Hflags) as [Hreg Hvalid].
    destruct (oled_task_panel (oled_state s) (world s) Hreg Hvalid) as (cs & Hrun).
    rewrite Hrun in Hstep. injection Hstep as <-.
    destruct Hflags as (HL & HB & Hl & Hb).
    unfold panel_ok. cbn [oled_state world].
    eexists _, _. split; [| split; [| reflexivity]].
    + rewrite HL, Hl. apply flag_state_cases.
    + rewrite HB, Hb. apply flag_state_cases.
  - assert (Hkeep : l <> Run OLED_Task \/ ready OLED_Task (world s) = false).
    { destruct (decide (l = Run OLED_Task)) as [-> | Hne]; [| by left].
      right. destruct (ready OLED_Task (world s)); [| reflexivity].
      exfalso. apply Hnot. by split. }
    destruct (step_keeps_display l s s' Hstep Hkeep) as (Hp & _ & Ho).
    unfold panel_ok. rewrite Hp, Ho. exact Hpanel.
Qed.

(** X8. In every state the system reaches from [main] the panel shows a
    complete frame: the start-up message "Display Init..." until
    [oled_task] has made its first report, and from then on two status
    lines whose labels are "Run" or "Suspended"; never a half-drawn
    frame, "Erro Task!" or "Handle Nulo". *)
Theorem panel_always_shows_a_complete_frame :
  forall (display_ok : bool) (heap_ok : task -> bool) (s0 : System)
         (schedule : list label),
    boot display_ok heap_ok = Some s0 ->
    exists s,
      run schedule s0 = Some s /\
      match oled_state s with
      | OledWaiting => display_panel (world s) = boot_frame
      | OledReporting =>
          exists led buzzer,
            (led = Running \/ led = Suspended) /\
            (buzzer = Running \/ buzzer = Suspended) /\
            display_panel (world s) = status_frame led buzzer
      end.
Proof.
  intros d h s0 schedule Hboot. apply boot_Some in Hboot as (-> & _ & _).
  destruct (run_ok schedule _ system_ok_start) as (s & Hrun & _).
  exists s. split; [exact Hrun |].
  apply (run_preserves (fun s => system_ok s /\ panel_ok s) step_panel
           schedule (start started_world) s); [| exact Hrun].
  split; [exact system_ok_start | reflexivity].
Qed.

Lemma panel_always_shows_a_complete_frame_witness :
  boot true all_created = Some (start started_world) /\
  exists s,
    run (press_A_and_hold ++ [Run OLED_Task]) (start started_world) = Some s /\
    match oled_state s with
    | OledWaiting => display_panel (world s) = boot_frame
    | OledReporting =>
        exists led buzzer,
          (led = Running \/ led = Suspended) /\
          (buzzer = Running \/ buzzer = Suspended) /\
          display_panel (world s) = status_frame led buzzer
    end.
Proof.
  split; [exact boot_all_created |].
  exact (panel_always_shows_a_complete_frame true all_created
           (start started_world) (press_A_and_hold ++ [Run OLED_Task])
           boot_all_created).
Defined.

(** X9. The two [sprintf] calls of [oled_task] never overflow their
    25-byte buffers, whatever state the kernel reports: the longest text,
    "Task Buzz: Suspended", takes 21 bytes with its terminator. *)
Theorem status_texts_fit_their_buffers :
  forall (st : eTaskState) (self : option task) (w : World),
    sprintf 25 (status_text "Task LED: " "LED: Handle Nulo" st) self w
    = Done (status_text "Task LED: " "LED: Handle Nulo" st) w [] /\
    sprintf 25 (status_text "Task Buzz: " "Buzzer: Handle Nulo" st) self w
    = Done (status_text "Task Buzz: " "Buzzer: Handle Nulo" st) w [] /\
    (String.length (status_text "Task LED: " "LED: Handle Nulo" st) <= 19)%nat /\
    (String.length (status_text "Task Buzz: " "Buzzer: Handle Nulo" st) <= 20)%nat.
Proof.
  intros st self w. destruct st; repeat split; vm_compute; try reflexivity;
    repeat constructor.
Qed.

(** ** Suspension *)















(** * The passes, action by action *)

(** ** Run without interruption, the actions of a pass are the pass *)

Lemma bind_ext {A B} (m : M A) (f g : A -> M B) self w :
  (forall a self w, f a self w = g a self w) ->
  bind m f self w = bind m g self w.
Proof.
  intros Hfg. unfold bind. destruct (m self w) as [a w1 cs1 | |]; try reflexivity.
  by rewrite Hfg.
Qed.

Lemma bind_assoc {A B C} (m : M A) (f : A -> M B) (g : B -> M C) self w :
  bind (bind m f) g self w = bind m (fun a => bind (f a) g) self w.
Proof.
  unfold bind. destruct (m self w) as [a w1 cs1 | |]; try reflexivity.
  destruct (f a self w1) as [b w2 cs2 | |]; try reflexivity.
  destruct (g b self w2) as [c w3 cs3 | |]; try reflexivity;
    by rewrite app_assoc.
Qed.

Lemma bind_ret_r {A} (m : M A) self w : bind m ret self w = m self w.
Proof.
  unfold bind, ret. destruct (m self w); try reflexivity. by rewrite app_nil_r.
Qed.

Lemma bind_ret_l {A B} (a : A) (f : A -> M B) self w :
  bind (ret a) f self w = f a self w.
Proof. unfold bind, ret. destruct (f a self w); reflexivity. Qed.

Lemma to_M_pbind {A B} (p : proc A) (f : A -> proc B) self w :
  to_M (pbind p f) self w = bind (to_M p) (fun a => to_M (f a)) self w.
Proof.
  revert self w. induction p as [a | C m k IH | m p IH]; intros self w;
    cbn [pbind to_M].
  - by rewrite bind_ret_l.
  - rewrite bind_assoc. apply bind_ext. intros b self' w'. apply IH.
  - rewrite bind_assoc. apply bind_ext. intros _ self' w'. apply IH.
Qed.

Lemma to_M_act {B} (m : M B) self w : to_M (act m) self w = m self w.
Proof. cbn [act to_M]. apply bind_ret_r. Qed.

Lemma to_M_blocking (m : M unit) self w : to_M (blocking m) self w = m self w.
Proof.
  cbn [blocking to_M]. unfold bind, ret.
  destruct (m self w) as [[] w1 cs1 | |]; try reflexivity.
  by rewrite app_nil_r.
Qed.

Lemma same_M_bind {A B} (m m' : M A) (f f' : A -> M B) :
  same_M m m' -> (forall a, same_M (f a) (f' a)) -> same_M (bind m f) (bind m' f').
Proof.
  intros Hm Hf self w. unfold bind. rewrite Hm.
  destruct (m' self w) as [a w1 cs1 | |]; try reflexivity. by rewrite Hf.
Qed.

Lemma same_M_pbind {A B} (p : proc A) (f : A -> proc B) (m : M A) (g : A -> M B) :
  same_M (to_M p) m -> (forall a, same_M (to_M (f a)) (g a)) ->
  same_M (to_M (pbind p f)) (bind m g).
Proof.
  intros Hp Hf self w. rewrite to_M_pbind. by apply same_M_bind.
Qed.

Lemma same_M_act {B} (m : M B) : same_M (to_M (act m)) m.
Proof. intros self w. apply to_M_act. Qed.

Lemma same_M_blocking (m : M unit) : same_M (to_M (blocking m)) m.
Proof. intros self w. apply to_M_blocking. Qed.

Lemma same_M_Finish {A} (a : A) : same_M (to_M (Finish a)) (ret a).
Proof. by intros self w. Qed.

Lemma same_M_pfor_each indices body body' :
  (forall i, same_M (to_M (body i)) (body' i)) ->
  same_M (to_M (pfor_each indices body)) (for_each indices body').
Proof.
  intros Hbody. induction indices as [|i rest IH]; cbn [pfor_each for_each].
  - apply same_M_Finish.
  - apply same_M_pbind; [apply Hbody | intros _; exact IH].
Qed.

Ltac same_walk :=
  repeat lazymatch goal with
    | |- forall _, _ => intros ?
    | |- same_M (to_M (pbind _ _)) (bind _ _) => apply same_M_pbind
    | |- same_M (to_M (pfor_each _ _)) (for_each _ _) => apply same_M_pfor_each
    | |- same_M (to_M (act _)) _ => apply same_M_act
    | |- same_M (to_M (blocking _)) _ => apply same_M_blocking
    | |- same_M (to_M (Finish _)) (ret _) => apply same_M_Finish
    | |- same_M (to_M (match ?x with _ => _ end)) _ => destruct x
    end.

Lemma led_task_steps_pass l : same_M (to_M (led_task_steps l)) (led_task l).
Proof.
  unfold led_task_steps, led_task, led_task_loop_steps, led_task_loop,
    led_task_init_steps, led_task_init.
  same_walk.
Qed.

Lemma buzzer_task_steps_pass p : same_M (to_M (buzzer_task_steps p)) (buzzer_task p).
Proof. unfold buzzer_task_steps, buzzer_task. same_walk. Qed.

Lemma button_task_steps_pass l :
  same_M (to_M (button_task_steps l)) (button_task l).
Proof.
  unfold button_task_steps, button_task, button_task_loop_steps,
    button_task_loop, button_task_init_steps, button_task_init.
  same_walk.
Qed.

Lemma oled_task_steps_pass p : same_M (to_M (oled_task_steps p)) (oled_task p).
Proof.
  unfold oled_task_steps, oled_task, oled_task_loop_steps, oled_task_loop,
    query_state_steps, query_state.
  same_walk.
Qed.

(** Run from its first action to its last without interruption, the pass
    of each task is the pass that [step] runs. *)
Theorem steps_are_the_passes :
  (forall l, same_M (to_M (led_task_steps l)) (led_task l)) /\
  (forall p, same_M (to_M (buzzer_task_steps p)) (buzzer_task p)) /\
  (forall l, same_M (to_M (button_task_steps l)) (button_task l)) /\
  (forall p, same_M (to_M (oled_task_steps p)) (oled_task p)).
Proof.
  split; [exact led_task_steps_pass |]. split; [exact buzzer_task_steps_pass |].
  split; [exact button_task_steps_pass | exact oled_task_steps_pass].
Qed.

(** ** Every pass is sound *)

Lemma live_kept t w w' : live w -> kept t w w' -> live w'.
Proof.
  intros (HL & HB & HtL & HtB) ((EL & EB & _) & (_ & Hk) & _).
  split; [congruence | split; [congruence | split; by apply Hk]].
Qed.

Lemma kept_refl t w : kept t w w.
Proof. split; [by repeat split | split; [by split | reflexivity]]. Qed.

Lemma kept_alter t (f : TCB -> TCB) t' w :
  kept t w (with_tcbs (alter f t') w).
Proof.
  split; [by repeat split | split; [| reflexivity]].
  split; [reflexivity |]. intros t0 Ht0. cbn.
  destruct (decide (t' = t0)) as [-> | Hne].
  - rewrite lookup_alter_eq. by apply fmap_is_Some.
  - by rewrite lookup_alter_ne.
Qed.

Lemma ready_alter_ne t t' f w :
  t <> t' -> ready t (with_tcbs (alter f t') w) = ready t w.
Proof. intros Hne. unfold ready. by rewrite state_of_alter_ne. Qed.

Lemma ready_delayed t (x : Z) w :
  ready t (with_tcbs (alter (fun b => set_wake x (set_state eBlocked b)) t) w)
  = false.
Proof.
  unfold ready. rewrite state_of_alter_eq.
  destruct (tcbs w !! t); by apply bool_decide_eq_false_2.
Qed.

Lemma live_state_of_led w : live w -> exists st, state_of LED_Task w = Some st.
Proof.
  intros (_ & _ & [b Hb] & _). exists (eCurrentState b).
  unfold state_of. by rewrite Hb.
Qed.

Lemma live_state_of_buzzer w :
  live w -> exists st, state_of Buzzer_Task w = Some st.
Proof.
  intros (_ & _ & _ & [b Hb]). exists (eCurrentState b).
  unfold state_of. by rewrite Hb.
Qed.

(** The three kernel calls on the handle of another task. *)
Lemma vTaskResume_other t' t w :
  t <> t' -> is_Some (state_of t' w) ->
  exists w',
    vTaskResume (Some t') (Some t) w = Done tt w' [call_vTaskResume (Some t')] /\
    kept t w w' /\ ready t w' = ready t w.
Proof.
  intros Hne [st Hst]. unfold vTaskResume, bind, emit, myself, read.
  rewrite Hst. destruct st; try (exists w; split; [reflexivity |];
                                 split; [apply kept_refl | reflexivity]).
  rewrite decide_False by congruence. unfold update. eexists.
  split; [reflexivity |]. split; [apply kept_alter | by apply ready_alter_ne].
Qed.

Lemma vTaskSuspend_other t' t w :
  t <> t' -> is_Some (state_of t' w) ->
  exists w',
    vTaskSuspend (Some t') (Some t) w = Done tt w' [call_vTaskSuspend (Some t')] /\
    kept t w w' /\ ready t w' = ready t w.
Proof.
  intros Hne [st Hst]. unfold vTaskSuspend, bind, emit, myself, read, update, ret.
  rewrite Hst. cbn. rewrite decide_False by congruence. eexists.
  split; [reflexivity |]. split; [apply kept_alter | by apply ready_alter_ne].
Qed.

Lemma eTaskGetState_other t' t w :
  t <> t' -> is_Some (state_of t' w) ->
  exists st,
    eTaskGetState (Some t') (Some t) w
    = Done st w [call_eTaskGetState (Some t') st].
Proof.
  intros Hne [st Hst]. unfold eTaskGetState, bind, emit, myself, read, ret.
  rewrite Hst. cbn. rewrite decide_False by congruence. by exists st.
Qed.

Lemma vTaskDelay_blocks t d w :
  0 < d ->
  exists w',
    vTaskDelay d (Some t) w = Done tt w' [call_vTaskDelay d] /\
    kept t w w' /\ ready t w' = false.
Proof.
  intros Hd. unfold vTaskDelay, bind, emit, myself, update.
  destruct (0 <? d) eqn:Hlt; [| lia]. eexists. split; [reflexivity |].
  split; [apply kept_alter | apply ready_delayed].
Qed.

(** The last action of every pass. *)
Lemma sound_delay {A} t (F : A -> Prop) n d (a : A) :
  0 < d -> F a -> sound t F (S n) (Block (vTaskDelay d) (Finish a)).
Proof.
  intros Hd Ha w Hlive Hready.
  destruct (vTaskDelay_blocks t d w Hd) as (w' & -> & Hk & ->).
  split; [exact Hk |]. split; [by exists d | exact Ha].
Qed.

(** An action that returns at once, leaves the caller ready and keeps what
    it has to. *)
Lemma sound_act {A B} t (F : A -> Prop) n (m : M B) (k : B -> proc A) :
  (forall w, live w -> ready t w = true ->
     exists b w' cs,
       m (Some t) w = Done b w' cs /\ kept t w w' /\ ready t w' = true /\
       sound t F n (k b)) ->
  sound t F (S n) (Act m k).
Proof.
  intros H w Hlive Hready.
  destruct (H w Hlive Hready) as (b & w' & cs & -> & Hk & Hr & Hs).
  exact (conj Hk (conj Hr Hs)).
Qed.

Lemma sound_suspend_other {A} t (F : A -> Prop) n t' (p : proc A) :
  t <> t' -> (t' = LED_Task \/ t' = Buzzer_Task) ->
  sound t F n p -> sound t F (S n) (Block (vTaskSuspend (Some t')) p).
Proof.
  intros Hne Ht' Hp w Hlive Hready.
  assert (Hst : is_Some (state_of t' w)).
  { destruct Ht' as [-> | ->];
      [exact (live_state_of_led w Hlive) | exact (live_state_of_buzzer w Hlive)]. }
  destruct (vTaskSuspend_other t' t w Hne Hst) as (w' & -> & Hk & Hr).
  split; [exact Hk |]. by rewrite Hr, Hready.
Qed.

Lemma sound_mono {A} t (F : A -> Prop) (p : proc A) :
  forall n n', (n <= n')%nat -> sound t F n p -> sound t F n' p.
Proof.
  induction p as [a | B m k IH | m p IH]; intros n n' Hle Hs.
  - destruct Hs.
  - destruct n as [|n]; [destruct Hs |]. destruct n' as [|n']; [lia |].
    intros w Hlive Hready. specialize (Hs w Hlive Hready).
    destruct (m (Some t) w) as [b w' cs | |]; try exact Hs.
    destruct Hs as (Hk & Hr & Hs). split; [exact Hk | split; [exact Hr |]].
    apply (IH b n n'); [lia | exact Hs].
  - destruct n as [|n]; [destruct Hs |]. destruct n' as [|n']; [lia |].
    intros w Hlive Hready. specialize (Hs w Hlive Hready).
    destruct (m (Some t) w) as [b w' cs | w' cs |]; try exact Hs;
      (destruct Hs as (Hk & Hs); split; [exact Hk |];
       destruct (ready t w'); [apply (IH n n'); [lia | exact Hs] | exact Hs]).
Qed.

(** Walking through a pass: each action is run in an arbitrary live world
    in which its task is ready. *)
Ltac kept_solve :=
  first [ apply kept_refl
        | apply kept_alter
        | split; [by repeat split | split; [by split |]];
          first [by intros _ | by intros H; exfalso; apply H] ].

Ltac sound_simple :=
  apply sound_act;
  let w := fresh "w" in
  let Hlive := fresh "Hlive" in
  let Hready := fresh "Hready" in
  intros w Hlive Hready;
  eexists _, _, _;
  split; [reflexivity |];
  split; [kept_solve |];
  split; [exact Hready |];
  try rewrite (proj1 Hlive); try rewrite (proj1 (proj2 Hlive));
  try clear w Hlive Hready.

Ltac sound_walk :=
  repeat (cbn [pbind act blocking pfor_each];
          lazymatch goal with
          | |- context [decide (Some ?x <> None)] =>
              rewrite (decide_True (P := Some x <> None)) by discriminate
          | |- sound _ _ _ (Block (vTaskDelay _) (Finish _)) =>
              apply sound_delay; [reflexivity | try exact I]
          | |- sound _ _ _ (Block (vTaskSuspend (Some _)) _) =>
              apply sound_suspend_other; [discriminate | by (left + right) |]
          | |- sound ?t _ _ (Act (vTaskResume (Some ?t')) _) =>
              apply sound_act;
              let w := fresh "w" in
              let Hlive := fresh "Hlive" in
              let Hready := fresh "Hready" in
              intros w Hlive Hready;
              let H := fresh in
              assert (H : is_Some (state_of t' w))
                by (first [exact (live_state_of_led w Hlive)
                          | exact (live_state_of_buzzer w Hlive)]);
              let w' := fresh "w'" in
              let Hk := fresh "Hk" in
              let Hr := fresh "Hr" in
              destruct (vTaskResume_other t' t w ltac:(discriminate) H)
                as (w' & -> & Hk & Hr);
              eexists _, _, _; split; [reflexivity |];
              split; [exact Hk |]; split; [by rewrite Hr |];
              try clear w w' Hlive Hready H Hk Hr
          | |- sound ?t _ _ (Act (eTaskGetState (Some ?t')) _) =>
              apply sound_act;
              let w := fresh "w" in
              let Hlive := fresh "Hlive" in
              let Hready := fresh "Hready" in
              intros w Hlive Hready;
              let H := fresh in
              assert (H : is_Some (state_of t' w))
                by (first [exact (live_state_of_led w Hlive)
                          | exact (live_state_of_buzzer w Hlive)]);
              let st := fresh "st" in
              destruct (eTaskGetState_other t' t w ltac:(discriminate) H)
                as (st & ->);
              eexists _, _, _; split; [reflexivity |];
              split; [apply kept_refl |]; split; [exact Hready |];
              try clear w Hlive Hready H
          | |- sound _ _ _ (Act (sprintf _ (status_text _ _ ?st)) _) =>
              first [is_var st; destruct st | sound_simple]
          | |- sound _ _ _ (Act _ _) => sound_simple
          | |- sound _ _ _ (pbind (pbind (match ?x with _ => _ end) _) _) =>
              destruct x eqn:?
          | |- sound _ _ _ (pbind (match ?x with _ => _ end) _) => destruct x eqn:?
          | |- sound _ _ _ (if ?b then _ else _) => destruct b eqn:?
          | |- sound _ _ _ (match ?x with _ => _ end) => destruct x eqn:?
          end).

Lemma buzzer_task_sound p :
  sound Buzzer_Task (fun _ => True) 2 (buzzer_task_steps p).
Proof. destruct p; unfold buzzer_task_steps; sound_walk. Qed.

Lemma button_task_sound l :
  sound Button_Task (fun _ => True) 15 (button_task_steps l).
Proof.
  unfold button_task_steps, button_task_loop_steps, button_task_init_steps.
  sound_walk.
Qed.

Lemma oled_task_sound p :
  sound OLED_Task (fun _ => True) 14 (oled_task_steps p).
Proof.
  unfold oled_task_steps, oled_task_loop_steps, query_state_steps.
  destruct p; sound_walk.
Qed.

Lemma led_index_cases l :
  led_index_ok l ->
  current_color_index l = 0 \/ current_color_index l = 1 \/
  current_color_index l = 2.
Proof. unfold led_index_ok. change NUM_COLORS with 3. lia. Qed.

Lemma led_task_sound l :
  led_index_ok l -> sound LED_Task led_index_ok 17 (led_task_steps l).
Proof.
  intros Hl. destruct l as [started i].
  unfold led_task_steps, led_task_loop_steps, led_task_init_steps.
  cbn [led_started current_color_index]. destruct started.
  - destruct (led_index_cases _ Hl) as [Hi | [Hi | Hi]];
      cbn [current_color_index] in Hi; subst i;
      sound_walk; by vm_compute.
  - change (seqZ 0 NUM_COLORS) with [0; 1; 2].
    sound_walk; by vm_compute.
Qed.

(** ** The LED pins along a pass of [led_task] *)

Lemma led_levels_insert pin value g :
  led_levels (<[pin := value]> g) = set_level pin value (led_levels g).
Proof.
  unfold led_levels, set_level, LED_PINS. cbn [map zip_with].
  repeat f_equal;
    (match goal with |- _ !! ?p = _ => destruct (decide (p = pin)) as [-> | Hne] end;
     [by rewrite lookup_insert_eq | by rewrite lookup_insert_ne]).
Qed.

Lemma led_levels_length g : length (led_levels g) = 3%nat.
Proof. reflexivity. Qed.

Lemma lit_active g : length (active_channels g) = lit (led_levels g).
Proof.
  unfold active_channels, lit, led_levels, LED_PINS.
  destruct (g !! LED_R_PIN) as [[]|] eqn:HR, (g !! LED_G_PIN) as [[]|] eqn:HG,
           (g !! LED_B_PIN) as [[]|] eqn:HB;
    cbn [map];
    rewrite ?(filter_cons_True _ _ _ (eq_refl : Some true = Some true));
    repeat (first [rewrite filter_cons_True by (first [exact HR | exact HG | exact HB | reflexivity])
                  | rewrite filter_cons_False by (rewrite ?HR, ?HG, ?HB; discriminate)
                  | rewrite filter_cons_False by discriminate]);
    reflexivity.
Qed.

Lemma one_hot_active g i :
  0 <= i < NUM_COLORS -> led_levels g = one_hot i ->
  active_channels g = [channel i].
Proof.
  change NUM_COLORS with 3. intros Hi Hv.
  unfold led_levels, LED_PINS in Hv. cbn [map] in Hv.
  assert (i = 0 \/ i = 1 \/ i = 2) as [-> | [-> | ->]] by lia;
    [change (one_hot 0) with [Some true; Some false; Some false] in Hv
    |change (one_hot 1) with [Some false; Some true; Some false] in Hv
    |change (one_hot 2) with [Some false; Some false; Some true] in Hv];
    injection Hv as HR HG HB;
    unfold active_channels, LED_PINS;
    repeat (first [rewrite filter_cons_True by (first [exact HR | exact HG | exact HB])
                  | rewrite filter_cons_False
                      by (first [rewrite HR | rewrite HG | rewrite HB]; discriminate)]);
    reflexivity.
Qed.

Lemma led_sound_array_get i x k v up :
  LED_PINS !! Z.to_nat i = Some x -> 0 <= i ->
  (up = true -> (lit v <= 1)%nat) ->
  led_sound (k x) v up ->
  led_sound (Act (array_get LED_PINS i) k) v up.
Proof.
  intros Hx Hi Hlit Hk. split; [exact Hlit |]. intros w Hv.
  unfold array_get. rewrite Hx. destruct (Z.leb_spec 0 i); [| lia].
  unfold ret. cbn [existsb]. rewrite Hv, orb_false_r. exact Hk.
Qed.

Lemma led_sound_emit c k v up :
  ends_set_up c = false ->
  (up = true -> (lit v <= 1)%nat) ->
  led_sound (k tt) v up ->
  led_sound (Act (emit c) k) v up.
Proof.
  intros Hc Hlit Hk. split; [exact Hlit |]. intros w Hv.
  unfold emit. cbn [existsb]. rewrite Hv, Hc, !orb_false_r. exact Hk.
Qed.

Lemma led_sound_gpio_put pin value k v up :
  (up = true -> (lit v <= 1)%nat) ->
  led_sound (k tt) (set_level pin value v)
            (up || ends_set_up (call_gpio_put pin value)) ->
  led_sound (Act (gpio_put pin value) k) v up.
Proof.
  intros Hlit Hk. split; [exact Hlit |]. intros w Hv.
  unfold gpio_put, bind, emit, update. cbn [app existsb gpio_out with_gpio_out].
  rewrite led_levels_insert, Hv, orb_false_r. exact Hk.
Qed.

Lemma led_sound_delay d p v up :
  (up = true -> (lit v <= 1)%nat) ->
  led_sound p v up ->
  led_sound (Block (vTaskDelay d) p) v up.
Proof.
  intros Hlit Hp. split; [exact Hlit |]. intros w Hv.
  unfold vTaskDelay, bind, emit, myself, update, ret.
  destruct (0 <? d); cbn [app existsb gpio_out with_tcbs];
    rewrite Hv; change (ends_set_up (call_vTaskDelay d)) with false;
    rewrite !orb_false_r; exact Hp.
Qed.

Ltac lit_solve :=
  first [ by intros H; discriminate H
        | by intros _; vm_compute; lia ].

Ltac led_walk :=
  repeat (cbn [pbind act blocking pfor_each];
          lazymatch goal with
          | |- led_sound (Act (array_get LED_PINS _) _) _ _ =>
              eapply led_sound_array_get;
              [vm_compute; reflexivity | by vm_compute | lit_solve |]
          | |- led_sound (Act (gpio_put ?pin ?value) _) ?v ?up =>
              apply led_sound_gpio_put; [lit_solve |];
              let v' := eval vm_compute in (set_level pin value v) in
              let up' := eval vm_compute in
                           (up || ends_set_up (call_gpio_put pin value)) in
              change (set_level pin value v) with v';
              change (up || ends_set_up (call_gpio_put pin value)) with up'
          | |- led_sound (Act (gpio_init ?pin) _) _ _ =>
              apply (led_sound_emit (call_gpio_init pin)); [reflexivity | lit_solve |]
          | |- led_sound (Act (gpio_set_dir ?pin ?out) _) _ _ =>
              apply (led_sound_emit (call_gpio_set_dir pin out));
              [reflexivity | lit_solve |]
          | |- led_sound (Block (vTaskDelay _) _) _ _ =>
              apply led_sound_delay; [lit_solve |]
          end).

(** Between two passes the invariant is what the next pass needs. *)
Lemma led_task_led_sound l v up :
  length v = 3%nat ->
  led_sound (Finish l) v up -> led_sound (led_task_steps l) v up.
Proof.
  intros Hlen Hrest. destruct l as [started i].
  cbn [led_sound led_started current_color_index] in Hrest.
  unfold led_task_steps, led_task_loop_steps, led_task_init_steps.
  cbn [led_started current_color_index]. destruct started.
  - destruct Hrest as (-> & Hi & ->).
    destruct (led_index_cases _ Hi) as [Hi' | [Hi' | Hi']];
      cbn [current_color_index] in Hi'; subst i;
      change (one_hot 0) with [Some true; Some false; Some false];
      change (one_hot 1) with [Some false; Some true; Some false];
      change (one_hot 2) with [Some false; Some false; Some true];
      led_walk; by vm_compute.
  - subst up. destruct v as [|a [|b [|c [|]]]]; try discriminate Hlen.
    change (seqZ 0 NUM_COLORS) with [0; 1; 2].
    led_walk; by vm_compute.
Qed.

(** ** The machine under any schedule *)

Lemma sound_resume {A} t (F : A -> Prop) (again : A -> proc A) n p :
  sound t F n p -> resume again p = p.
Proof. destruct p; [intros [] | reflexivity | reflexivity]. Qed.

Lemma thread_resumes {A} t (F : A -> Prop) (again : A -> proc A) N0 p :
  (N0 <= longest_pass)%nat ->
  (forall a, F a -> sound t F N0 (again a)) ->
  thread_ok t F p ->
  exists n, (n <= longest_pass)%nat /\ sound t F n (resume again p).
Proof.
  intros HN Hagain [Hrest | (n & Hn & Hs)].
  - destruct p as [a | |]; try destruct Hrest. exists N0. by split; [| apply Hagain].
  - exists n. by rewrite (sound_resume _ _ _ _ _ Hs).
Qed.

(** One action of a thread that is sound. *)
Lemma run_act_sound {A} t (F : A -> Prop) (again : A -> proc A) p w n :
  live w -> ready t w = true -> sound t F n (resume again p) ->
  exists p' w' cs,
    run_act t again p w = Some (p', w', cs) /\ kept t w w' /\
    ((ready t w' = true /\ exists n', n = S n' /\ sound t F n' p') \/
     (ready t w' = false /\ is_delay cs /\ rests F p')).
Proof.
  intros Hlive Hready Hs. unfold run_act. revert Hs.
  destruct (resume again p) as [a | B m k | m q]; intros Hs; cbn [sound] in Hs.
  - destruct Hs.
  - destruct n as [|n']; [destruct Hs |]. specialize (Hs w Hlive Hready).
    destruct (m (Some t) w) as [b w' cs | |]; try (exfalso; exact Hs).
    destruct Hs as (Hk & Hr & Hs). exists (k b), w', cs.
    split; [reflexivity |]. split; [exact Hk |]. left. split; [exact Hr |].
    by exists n'.
  - destruct n as [|n']; [destruct Hs |]. specialize (Hs w Hlive Hready).
    destruct (m (Some t) w) as [b w' cs | w' cs |]; try (exfalso; exact Hs);
      (destruct Hs as (Hk & Hs); exists q, w', cs;
       split; [reflexivity |]; split; [exact Hk |];
       destruct (ready t w') eqn:Hr;
       [left; split; [reflexivity |]; by exists n'
       | right; split; [reflexivity | exact Hs]]).
Qed.

(** One action of [led_task] and the LED pins. *)
Lemma run_act_led_sound p w p' w' cs up :
  led_sound p (led_levels (gpio_out w)) up ->
  run_act LED_Task led_task_steps p w = Some (p', w', cs) ->
  led_sound p' (led_levels (gpio_out w')) (up || existsb ends_set_up cs).
Proof.
  intros Hp Hrun. unfold run_act in Hrun.
  assert (Hq : led_sound (resume led_task_steps p) (led_levels (gpio_out w)) up).
  { destruct p as [l | |]; try exact Hp.
    apply led_task_led_sound; [apply led_levels_length | exact Hp]. }
  revert Hq Hrun. destruct (resume led_task_steps p) as [a | B m k | m q];
    intros Hq Hrun.
  - injection Hrun as <- <- <-. cbn [existsb]. by rewrite orb_false_r.
  - destruct Hq as [_ Hq]. specialize (Hq w eq_refl).
    destruct (m (Some LED_Task) w) as [b w1 cs1 | |]; try (exfalso; exact Hq).
    injection Hrun as <- <- <-. exact Hq.
  - destruct Hq as [_ Hq]. specialize (Hq w eq_refl).
    destruct (m (Some LED_Task) w) as [b w1 cs1 | w1 cs1 |]; try (exfalso; exact Hq);
      injection Hrun as <- <- <-; exact Hq.
Qed.

Lemma led_set_up_app_led tr w cs :
  led_set_up (tr ++ stamp LED_Task w cs) = led_set_up tr || existsb ends_set_up cs.
Proof.
  unfold led_set_up. rewrite existsb_app. f_equal. unfold stamp.
  induction cs as [|c cs IH]; [reflexivity |]. cbn [map existsb].
  rewrite IH. reflexivity.
Qed.

Lemma led_set_up_app_other t tr w cs :
  t <> LED_Task -> led_set_up (tr ++ stamp t w cs) = led_set_up tr.
Proof.
  intros Hne. unfold led_set_up. rewrite existsb_app.
  assert (H : existsb (fun e : event => bool_decide (e.1.2 = LED_Task)
                                        && ends_set_up e.2) (stamp t w cs)
              = false).
  { unfold stamp. induction cs as [|c cs IH]; [reflexivity |]. cbn [map existsb].
    rewrite IH. cbn. by rewrite bool_decide_eq_false_2. }
  by rewrite H, orb_false_r.
Qed.

Lemma live_tick w : live w -> live (tick w).
Proof.
  intros (HL & HB & HtL & HtB). split; [exact HL | split; [exact HB |]].
  unfold tick. cbn [tcbs with_tick with_tcbs]. rewrite !lookup_fmap.
  split; by apply fmap_is_Some.
Qed.

Lemma led_sound_bounds p v up :
  led_sound p v up -> up = true -> (lit v <= 1)%nat.
Proof.
  destruct p as [l | B m k | m q]; cbn [led_sound].
  - destruct (led_started l); [| congruence].
    intros (_ & Hi & ->) _.
    destruct (led_index_cases _ Hi) as [-> | [-> | ->]]; vm_compute; lia.
  - by intros [H _].
  - by intros [H _].
Qed.

(** The passes with which the tasks go on. *)
Lemma thread_sound_exists t s :
  machine_ok s -> exists n, (n <= longest_pass)%nat /\ thread_sound t n s.
Proof.
  intros (_ & HL & HB & HC & HO & _). destruct t; cbn [thread_sound].
  - apply (thread_resumes _ _ _ 17); [reflexivity | apply led_task_sound | exact HL].
  - apply (thread_resumes _ _ _ 2);
      [unfold longest_pass; lia | intros; apply buzzer_task_sound | exact HB].
  - apply (thread_resumes _ _ _ 15);
      [unfold longest_pass; lia | intros; apply button_task_sound | exact HC].
  - apply (thread_resumes _ _ _ 14);
      [unfold longest_pass; lia | intros; apply oled_task_sound | exact HO].
Qed.

Lemma thread_ok_after {A} t (F : A -> Prop) (p' : proc A) n w' (cs : list call) :
  (n <= longest_pass)%nat ->
  (ready t w' = true /\ exists n', n = S n' /\ sound t F n' p') \/
  (ready t w' = false /\ is_delay cs /\ rests F p') ->
  thread_ok t F p'.
Proof.
  intros Hn [(_ & n' & -> & Hs) | (_ & _ & Hrest)].
  - right. exists n'. split; [lia | exact Hs].
  - by left.
Qed.

(** One action of a ready task. *)
Lemma mstep_run t s n :
  machine_ok s -> ready t (m_world s) = true ->
  (n <= longest_pass)%nat -> thread_sound t n s ->
  exists s' cs,
    mstep (Run t) s = Some s' /\ machine_ok s' /\
    m_trace s' = m_trace s ++ stamp t (m_world s) cs /\
    ((ready t (m_world s') = true /\ exists n', n = S n' /\ thread_sound t n' s') \/
     (ready t (m_world s') = false /\ is_delay cs)).
Proof.
  intros (Hlive & HL & HB & HC & HO & Hled) Hready Hn Hs.
  cbn [mstep]. rewrite Hready. unfold run_thread.
  destruct t; cbn [thread_sound] in Hs;
    destruct (run_act_sound _ _ _ _ _ _ Hlive Hready Hs)
      as (p' & w' & cs & Hrun & Hk & Hout);
    rewrite Hrun; cbn;
    (eexists _, cs; split; [reflexivity |]; split; [| split; [reflexivity |]]).
  - split; [exact (live_kept _ _ _ Hlive Hk) |].
    split; [exact (thread_ok_after _ _ _ _ _ _ Hn Hout) |].
    split; [exact HB |]. split; [exact HC |]. split; [exact HO |].
    cbn [led_thread m_world m_trace]. rewrite led_set_up_app_led.
    exact (run_act_led_sound _ _ _ _ _ _ Hled Hrun).
  - destruct Hout as [(Hr & n' & -> & Hs') | (Hr & Hd & _)]; [left | by right].
    split; [exact Hr |]. exists n'. split; [reflexivity |].
    cbn [thread_sound led_thread]. by rewrite (sound_resume _ _ _ _ _ Hs').
  - split; [exact (live_kept _ _ _ Hlive Hk) |]. split; [exact HL |].
    split; [exact (thread_ok_after _ _ _ _ _ _ Hn Hout) |].
    split; [exact HC |]. split; [exact HO |].
    cbn [led_thread m_world m_trace].
    rewrite led_set_up_app_other by discriminate.
    destruct Hk as (_ & _ & Hg). by rewrite Hg.
  - destruct Hout as [(Hr & n' & -> & Hs') | (Hr & Hd & _)]; [left | by right].
    split; [exact Hr |]. exists n'. split; [reflexivity |].
    cbn [thread_sound buzzer_thread]. by rewrite (sound_resume _ _ _ _ _ Hs').
  - split; [exact (live_kept _ _ _ Hlive Hk) |]. split; [exact HL |].
    split; [exact HB |].
    split; [exact (thread_ok_after _ _ _ _ _ _ Hn Hout) |]. split; [exact HO |].
    cbn [led_thread m_world m_trace].
    rewrite led_set_up_app_other by discriminate.
    destruct Hk as (_ & _ & Hg). by rewrite Hg.
  - destruct Hout as [(Hr & n' & -> & Hs') | (Hr & Hd & _)]; [left | by right].
    split; [exact Hr |]. exists n'. split; [reflexivity |].
    cbn [thread_sound button_thread]. by rewrite (sound_resume _ _ _ _ _ Hs').
  - split; [exact (live_kept _ _ _ Hlive Hk) |]. split; [exact HL |].
    split; [exact HB |]. split; [exact HC |].
    split; [exact (thread_ok_after _ _ _ _ _ _ Hn Hout) |].
    cbn [led_thread m_world m_trace].
    rewrite led_set_up_app_other by discriminate.
    destruct Hk as (_ & _ & Hg). by rewrite Hg.
  - destruct Hout as [(Hr & n' & -> & Hs') | (Hr & Hd & _)]; [left | by right].
    split; [exact Hr |]. exists n'. split; [reflexivity |].
    cbn [thread_sound oled_thread]. by rewrite (sound_resume _ _ _ _ _ Hs').
Qed.

(** Every step of the machine is defined and keeps the invariant. *)
Lemma mstep_ok l s :
  machine_ok s -> exists s', mstep l s = Some s' /\ machine_ok s'.
Proof.
  intros Hok. destruct l as [| gpio level | t]; cbn [mstep].
  - eexists. split; [reflexivity |].
    destruct Hok as (Hlive & HL & HB & HC & HO & Hled).
    split; [by apply live_tick |]. by repeat split.
  - eexists. split; [reflexivity |]. exact Hok.
  - destruct (ready t (m_world s)) eqn:Hready;
      [| exists s; by split].
    destruct (thread_sound_exists t s Hok) as (n & Hn & Hs).
    destruct (mstep_run t s n Hok Hready Hn Hs) as (s' & cs & Hstep & Hok' & _).
    cbn [mstep] in Hstep. rewrite Hready in Hstep. by exists s'.
Qed.

Lemma mrun_ok schedule : forall s,
  machine_ok s -> exists s', mrun schedule s = Some s' /\ machine_ok s'.
Proof.
  induction schedule as [|l rest IH]; intros s Hok.
  - by exists s.
  - destruct (mstep_ok l s Hok) as (s1 & Hs1 & Hok1).
    destruct (IH s1 Hok1) as (s' & Hs' & Hok').
    exists s'. cbn [mrun]. by rewrite Hs1.
Qed.

Lemma mboot_Some d h g0 s0 :
  mboot d h g0 = Some s0 ->
  s0 = mstart (with_gpio_out (fun _ => g0) started_world).
Proof.
  unfold mboot. intros Hboot.
  destruct (main d h None power_on) as [[] w cs | |] eqn:Hmain;
    try discriminate Hboot.
  injection Hboot as <-.
  destruct (boot_Some d h (start w)) as (Hs & _);
    [unfold boot; by rewrite Hmain |].
  by injection Hs as ->.
Qed.

Lemma machine_ok_start g0 :
  machine_ok (mstart (with_gpio_out (fun _ => g0) started_world)).
Proof.
  split; [| split; [| split; [| split; [| split]]]].
  - split; [reflexivity | split; [reflexivity |]].
    split; vm_compute; by eexists.
  - left. by vm_compute.
  - by left.
  - by left.
  - by left.
  - reflexivity.
Qed.

(** ** At most one LED *)

(** X6. Once [led_task] has ended its set-up loop, at most one LED is on
    in every state the program reaches, whatever levels the output pins
    had when the scheduler started, however the actions of the tasks are
    interleaved and whenever the Control Task suspends or resumes the LED
    task, also in the middle of a pass; and whenever [led_task] stands in
    its delay after a pass, exactly the LED of [current_color_index] is
    on, with the index in [[0, NUM_COLORS)]. *)
Theorem at_most_one_led_in_every_state :
  forall (display_ok : bool) (heap_ok : task -> bool) (g0 : gmap Z bool)
         (s0 : Machine) (schedule : list label),
    mboot display_ok heap_ok g0 = Some s0 ->
    exists s,
      mrun schedule s0 = Some s /\
      (led_set_up (m_trace s) = true ->
       (length (active_channels (gpio_out (m_world s))) <= 1)%nat) /\
      (forall l,
         led_thread s = Finish l -> led_started l = true ->
         0 <= current_color_index l < NUM_COLORS /\
         active_channels (gpio_out (m_world s))
         = [channel (current_color_index l)]).
Proof.
  intros d h g0 s0 schedule Hboot. apply mboot_Some in Hboot as ->.
  destruct (mrun_ok schedule _ (machine_ok_start g0)) as (s & Hrun & Hok).
  exists s. split; [exact Hrun |].
  destruct Hok as (_ & _ & _ & _ & _ & Hled). split.
  - intros Hup. rewrite lit_active. exact (led_sound_bounds _ _ _ Hled Hup).
  - intros l Hl Hstarted. rewrite Hl in Hled. cbn [led_sound] in Hled.
    rewrite Hstarted in Hled. destruct Hled as (_ & Hi & Hv).
    split; [exact Hi | by apply one_hot_active].
Qed.

Lemma at_most_one_led_in_every_state_witness :
  mboot true all_created two_leds_on
  = Some (mstart (with_gpio_out (fun _ => two_leds_on) started_world)) /\
  exists s,
    mrun suspended_between_writes
         (mstart (with_gpio_out (fun _ => two_leds_on) started_world)) = Some s /\
    (led_set_up (m_trace s) = true ->
     (length (active_channels (gpio_out (m_world s))) <= 1)%nat) /\
    (forall l,
       led_thread s = Finish l -> led_started l = true ->
       0 <= current_color_index l < NUM_COLORS /\
       active_channels (gpio_out (m_world s))
       = [channel (current_color_index l)]).
Proof.
  assert (H : mboot true all_created two_leds_on
              = Some (mstart (with_gpio_out (fun _ => two_leds_on) started_world)))
    by (vm_compute; reflexivity).
  split; [exact H |].
  exact (at_most_one_led_in_every_state true all_created two_leds_on _
           suspended_between_writes H).
Defined.

(** The machine reaches what [step] cannot: [led_task] suspended between
    the write that turns one colour off and the write that turns the next
    one on, with its set-up done and no LED lit. *)
Lemma led_task_suspended_between_its_writes :
  exists s,
    mrun suspended_between_writes
         (mstart (with_gpio_out (fun _ => two_leds_on) started_world)) = Some s /\
    run_state (Some LED_Task) (m_world s) = Suspended /\
    at_rest (led_thread s) = false /\
    led_set_up (m_trace s) = true /\
    active_channels (gpio_out (m_world s)) = [].
Proof.
  destruct (mrun_ok suspended_between_writes _ (machine_ok_start two_leds_on))
    as (s & Hrun & _).
  exists s. split; [exact Hrun |].
  vm_compute in Hrun. injection Hrun as <-.
  repeat split; vm_compute; reflexivity.
Qed.

(** ** Every pass reaches its delay *)

Lemma mrun_not_ready t k s :
  ready t (m_world s) = false -> mrun (repeat (Run t) k) s = Some s.
Proof.
  intros Hr. induction k as [|k IH]; [reflexivity |].
  cbn [repeat mrun mstep]. by rewrite Hr.
Qed.

Lemma sound_positive t n s : thread_sound t n s -> exists n', n = S n'.
Proof.
  destruct n as [|n']; [| by exists n'].
  destruct t; cbn [thread_sound];
    match goal with |- sound _ _ _ ?p -> _ => destruct p end;
    intros [].
Qed.

Lemma last_stamp t w d :
  last (map snd (stamp t w [call_vTaskDelay d])) = Some (call_vTaskDelay d).
Proof. reflexivity. Qed.

Lemma run_until_delay t : forall n s k,
  machine_ok s -> ready t (m_world s) = true ->
  (n <= longest_pass)%nat -> thread_sound t n s -> (n <= k)%nat ->
  exists s' new d,
    mrun (repeat (Run t) k) s = Some s' /\ machine_ok s' /\
    ready t (m_world s') = false /\
    m_trace s' = m_trace s ++ new /\
    0 < d /\ last (map snd new) = Some (call_vTaskDelay d).
Proof.
  induction n as [|n IH]; intros s k Hok Hready Hn Hs Hk.
  - by destruct (sound_positive _ _ _ Hs).
  - destruct k as [|k]; [lia |].
    destruct (mstep_run t s (S n) Hok Hready Hn Hs)
      as (s1 & cs & Hstep & Hok1 & Htr & Hout).
    cbn [repeat mrun]. rewrite Hstep.
    destruct Hout as [(Hr1 & n' & [= <-] & Hs1) | (Hr1 & d & Hd & ->)].
    + destruct (IH s1 k Hok1 Hr1 ltac:(lia) Hs1 ltac:(lia))
        as (s' & new & d & Hrun & Hok' & Hr' & Htr' & Hd & Hlast).
      exists s', (stamp t (m_world s) cs ++ new), d.
      split; [exact Hrun |]. split; [exact Hok' |]. split; [exact Hr' |].
      split; [by rewrite Htr', Htr, app_assoc |]. split; [exact Hd |].
      rewrite map_app, last_app. unfold event in *. by rewrite Hlast.
    + exists s1, (stamp t (m_world s) [call_vTaskDelay d]), d.
      split; [by apply mrun_not_ready |]. split; [exact Hok1 |].
      split; [exact Hr1 |]. split; [exact Htr |]. split; [exact Hd |].
      apply last_stamp.
Qed.

(** X12. No task holds the processor for long: in every state the
    program reaches, however the actions of the tasks were interleaved
    before, a task that is ready and is given the processor without
    interruption makes at most 17 actions, none of which leaves defined
    behaviour, the last of them a [vTaskDelay] of at least one tick, after
    which it is no longer ready.  This holds from the middle of a pass as
    well as from its beginning. *)
Theorem every_pass_reaches_its_delay :
  forall (display_ok : bool) (heap_ok : task -> bool) (g0 : gmap Z bool)
         (s0 : Machine) (schedule : list label) (t : task),
    mboot display_ok heap_ok g0 = Some s0 ->
    exists s s',
      mrun schedule s0 = Some s /\
      mrun (repeat (Run t) longest_pass) s = Some s' /\
      ready t (m_world s') = false /\
      (ready t (m_world s) = true ->
       exists new d,
         m_trace s' = m_trace s ++ new /\
         0 < d /\ last (map snd new) = Some (call_vTaskDelay d)).
Proof.
  intros d h g0 s0 schedule t Hboot. apply mboot_Some in Hboot as ->.
  destruct (mrun_ok schedule _ (machine_ok_start g0)) as (s & Hrun & Hok).
  exists s. destruct (ready t (m_world s)) eqn:Hready.
  - destruct (thread_sound_exists t s Hok) as (n & Hn & Hs).
    destruct (run_until_delay t n s longest_pass Hok Hready Hn Hs Hn)
      as (s' & new & dl & Hrun' & _ & Hr' & Htr & Hd & Hlast).
    exists s'. split; [exact Hrun |]. split; [exact Hrun' |].
    split; [exact Hr' |]. intros _. by exists new, dl.
  - exists s. split; [exact Hrun |]. split; [by apply mrun_not_ready |].
    split; [exact Hready | discriminate].
Qed.

Lemma every_pass_reaches_its_delay_witness :
  mboot true all_created two_leds_on
  = Some (mstart (with_gpio_out (fun _ => two_leds_on) started_world)) /\
  exists s s',
    mrun (repeat (Run LED_Task) 5 ++ [Input BUTTON_B_PIN false; Run Button_Task])
         (mstart (with_gpio_out (fun _ => two_leds_on) started_world)) = Some s /\
    mrun (repeat (Run Button_Task) longest_pass) s = Some s' /\
    ready Button_Task (m_world s') = false /\
    (ready Button_Task (m_world s) = true ->
     exists new d,
       m_trace s' = m_trace s ++ new /\
       0 < d /\ last (map snd new) = Some (call_vTaskDelay d)).
Proof.
  assert (H : mboot true all_created two_leds_on
              = Some (mstart (with_gpio_out (fun _ => two_leds_on) started_world)))
    by (vm_compute; reflexivity).
  split; [exact H |].
  exact (every_pass_reaches_its_delay true all_created two_leds_on _
           (repeat (Run LED_Task) 5 ++ [Input BUTTON_B_PIN false; Run Button_Task])
           Button_Task H).
Defined.
